(** * Image-Constructor: the canvas engine, the retry helper and the
    workspace handlers, embedded from the TypeScript sources.

    Numbers are JavaScript numbers idealised as exact rationals extended with
    the three special values a division by zero produces; rounding and the
    sign of zero are not modelled.  React state is an explicit record, a
    handler is a function from the state it closes over to the state after
    its updates, and the callbacks a component receives as props are the
    list of calls a handler returns. *)

From Stdlib Require Import QArith Qround Qabs Qpower ZArith List String Ascii Bool Lia Lqa.
From Stdlib Require Import DecimalString.
Import ListNotations.

Local Open Scope Q_scope.

(** ** JavaScript numbers *)
Module JsNum.

Inductive num : Type :=
| Fin (q : Q)
| PInf
| NInf
| NaN.

Definition Qltb (a b : Q) : bool := negb (Qle_bool b a).
Definition Qis0 (a : Q) : bool := Qeq_bool a 0.

Definition neg (a : num) : num :=
  match a with
  | Fin q => Fin (- q)
  | PInf => NInf
  | NInf => PInf
  | NaN => NaN
  end.

Definition add (a b : num) : num :=
  match a, b with
  | NaN, _ | _, NaN => NaN
  | Fin p, Fin q => Fin (p + q)
  | PInf, NInf | NInf, PInf => NaN
  | PInf, _ | _, PInf => PInf
  | NInf, _ | _, NInf => NInf
  end.

Definition sub (a b : num) : num := add a (neg b).

(** Sign of an infinite product or quotient: [pos] tells whether the infinite
    operand is positive, [q] is the finite one. *)
Definition inf_signed (pos : bool) (q : Q) : num :=
  if Qis0 q then NaN
  else if Bool.eqb pos (Qltb 0 q) then PInf else NInf.

Definition mul (a b : num) : num :=
  match a, b with
  | NaN, _ | _, NaN => NaN
  | Fin p, Fin q => Fin (p * q)
  | Fin p, PInf | PInf, Fin p => inf_signed true p
  | Fin p, NInf | NInf, Fin p => inf_signed false p
  | PInf, PInf | NInf, NInf => PInf
  | PInf, NInf | NInf, PInf => NInf
  end.

(** [x / 0] is NaN for [x = 0] and an infinity of the sign of [x] otherwise
    (the divisor is taken as the positive zero). *)
Definition div (a b : num) : num :=
  match a, b with
  | NaN, _ | _, NaN => NaN
  | Fin p, Fin q =>
      if Qis0 q then
        (if Qis0 p then NaN else if Qltb 0 p then PInf else NInf)
      else Fin (p / q)
  | Fin _, PInf | Fin _, NInf => Fin 0
  | PInf, Fin q => if Qltb q 0 then NInf else PInf
  | NInf, Fin q => if Qltb q 0 then PInf else NInf
  | _, _ => NaN
  end.

(** [a < b]; every comparison with NaN is false. *)
Definition lt (a b : num) : bool :=
  match a, b with
  | NaN, _ | _, NaN => false
  | Fin p, Fin q => Qltb p q
  | NInf, NInf | PInf, _ | _, NInf => false
  | NInf, _ | _, PInf => true
  end.

Definition gt (a b : num) : bool := lt b a.

(** [Math.min], [Math.max], [Math.abs], [Math.floor]. *)
Definition min (a b : num) : num :=
  match a, b with
  | NaN, _ | _, NaN => NaN
  | _, _ => if lt b a then b else a
  end.

Definition max (a b : num) : num :=
  match a, b with
  | NaN, _ | _, NaN => NaN
  | _, _ => if lt a b then b else a
  end.

Definition abs (a : num) : num :=
  match a with
  | Fin q => Fin (Qabs q)
  | PInf | NInf => PInf
  | NaN => NaN
  end.

Definition floor (a : num) : num :=
  match a with
  | Fin q => Fin (inject_Z (Qfloor q))
  | other => other
  end.

(** Conversion of an argument to a WebIDL [long]: a finite value is
    truncated toward zero; NaN and the infinities are taken to 0, as the plain
    conversion does (an interface that enforces the range throws on them
    instead). *)
Definition to_long (a : num) : Z :=
  match a with
  | Fin q => if Qltb q 0 then (- Qfloor (- q))%Z else Qfloor q
  | _ => 0%Z
  end.

(** The range of a Web IDL [long]. *)
Definition LONG_MIN : Z := (-2147483648)%Z.
Definition LONG_MAX : Z := 2147483647%Z.

(** Conversion of an argument declared [[EnforceRange] long]: NaN and the
    infinities are a [TypeError], here [None]; a finite value is truncated
    toward zero, and is a [TypeError] too when the result is outside the
    range of a [long]. *)
Definition enforce_long (a : num) : option Z :=
  match a with
  | Fin _ =>
      let x := to_long a in
      if ((x <? LONG_MIN) || (LONG_MAX <? x))%Z then None else Some x
  | _ => None
  end.

Definition of_Z (z : Z) : num := Fin (inject_Z z).
Definition of_nat (n : nat) : num := Fin (inject_Z (Z.of_nat n)).

(** A JavaScript number is falsy when it is zero or NaN. *)
Definition falsy (a : num) : bool :=
  match a with
  | Fin q => Qis0 q
  | NaN => true
  | _ => false
  end.

Definition is_finite (a : num) : Prop :=
  match a with Fin _ => True | _ => False end.

(** Equality of numbers up to the representation of a rational. *)
Definition eqv (a b : num) : Prop :=
  match a, b with
  | Fin p, Fin q => p == q
  | PInf, PInf | NInf, NInf | NaN, NaN => True
  | _, _ => False
  end.

(** [lo <= a <= hi] for a finite [a]; false for NaN and the infinities. *)
Definition within (lo hi : Q) (a : num) : Prop :=
  match a with
  | Fin q => lo <= q /\ q <= hi
  | _ => False
  end.

End JsNum.
Import JsNum.

Declare Scope num_scope.
Delimit Scope num_scope with num.
Bind Scope num_scope with num.
Infix "-" := sub : num_scope.
Infix "+" := add : num_scope.
Infix "*" := mul : num_scope.
Infix "/" := div : num_scope.
Infix "<?" := lt : num_scope.
Infix ">?" := gt (at level 70) : num_scope.

(** ** types.ts *)
Module Types.

Record ImageFile := { if_id : string; if_dataUrl : string }.

Record GeneratedResult := { gr_id : string; gr_image : string; gr_text : string }.

Record DropCoordinates := { dc_x : num; dc_y : num }.

(** [mask] is the base64 PNG; [color] the UI colour. *)
Record SegmentationMask := { sm_label : string; sm_mask : string; sm_color : string }.

Record EditMarker := {
  em_id : string;
  em_x : num;
  em_y : num;
  em_prompt : string;
  em_targetObjectLabel : option string
}.

(** [color] is read from the palette by index, which yields [undefined]
    ([None]) out of range. *)
Record AssetMarker := {
  am_id : string;
  am_assetId : string;
  am_x : num;
  am_y : num;
  am_color : option string;
  am_prompt : option string;
  am_targetObjectLabel : option string
}.

(** [Partial<EditMarker>]: a field is present ([Some], with its value) or
    absent; an optional field may be present and undefined. *)
Record PartialEditMarker := {
  pem_id : option string;
  pem_x : option num;
  pem_y : option num;
  pem_prompt : option string;
  pem_targetObjectLabel : option (option string)
}.

Record PartialAssetMarker := {
  pam_id : option string;
  pam_assetId : option string;
  pam_x : option num;
  pam_y : option num;
  pam_color : option (option string);
  pam_prompt : option (option string);
  pam_targetObjectLabel : option (option string)
}.

(** A settled promise. *)
Inductive outcome (T : Type) : Type :=
| Resolved (v : T)
| Rejected (message : string).
Arguments Resolved {T} v.
Arguments Rejected {T} message.

End Types.
Import Types.

Local Open Scope string_scope.

(** Decimal rendering of a number inside a template string. *)
Definition show_nat (n : nat) : string := NilEmpty.string_of_uint (Nat.to_uint n).
Definition show_Z (z : Z) : string := NilEmpty.string_of_uint (N.to_uint (Z.to_N z)).
Arguments show_nat : simpl never.
Arguments show_Z : simpl never.

(** ** services/geminiService.ts *)
Module GeminiService.

Definition MAX_RETRIES : nat := 3.

Inductive logType := LInfo | LError | LSuccess | LApi.

(** What a run of the helper does, in order: a call of [fn], a log line, a
    [setTimeout] wait in milliseconds. *)
Inductive effect : Type :=
| Invoke
| Log (message : string) (type : logType)
| Sleep (ms : Z).

Section CallWithRetry.
Context {W T : Type}.
(** The wrapped call: it acts on the outside world and resolves or throws. *)
Variable fn : W -> outcome T * W.

Definition or_unknown (m : option string) : string :=
  match m with
  | Some s => if String.eqb s "" then "Unknown error" else s
  | None => "Unknown error"
  end.

(** The [for] loop, [fuel] being [MAX_RETRIES - attempt]. *)
Fixpoint retry_loop (fuel attempt : nat) (lastError : option string)
         (w : W) (tr : list effect) : outcome T * W * list effect :=
  match fuel with
  | O =>
      (Rejected ("Failed after " ++ show_nat MAX_RETRIES ++ " attempts. Last error: "
                 ++ or_unknown lastError), w, tr)
  | S fuel' =>
      let tr := (tr ++ [Log ("API call attempt " ++ show_nat (attempt + 1) ++ "...") LApi;
                        Invoke])%list in
      match fn w with
      | (Resolved v, w') => (Resolved v, w', tr)
      | (Rejected m, w') =>
          let tr := (tr ++ [Log ("API call attempt " ++ show_nat (attempt + 1)
                                 ++ " failed: " ++ m) LError])%list in
          let tr :=
            if (attempt <? MAX_RETRIES - 1)%nat then
              let delay := (1000 * (Z.of_nat attempt + 1))%Z in
              (tr ++ [Log ("Retrying after " ++ show_Z delay ++ "ms...") LInfo;
                      Sleep delay])%list
            else tr in
          retry_loop fuel' (S attempt) (Some m) w' tr
      end
  end.

Definition callWithRetry (w : W) : outcome T * W * list effect :=
  retry_loop MAX_RETRIES 0 None w [].
End CallWithRetry.

Definition invocations (tr : list effect) : nat :=
  List.length (filter (fun e => match e with Invoke => true | _ => false end) tr).

Fixpoint delays (tr : list effect) : list Z :=
  match tr with
  | [] => []
  | Sleep ms :: tr' => ms :: delays tr'
  | _ :: tr' => delays tr'
  end.

(** The calls and the waits of a trace in the order they happen, the log
    lines dropped. *)
Definition steps (tr : list effect) : list effect :=
  filter (fun e => match e with Log _ _ => false | _ => true end) tr.

End GeminiService.

(** ** App.tsx: the workspace state and its handlers *)
Module App.

Record Point := { px : num; py : num }.

Definition MARKER_COLORS : list string :=
  ["#34D399"; "#60A5FA"; "#FBBF24"; "#A78BFA"; "#F87171"; "#F472B6"].
Definition MASK_COLORS : list string :=
  ["rgba(52, 211, 153, 0.5)"; "rgba(96, 165, 250, 0.5)"; "rgba(251, 191, 36, 0.5)";
   "rgba(167, 139, 250, 0.5)"; "rgba(248, 113, 113, 0.5)"; "rgba(244, 114, 182, 0.5)";
   "rgba(250, 204, 21, 0.5)"; "rgba(59, 130, 246, 0.5)"].

Definition MIN_ZOOM : num := Fin (2 # 10).
Definition MAX_ZOOM : num := Fin 5.
Definition ZOOM_STEP : num := Fin (12 # 10).

Record EditorState := {
  es_baseImage : option ImageFile;
  es_insertImages : list ImageFile;
  es_markers : list EditMarker;
  es_assetMarkers : list AssetMarker
}.

(** The [useState] cells of [App] (the log and the flags that only drive
    presentation are left out), and the count of identifiers drawn so far from
    [crypto.randomUUID]. *)
Record AppState := {
  baseImage : option ImageFile;
  insertImages : list ImageFile;
  markers : list EditMarker;
  assetMarkers : list AssetMarker;
  generatedResults : list GeneratedResult;
  isLoading : bool;
  error : option string;
  numVariations : nat;
  activeResultId : option string;
  lastColorIndex : nat;
  zoom : num;
  canvasOffset : Point;
  isCompareMode : bool;
  imageContext : option string;
  isSegmenting : bool;
  segmentationData : option (list SegmentationMask);
  hoveredMaskLabel : option string;
  sliderPosition : num;
  isSliderDragging : bool;
  history : list EditorState;
  uuidSeed : nat
}.

Definition set_baseImage (v : option ImageFile) (s : AppState) : AppState :=
  {| baseImage := v; insertImages := insertImages s; markers := markers s;
     assetMarkers := assetMarkers s; generatedResults := generatedResults s;
     isLoading := isLoading s; error := error s; numVariations := numVariations s;
     activeResultId := activeResultId s; lastColorIndex := lastColorIndex s; zoom := zoom s;
     canvasOffset := canvasOffset s; isCompareMode := isCompareMode s;
     imageContext := imageContext s; isSegmenting := isSegmenting s;
     segmentationData := segmentationData s; hoveredMaskLabel := hoveredMaskLabel s;
     sliderPosition := sliderPosition s; isSliderDragging := isSliderDragging s;
     history := history s; uuidSeed := uuidSeed s |}.

Definition set_insertImages (v : list ImageFile) (s : AppState) : AppState :=
  {| baseImage := baseImage s; insertImages := v; markers := markers s;
     assetMarkers := assetMarkers s; generatedResults := generatedResults s;
     isLoading := isLoading s; error := error s; numVariations := numVariations s;
     activeResultId := activeResultId s; lastColorIndex := lastColorIndex s; zoom := zoom s;
     canvasOffset := canvasOffset s; isCompareMode := isCompareMode s;
     imageContext := imageContext s; isSegmenting := isSegmenting s;
     segmentationData := segmentationData s; hoveredMaskLabel := hoveredMaskLabel s;
     sliderPosition := sliderPosition s; isSliderDragging := isSliderDragging s;
     history := history s; uuidSeed := uuidSeed s |}.

Definition set_markers (v : list EditMarker) (s : AppState) : AppState :=
  {| baseImage := baseImage s; insertImages := insertImages s; markers := v;
     assetMarkers := assetMarkers s; generatedResults := generatedResults s;
     isLoading := isLoading s; error := error s; numVariations := numVariations s;
     activeResultId := activeResultId s; lastColorIndex := lastColorIndex s; zoom := zoom s;
     canvasOffset := canvasOffset s; isCompareMode := isCompareMode s;
     imageContext := imageContext s; isSegmenting := isSegmenting s;
     segmentationData := segmentationData s; hoveredMaskLabel := hoveredMaskLabel s;
     sliderPosition := sliderPosition s; isSliderDragging := isSliderDragging s;
     history := history s; uuidSeed := uuidSeed s |}.

Definition set_assetMarkers (v : list AssetMarker) (s : AppState) : AppState :=
  {| baseImage := baseImage s; insertImages := insertImages s; markers := markers s;
     assetMarkers := v; generatedResults := generatedResults s; isLoading := isLoading s;
     error := error s; numVariations := numVariations s; activeResultId := activeResultId s;
     lastColorIndex := lastColorIndex s; zoom := zoom s; canvasOffset := canvasOffset s;
     isCompareMode := isCompareMode s; imageContext := imageContext s;
     isSegmenting := isSegmenting s; segmentationData := segmentationData s;
     hoveredMaskLabel := hoveredMaskLabel s; sliderPosition := sliderPosition s;
     isSliderDragging := isSliderDragging s; history := history s; uuidSeed := uuidSeed s |}.

Definition set_generatedResults (v : list GeneratedResult) (s : AppState) : AppState :=
  {| baseImage := baseImage s; insertImages := insertImages s; markers := markers s;
     assetMarkers := assetMarkers s; generatedResults := v; isLoading := isLoading s;
     error := error s; numVariations := numVariations s; activeResultId := activeResultId s;
     lastColorIndex := lastColorIndex s; zoom := zoom s; canvasOffset := canvasOffset s;
     isCompareMode := isCompareMode s; imageContext := imageContext s;
     isSegmenting := isSegmenting s; segmentationData := segmentationData s;
     hoveredMaskLabel := hoveredMaskLabel s; sliderPosition := sliderPosition s;
     isSliderDragging := isSliderDragging s; history := history s; uuidSeed := uuidSeed s |}.

Definition set_isLoading (v : bool) (s : AppState) : AppState :=
  {| baseImage := baseImage s; insertImages := insertImages s; markers := markers s;
     assetMarkers := assetMarkers s; generatedResults := generatedResults s; isLoading := v;
     error := error s; numVariations := numVariations s; activeResultId := activeResultId s;
     lastColorIndex := lastColorIndex s; zoom := zoom s; canvasOffset := canvasOffset s;
     isCompareMode := isCompareMode s; imageContext := imageContext s;
     isSegmenting := isSegmenting s; segmentationData := segmentationData s;
     hoveredMaskLabel := hoveredMaskLabel s; sliderPosition := sliderPosition s;
     isSliderDragging := isSliderDragging s; history := history s; uuidSeed := uuidSeed s |}.

Definition set_error (v : option string) (s : AppState) : AppState :=
  {| baseImage := baseImage s; insertImages := insertImages s; markers := markers s;
     assetMarkers := assetMarkers s; generatedResults := generatedResults s;
     isLoading := isLoading s; error := v; numVariations := numVariations s;
     activeResultId := activeResultId s; lastColorIndex := lastColorIndex s; zoom := zoom s;
     canvasOffset := canvasOffset s; isCompareMode := isCompareMode s;
     imageContext := imageContext s; isSegmenting := isSegmenting s;
     segmentationData := segmentationData s; hoveredMaskLabel := hoveredMaskLabel s;
     sliderPosition := sliderPosition s; isSliderDragging := isSliderDragging s;
     history := history s; uuidSeed := uuidSeed s |}.

Definition set_numVariations (v : nat) (s : AppState) : AppState :=
  {| baseImage := baseImage s; insertImages := insertImages s; markers := markers s;
     assetMarkers := assetMarkers s; generatedResults := generatedResults s;
     isLoading := isLoading s; error := error s; numVariations := v;
     activeResultId := activeResultId s; lastColorIndex := lastColorIndex s; zoom := zoom s;
     canvasOffset := canvasOffset s; isCompareMode := isCompareMode s;
     imageContext := imageContext s; isSegmenting := isSegmenting s;
     segmentationData := segmentationData s; hoveredMaskLabel := hoveredMaskLabel s;
     sliderPosition := sliderPosition s; isSliderDragging := isSliderDragging s;
     history := history s; uuidSeed := uuidSeed s |}.

Definition set_activeResultId (v : option string) (s : AppState) : AppState :=
  {| baseImage := baseImage s; insertImages := insertImages s; markers := markers s;
     assetMarkers := assetMarkers s; generatedResults := generatedResults s;
     isLoading := isLoading s; error := error s; numVariations := numVariations s;
     activeResultId := v; lastColorIndex := lastColorIndex s; zoom := zoom s;
     canvasOffset := canvasOffset s; isCompareMode := isCompareMode s;
     imageContext := imageContext s; isSegmenting := isSegmenting s;
     segmentationData := segmentationData s; hoveredMaskLabel := hoveredMaskLabel s;
     sliderPosition := sliderPosition s; isSliderDragging := isSliderDragging s;
     history := history s; uuidSeed := uuidSeed s |}.

Definition set_lastColorIndex (v : nat) (s : AppState) : AppState :=
  {| baseImage := baseImage s; insertImages := insertImages s; markers := markers s;
     assetMarkers := assetMarkers s; generatedResults := generatedResults s;
     isLoading := isLoading s; error := error s; numVariations := numVariations s;
     activeResultId := activeResultId s; lastColorIndex := v; zoom := zoom s;
     canvasOffset := canvasOffset s; isCompareMode := isCompareMode s;
     imageContext := imageContext s; isSegmenting := isSegmenting s;
     segmentationData := segmentationData s; hoveredMaskLabel := hoveredMaskLabel s;
     sliderPosition := sliderPosition s; isSliderDragging := isSliderDragging s;
     history := history s; uuidSeed := uuidSeed s |}.

Definition set_zoom (v : num) (s : AppState) : AppState :=
  {| baseImage := baseImage s; insertImages := insertImages s; markers := markers s;
     assetMarkers := assetMarkers s; generatedResults := generatedResults s;
     isLoading := isLoading s; error := error s; numVariations := numVariations s;
     activeResultId := activeResultId s; lastColorIndex := lastColorIndex s; zoom := v;
     canvasOffset := canvasOffset s; isCompareMode := isCompareMode s;
     imageContext := imageContext s; isSegmenting := isSegmenting s;
     segmentationData := segmentationData s; hoveredMaskLabel := hoveredMaskLabel s;
     sliderPosition := sliderPosition s; isSliderDragging := isSliderDragging s;
     history := history s; uuidSeed := uuidSeed s |}.

Definition set_canvasOffset (v : Point) (s : AppState) : AppState :=
  {| baseImage := baseImage s; insertImages := insertImages s; markers := markers s;
     assetMarkers := assetMarkers s; generatedResults := generatedResults s;
     isLoading := isLoading s; error := error s; numVariations := numVariations s;
     activeResultId := activeResultId s; lastColorIndex := lastColorIndex s; zoom := zoom s;
     canvasOffset := v; isCompareMode := isCompareMode s; imageContext := imageContext s;
     isSegmenting := isSegmenting s; segmentationData := segmentationData s;
     hoveredMaskLabel := hoveredMaskLabel s; sliderPosition := sliderPosition s;
     isSliderDragging := isSliderDragging s; history := history s; uuidSeed := uuidSeed s |}.

Definition set_isCompareMode (v : bool) (s : AppState) : AppState :=
  {| baseImage := baseImage s; insertImages := insertImages s; markers := markers s;
     assetMarkers := assetMarkers s; generatedResults := generatedResults s;
     isLoading := isLoading s; error := error s; numVariations := numVariations s;
     activeResultId := activeResultId s; lastColorIndex := lastColorIndex s; zoom := zoom s;
     canvasOffset := canvasOffset s; isCompareMode := v; imageContext := imageContext s;
     isSegmenting := isSegmenting s; segmentationData := segmentationData s;
     hoveredMaskLabel := hoveredMaskLabel s; sliderPosition := sliderPosition s;
     isSliderDragging := isSliderDragging s; history := history s; uuidSeed := uuidSeed s |}.

Definition set_imageContext (v : option string) (s : AppState) : AppState :=
  {| baseImage := baseImage s; insertImages := insertImages s; markers := markers s;
     assetMarkers := assetMarkers s; generatedResults := generatedResults s;
     isLoading := isLoading s; error := error s; numVariations := numVariations s;
     activeResultId := activeResultId s; lastColorIndex := lastColorIndex s; zoom := zoom s;
     canvasOffset := canvasOffset s; isCompareMode := isCompareMode s; imageContext := v;
     isSegmenting := isSegmenting s; segmentationData := segmentationData s;
     hoveredMaskLabel := hoveredMaskLabel s; sliderPosition := sliderPosition s;
     isSliderDragging := isSliderDragging s; history := history s; uuidSeed := uuidSeed s |}.

Definition set_isSegmenting (v : bool) (s : AppState) : AppState :=
  {| baseImage := baseImage s; insertImages := insertImages s; markers := markers s;
     assetMarkers := assetMarkers s; generatedResults := generatedResults s;
     isLoading := isLoading s; error := error s; numVariations := numVariations s;
     activeResultId := activeResultId s; lastColorIndex := lastColorIndex s; zoom := zoom s;
     canvasOffset := canvasOffset s; isCompareMode := isCompareMode s;
     imageContext := imageContext s; isSegmenting := v;
     segmentationData := segmentationData s; hoveredMaskLabel := hoveredMaskLabel s;
     sliderPosition := sliderPosition s; isSliderDragging := isSliderDragging s;
     history := history s; uuidSeed := uuidSeed s |}.

Definition set_segmentationData (v : option (list SegmentationMask)) (s : AppState) : AppState :=
  {| baseImage := baseImage s; insertImages := insertImages s; markers := markers s;
     assetMarkers := assetMarkers s; generatedResults := generatedResults s;
     isLoading := isLoading s; error := error s; numVariations := numVariations s;
     activeResultId := activeResultId s; lastColorIndex := lastColorIndex s; zoom := zoom s;
     canvasOffset := canvasOffset s; isCompareMode := isCompareMode s;
     imageContext := imageContext s; isSegmenting := isSegmenting s; segmentationData := v;
     hoveredMaskLabel := hoveredMaskLabel s; sliderPosition := sliderPosition s;
     isSliderDragging := isSliderDragging s; history := history s; uuidSeed := uuidSeed s |}.

Definition set_hoveredMaskLabel (v : option string) (s : AppState) : AppState :=
  {| baseImage := baseImage s; insertImages := insertImages s; markers := markers s;
     assetMarkers := assetMarkers s; generatedResults := generatedResults s;
     isLoading := isLoading s; error := error s; numVariations := numVariations s;
     activeResultId := activeResultId s; lastColorIndex := lastColorIndex s; zoom := zoom s;
     canvasOffset := canvasOffset s; isCompareMode := isCompareMode s;
     imageContext := imageContext s; isSegmenting := isSegmenting s;
     segmentationData := segmentationData s; hoveredMaskLabel := v;
     sliderPosition := sliderPosition s; isSliderDragging := isSliderDragging s;
     history := history s; uuidSeed := uuidSeed s |}.

Definition set_sliderPosition (v : num) (s : AppState) : AppState :=
  {| baseImage := baseImage s; insertImages := insertImages s; markers := markers s;
     assetMarkers := assetMarkers s; generatedResults := generatedResults s;
     isLoading := isLoading s; error := error s; numVariations := numVariations s;
     activeResultId := activeResultId s; lastColorIndex := lastColorIndex s; zoom := zoom s;
     canvasOffset := canvasOffset s; isCompareMode := isCompareMode s;
     imageContext := imageContext s; isSegmenting := isSegmenting s;
     segmentationData := segmentationData s; hoveredMaskLabel := hoveredMaskLabel s;
     sliderPosition := v; isSliderDragging := isSliderDragging s; history := history s;
     uuidSeed := uuidSeed s |}.

Definition set_isSliderDragging (v : bool) (s : AppState) : AppState :=
  {| baseImage := baseImage s; insertImages := insertImages s; markers := markers s;
     assetMarkers := assetMarkers s; generatedResults := generatedResults s;
     isLoading := isLoading s; error := error s; numVariations := numVariations s;
     activeResultId := activeResultId s; lastColorIndex := lastColorIndex s; zoom := zoom s;
     canvasOffset := canvasOffset s; isCompareMode := isCompareMode s;
     imageContext := imageContext s; isSegmenting := isSegmenting s;
     segmentationData := segmentationData s; hoveredMaskLabel := hoveredMaskLabel s;
     sliderPosition := sliderPosition s; isSliderDragging := v; history := history s;
     uuidSeed := uuidSeed s |}.

Definition set_history (v : list EditorState) (s : AppState) : AppState :=
  {| baseImage := baseImage s; insertImages := insertImages s; markers := markers s;
     assetMarkers := assetMarkers s; generatedResults := generatedResults s;
     isLoading := isLoading s; error := error s; numVariations := numVariations s;
     activeResultId := activeResultId s; lastColorIndex := lastColorIndex s; zoom := zoom s;
     canvasOffset := canvasOffset s; isCompareMode := isCompareMode s;
     imageContext := imageContext s; isSegmenting := isSegmenting s;
     segmentationData := segmentationData s; hoveredMaskLabel := hoveredMaskLabel s;
     sliderPosition := sliderPosition s; isSliderDragging := isSliderDragging s;
     history := v; uuidSeed := uuidSeed s |}.

Definition set_uuidSeed (v : nat) (s : AppState) : AppState :=
  {| baseImage := baseImage s; insertImages := insertImages s; markers := markers s;
     assetMarkers := assetMarkers s; generatedResults := generatedResults s;
     isLoading := isLoading s; error := error s; numVariations := numVariations s;
     activeResultId := activeResultId s; lastColorIndex := lastColorIndex s; zoom := zoom s;
     canvasOffset := canvasOffset s; isCompareMode := isCompareMode s;
     imageContext := imageContext s; isSegmenting := isSegmenting s;
     segmentationData := segmentationData s; hoveredMaskLabel := hoveredMaskLabel s;
     sliderPosition := sliderPosition s; isSliderDragging := isSliderDragging s;
     history := history s; uuidSeed := v |}.

Definition initialState : AppState :=
  {| baseImage := None; insertImages := []; markers := []; assetMarkers := [];
     generatedResults := []; isLoading := false; error := None; numVariations := 1;
     activeResultId := None; lastColorIndex := 0; zoom := Fin 1;
     canvasOffset := {| px := Fin 0; py := Fin 0 |}; isCompareMode := false;
     imageContext := None; isSegmenting := false; segmentationData := None;
     hoveredMaskLabel := None; sliderPosition := Fin (1 # 2); isSliderDragging := false;
     history := []; uuidSeed := 0 |}.

(** [crypto.randomUUID()]: a fresh identifier on every call. *)
Definition randomUUID (s : AppState) : string * AppState :=
  ("uuid-" ++ show_nat (uuidSeed s), set_uuidSeed (S (uuidSeed s)) s).

(** The bounding rectangle of the canvas container, when it is mounted. *)
Record Rect := { left : num; top : num; width : num; height : num }.

(** A [File] with what reading it as a data URL yields. *)
Record File := { f_name : string; f_read : outcome string }.

(** A promise with the instant it settles at. *)
Record settled (T : Type) := { settledAt : nat; result : outcome T }.
Arguments settledAt {T} _.
Arguments result {T} _.

(** [Promise.all]: the values in order when every promise resolves, and
    otherwise the reason of the promise that rejects first. *)
Fixpoint first_rejected {T} (ps : list (settled T)) : option (nat * string) :=
  match ps with
  | [] => None
  | p :: ps' =>
      match result p, first_rejected ps' with
      | Rejected m, Some (t, m') =>
          if (settledAt p <=? t)%nat then Some (settledAt p, m) else Some (t, m')
      | Rejected m, None => Some (settledAt p, m)
      | Resolved _, r => r
      end
  end.

Fixpoint resolved_values {T} (ps : list (settled T)) : list T :=
  match ps with
  | [] => []
  | p :: ps' =>
      match result p with
      | Resolved v => v :: resolved_values ps'
      | Rejected _ => resolved_values ps'
      end
  end.

Definition promise_all {T} (ps : list (settled T)) : outcome (list T) :=
  match first_rejected ps with
  | Some (_, m) => Rejected m
  | None => Resolved (resolved_values ps)
  end.

(** [err.message || fallback] *)
Definition message_or (m fallback : string) : string :=
  if String.eqb m "" then fallback else m.

(** In every handler [s0] is the state the handler closes over and [s] the
    state its updates have produced so far. *)
Definition saveStateToHistory (s0 s : AppState) : AppState :=
  set_history (history s ++ [{| es_baseImage := baseImage s0;
                                es_insertImages := insertImages s0;
                                es_markers := markers s0;
                                es_assetMarkers := assetMarkers s0 |}])%list s.

Definition handleUndo (s0 : AppState) : AppState :=
  match rev (history s0) with
  | [] => s0
  | prevState :: _ =>
      let s := set_baseImage (es_baseImage prevState) s0 in
      let s := set_insertImages (es_insertImages prevState) s in
      let s := set_markers (es_markers prevState) s in
      let s := set_assetMarkers (es_assetMarkers prevState) s in
      let s := set_history (removelast (history s)) s in
      let s := set_generatedResults [] s in
      let s := set_activeResultId None s in
      let s := set_error None s in
      let s := set_isCompareMode false s in
      let s := set_segmentationData None s in
      set_hoveredMaskLabel None s
  end.

Definition handleSliderPositionChange (position : num) (s : AppState) : AppState :=
  set_sliderPosition (max (Fin 0) (min (Fin 1) position)) s.

Definition handleSliderDragEnd (s : AppState) : AppState := set_isSliderDragging false s.

(** [newZoom === zoom] *)
Definition same_num (a b : num) : bool :=
  match a, b with
  | Fin p, Fin q => Qeq_bool p q
  | PInf, PInf | NInf, NInf => true
  | _, _ => false
  end.

(** The update [handleZoomIn] and [handleZoomOut] both end with, about the
    centre [(cx, cy)] of the container. *)
Definition zoomAbout (cx cy newZoom : num) (s0 : AppState) : AppState :=
  let newOffsetX := (cx - (newZoom / zoom s0) * (cx - px (canvasOffset s0)))%num in
  let newOffsetY := (cy - (newZoom / zoom s0) * (cy - py (canvasOffset s0)))%num in
  set_canvasOffset {| px := newOffsetX; py := newOffsetY |} (set_zoom newZoom s0).

Definition handleZoomIn (canvasRef : option Rect) (s0 : AppState) : AppState :=
  match canvasRef with
  | None => s0
  | Some canvasRect =>
      let newZoom := min (zoom s0 * ZOOM_STEP)%num MAX_ZOOM in
      if same_num newZoom (zoom s0) then s0
      else zoomAbout (width canvasRect / Fin 2)%num (height canvasRect / Fin 2)%num newZoom s0
  end.

Definition handleZoomOut (canvasRef : option Rect) (s0 : AppState) : AppState :=
  match canvasRef with
  | None => s0
  | Some canvasRect =>
      let newZoom := max (zoom s0 / ZOOM_STEP)%num MIN_ZOOM in
      if same_num newZoom (zoom s0) then s0
      else zoomAbout (width canvasRect / Fin 2)%num (height canvasRect / Fin 2)%num newZoom s0
  end.

Definition handleResetZoom (s : AppState) : AppState :=
  set_canvasOffset {| px := Fin 0; py := Fin 0 |} (set_zoom (Fin 1) s).

Definition getNextColor (s0 s : AppState) : option string * AppState :=
  let color := nth_error MARKER_COLORS (lastColorIndex s0) in
  (color, set_lastColorIndex ((lastColorIndex s + 1) mod List.length MARKER_COLORS)%nat s).

Definition loadFailedMessage : string :=
  "Не удалось загрузить или проанализировать изображение.".

Definition handleBaseImageSet (describeImage : string -> outcome string) (file : File)
           (s0 : AppState) : AppState :=
  let s := match baseImage s0 with
           | Some _ => saveStateToHistory s0 s0
           | None => s0
           end in
  let s := set_isLoading true s in
  let s := set_baseImage None s in
  let s := set_generatedResults [] s in
  let s := set_activeResultId None s in
  let s := set_markers [] s in
  let s := set_assetMarkers [] s in
  let s := set_isCompareMode false s in
  let s := set_imageContext None s in
  let s := set_segmentationData None s in
  let s := set_hoveredMaskLabel None s in
  let s := set_error None s in
  let s := handleResetZoom s in
  let failed s := set_baseImage None (set_error (Some loadFailedMessage) s) in
  let s :=
    match f_read file with
    | Resolved dataUrl =>
        let (id, s) := randomUUID s in
        let s := set_baseImage (Some {| if_id := id; if_dataUrl := dataUrl |}) s in
        match describeImage dataUrl with
        | Resolved context => set_imageContext (Some context) s
        | Rejected _ => failed s
        end
    | Rejected _ => failed s
    end in
  set_isLoading false s.

(** [Promise.all(files.map(fileToImageFile))]: every file read, or none. *)
Fixpoint readAll (files : list File) : option (list string) :=
  match files with
  | [] => Some []
  | f :: files' =>
      match f_read f, readAll files' with
      | Resolved dataUrl, Some rest => Some (dataUrl :: rest)
      | _, _ => None
      end
  end.

Fixpoint toImageFiles (dataUrls : list string) (s : AppState) : list ImageFile * AppState :=
  match dataUrls with
  | [] => ([], s)
  | dataUrl :: rest =>
      let (id, s1) := randomUUID s in
      let (out, s2) := toImageFiles rest s1 in
      ({| if_id := id; if_dataUrl := dataUrl |} :: out, s2)
  end.

Definition handleInsertImageAdd (files : list File) (s0 : AppState) : AppState :=
  let s := saveStateToHistory s0 s0 in
  match readAll files with
  | Some dataUrls =>
      let (imageFiles, s) := toImageFiles dataUrls s in
      set_insertImages (insertImages s ++ imageFiles)%list s
  | None => set_error (Some "Failed to load insert image(s).") s
  end.

Definition handleClearInsertImages (s0 : AppState) : AppState :=
  let s := match insertImages s0, assetMarkers s0 with
           | [], [] => s0
           | _, _ => saveStateToHistory s0 s0
           end in
  set_assetMarkers [] (set_insertImages [] s).

(** [startLoading], up to the message shown while waiting. *)
Definition startLoading (s : AppState) : AppState :=
  set_error None (set_isLoading true s).

(** [results.flat().map(res => ({ ...res, id: crypto.randomUUID() }))] *)
Fixpoint withFreshIds (rs : list GeneratedResult) (s : AppState)
  : list GeneratedResult * AppState :=
  match rs with
  | [] => ([], s)
  | r :: rs' =>
      let (id, s1) := randomUUID s in
      let (out, s2) := withFreshIds rs' s1 in
      ({| gr_id := id; gr_image := gr_image r; gr_text := gr_text r |} :: out, s2)
  end.

(** The [numVariations] parallel calls; [call i] is the [i]-th one, already
    wrapped by the retry helper. *)
Definition variations (call : nat -> settled (list GeneratedResult)) (s0 : AppState)
  : list (settled (list GeneratedResult)) :=
  map call (seq 0 (numVariations s0)).

Definition generationFailed : string :=
  "Generation failed. The model couldn't produce a valid result.".

(** The prompt, and with it the optional regeneration prompt, goes to the
    collaborator only; [call] is what the collaborator answers. *)
Definition handleAssetGeneration (call : nat -> settled (list GeneratedResult))
           (assetId : string) (coords : DropCoordinates) (targetObjectLabel : option string)
           (isRegeneration : bool) (s0 : AppState) : AppState :=
  match baseImage s0, find (fun img => String.eqb (if_id img) assetId) (insertImages s0) with
  | Some _, Some _ =>
      let s := startLoading s0 in
      let s := set_generatedResults [] s in
      let s :=
        match promise_all (variations call s0) with
        | Resolved results =>
            let (successfulResults, s) := withFreshIds (List.concat results) s in
            match successfulResults with
            | [] => set_error (Some generationFailed) s
            | firstResult :: _ =>
                let s := set_generatedResults successfulResults s in
                let s := set_activeResultId (Some (gr_id firstResult)) s in
                if negb isRegeneration then
                  let s := saveStateToHistory s0 s in
                  let (id, s) := randomUUID s in
                  let (color, s) := getNextColor s0 s in
                  let newMarker :=
                    {| am_id := id; am_assetId := assetId; am_x := dc_x coords;
                       am_y := dc_y coords; am_color := color; am_prompt := Some "";
                       am_targetObjectLabel := targetObjectLabel |} in
                  set_assetMarkers (assetMarkers s ++ [newMarker])%list s
                else s
            end
        | Rejected m =>
            set_error
              (Some (message_or m "An unexpected error occurred during asset generation.")) s
        end in
      set_isLoading false s
  | _, _ => s0
  end.

Definition handleAssetRegeneration (call : nat -> settled (list GeneratedResult))
           (markerId : string) (s0 : AppState) : AppState :=
  match find (fun m => String.eqb (am_id m) markerId) (assetMarkers s0) with
  | None => s0
  | Some marker =>
      handleAssetGeneration call (am_assetId marker)
        {| dc_x := am_x marker; dc_y := am_y marker |} (am_targetObjectLabel marker) true s0
  end.

Definition handleMarkerGeneration (call : nat -> settled (list GeneratedResult))
           (s0 : AppState) : AppState :=
  match baseImage s0 with
  | None => s0
  | Some _ =>
      let s := startLoading s0 in
      let s := set_generatedResults [] s in
      let s :=
        match promise_all (variations call s0) with
        | Resolved results =>
            let (successfulResults, s) := withFreshIds (List.concat results) s in
            match successfulResults with
            | [] => set_error (Some generationFailed) s
            | firstResult :: _ =>
                set_activeResultId (Some (gr_id firstResult))
                  (set_generatedResults successfulResults s)
            end
        | Rejected m =>
            set_error
              (Some (message_or m "An unexpected error occurred during image generation.")) s
        end in
      set_isLoading false s
  end.

Definition sceneFailed : string :=
  "Scene generation failed. The model couldn't produce a valid result.".

(** The three branches of the source differ in the collaborator they call
    and in the prompt; [call] stands for the one that applies. *)
Definition handleSceneGeneration (call : nat -> settled (list GeneratedResult))
           (s0 : AppState) : AppState :=
  match baseImage s0, insertImages s0 with
  | None, [] =>
      set_error (Some "A base image or at least one asset is required for Generation Mode.") s0
  | _, _ =>
      let s := saveStateToHistory s0 s0 in
      let s := startLoading s in
      let s := set_generatedResults [] s in
      let s :=
        match promise_all (variations call s0) with
        | Resolved results =>
            let (successfulResults, s) := withFreshIds (List.concat results) s in
            match successfulResults with
            | [] => set_error (Some sceneFailed) s
            | firstResult :: _ =>
                let s := set_generatedResults successfulResults s in
                let s := set_activeResultId (Some (gr_id firstResult)) s in
                set_assetMarkers [] (set_markers [] s)
            end
        | Rejected m =>
            set_error
              (Some (message_or m "An unexpected error occurred during scene generation.")) s
        end in
      set_isLoading false s
  end.

Definition is_active (activeResultId : option string) (r : GeneratedResult) : bool :=
  match activeResultId with
  | Some a => String.eqb (gr_id r) a
  | None => false
  end.

Definition handleSaveChanges (s0 : AppState) : AppState :=
  let s := saveStateToHistory s0 s0 in
  match find (is_active (activeResultId s0)) (generatedResults s0) with
  | Some resultToSave =>
      let (id, s) := randomUUID s in
      let s := set_baseImage (Some {| if_id := id; if_dataUrl := gr_image resultToSave |}) s in
      let s := set_generatedResults [] s in
      let s := set_activeResultId None s in
      let s := set_assetMarkers [] s in
      let s := set_markers [] s in
      let s := set_error None s in
      let s := set_isCompareMode false s in
      let s := set_sliderPosition (Fin (1 # 2)) s in
      set_segmentationData None s
  | None => set_error (Some "No result selected to save.") s
  end.

Definition handleAddMarker (coords : DropCoordinates) (targetObjectLabel : option string)
           (s0 : AppState) : AppState :=
  let s := saveStateToHistory s0 s0 in
  let (id, s) := randomUUID s in
  let newMarker :=
    {| em_id := id; em_x := dc_x coords; em_y := dc_y coords; em_prompt := "";
       em_targetObjectLabel := targetObjectLabel |} in
  set_markers (markers s ++ [newMarker])%list s.

Definition or_else {A} (o : option A) (d : A) : A :=
  match o with Some v => v | None => d end.

(** [{ ...m, ...newProps }] *)
Definition mergeEditMarker (m : EditMarker) (newProps : PartialEditMarker) : EditMarker :=
  {| em_id := or_else (pem_id newProps) (em_id m);
     em_x := or_else (pem_x newProps) (em_x m);
     em_y := or_else (pem_y newProps) (em_y m);
     em_prompt := or_else (pem_prompt newProps) (em_prompt m);
     em_targetObjectLabel :=
       or_else (pem_targetObjectLabel newProps) (em_targetObjectLabel m) |}.

Definition mergeAssetMarker (m : AssetMarker) (newProps : PartialAssetMarker) : AssetMarker :=
  {| am_id := or_else (pam_id newProps) (am_id m);
     am_assetId := or_else (pam_assetId newProps) (am_assetId m);
     am_x := or_else (pam_x newProps) (am_x m);
     am_y := or_else (pam_y newProps) (am_y m);
     am_color := or_else (pam_color newProps) (am_color m);
     am_prompt := or_else (pam_prompt newProps) (am_prompt m);
     am_targetObjectLabel :=
       or_else (pam_targetObjectLabel newProps) (am_targetObjectLabel m) |}.

Definition handleUpdateMarker (id : string) (newProps : PartialEditMarker) (s : AppState)
  : AppState :=
  set_markers
    (map (fun m => if String.eqb (em_id m) id then mergeEditMarker m newProps else m)
         (markers s)) s.

Definition handleRemoveMarker (id : string) (s0 : AppState) : AppState :=
  let s := saveStateToHistory s0 s0 in
  set_markers (filter (fun m => negb (String.eqb (em_id m) id)) (markers s)) s.

Definition handleUpdateAssetMarker (id : string) (newProps : PartialAssetMarker)
           (s : AppState) : AppState :=
  set_assetMarkers
    (map (fun m => if String.eqb (am_id m) id then mergeAssetMarker m newProps else m)
         (assetMarkers s)) s.

Definition handleRemoveAssetMarker (id : string) (s0 : AppState) : AppState :=
  let s := saveStateToHistory s0 s0 in
  set_assetMarkers (filter (fun m => negb (String.eqb (am_id m) id)) (assetMarkers s)) s.

(** [masks.map((mask, index) => ({ ...mask, color: MASK_COLORS[index % 8] }))] *)
Fixpoint coloredMasksFrom (index : nat) (masks : list (string * string))
  : list SegmentationMask :=
  match masks with
  | [] => []
  | (label, mask) :: masks' =>
      {| sm_label := label; sm_mask := mask;
         sm_color := nth (index mod List.length MASK_COLORS) MASK_COLORS "" |}
        :: coloredMasksFrom (S index) masks'
  end.

(** [segmentImage] answers with the labelled masks or fails. *)
Definition handleSegmentImage (segmentImage : string -> outcome (list (string * string)))
           (s0 : AppState) : AppState :=
  match baseImage s0 with
  | None => s0
  | Some base =>
      let s := set_isSegmenting true s0 in
      let s := set_error None s in
      let s := set_segmentationData None s in
      let s :=
        match segmentImage (if_dataUrl base) with
        | Resolved masks => set_segmentationData (Some (coloredMasksFrom 0 masks)) s
        | Rejected m => set_error (Some (message_or m "Failed to segment image.")) s
        end in
      set_isSegmenting false s
  end.

(** [displayImage]: the active generated result when there is one, the base
    image otherwise. *)
Definition displayImage (s : AppState) : option ImageFile :=
  match find (is_active (activeResultId s)) (generatedResults s) with
  | Some activeResult =>
      Some {| if_id := gr_id activeResult; if_dataUrl := gr_image activeResult |}
  | None => baseImage s
  end.

End App.

(** ** components/MainCanvas.tsx *)
Module MainCanvas.
Import App.

Record Geom := { g_x : num; g_y : num; g_width : num; g_height : num }.

Inductive markerType := edit | asset.
Record DraggedMarker := { dm_id : string; dm_type : markerType }.

(** *** The hidden hit canvas *)

(** A pixel, channels in 0..255. *)
Record RGBA := { red : Z; green : Z; blue : Z; alpha : Z }.

Definition transparent : RGBA := {| red := 0; green := 0; blue := 0; alpha := 0 |}.

(** The bitmap of a canvas as the 2D context keeps it: [hc_data] holds the
    colour of each pixel premultiplied by its alpha, 8 bits a channel. *)
Record HitCanvas := { hc_width : Z; hc_height : Z; hc_data : Z -> Z -> RGBA }.

(** A canvas element starts 300 by 150 and transparent. *)
Definition newCanvas : HitCanvas :=
  {| hc_width := 300; hc_height := 150; hc_data := fun _ _ => transparent |}.

(** [ctx.clearRect(0, 0, width, height)] *)
Definition clearRect (hc : HitCanvas) : HitCanvas :=
  {| hc_width := hc_width hc; hc_height := hc_height hc;
     hc_data := fun _ _ => transparent |}.

(** Assigning [width] and [height] resizes and clears the canvas. *)
Definition resize (w h : Z) : HitCanvas :=
  {| hc_width := w; hc_height := h; hc_data := fun _ _ => transparent |}.

(** [n / d] rounded to the nearest integer, for [n >= 0] and [d > 0]. *)
Definition div_round (n d : Z) : Z := ((2 * n + d) / (2 * d))%Z.

(** Reading a stored pixel back: the colour is divided by the alpha it was
    premultiplied with, which loses precision when the alpha is below 255. *)
Definition unpremultiply (p : RGBA) : RGBA :=
  if (alpha p =? 0)%Z then transparent
  else {| red := Z.min 255 (div_round (red p * 255) (alpha p));
          green := Z.min 255 (div_round (green p * 255) (alpha p));
          blue := Z.min 255 (div_round (blue p * 255) (alpha p));
          alpha := alpha p |}.

(** [ctx.getImageData(x, y, 1, 1).data] for arguments already converted:
    transparent black outside the canvas. *)
Definition getImageData (hc : HitCanvas) (x y : Z) : RGBA :=
  if ((0 <=? x) && (x <? hc_width hc) && (0 <=? y) && (y <? hc_height hc))%Z
  then unpremultiply (hc_data hc x y) else transparent.

(** [rgb(0, 0, b)]: a channel above 255 is clamped. *)
Definition rgb00 (b : Z) : RGBA :=
  {| red := 0; green := 0; blue := Z.min b 255; alpha := 255 |}.

(** [fillRect(0, 0, width, height)] under [source-over] with an opaque fill
    style: every pixel of the canvas becomes the fill colour (premultiplied by
    an alpha of 255, it is stored as it is). *)
Definition fillRect (fillStyle : RGBA) (hc : HitCanvas) : HitCanvas :=
  {| hc_width := hc_width hc; hc_height := hc_height hc;
     hc_data := fun _ _ => fillStyle |}.

(** [drawImage(img, 0, 0, width, height)] under [destination-in]: every
    stored channel, alpha included, is scaled by the alpha of the image and
    rounded.  [src x y] is the alpha, in 0..255, of the image drawn at the
    size of the canvas, at pixel [(x, y)]. *)
Definition drawImage_destination_in (src : Z -> Z -> Z) (hc : HitCanvas) : HitCanvas :=
  {| hc_width := hc_width hc; hc_height := hc_height hc;
     hc_data := fun x y =>
       let d := hc_data hc x y in
       {| red := div_round (red d * src x y) 255;
          green := div_round (green d * src x y) 255;
          blue := div_round (blue d * src x y) 255;
          alpha := div_round (alpha d * src x y) 255 |} |}.

(** What [getLabelFromHitMap] does: it returns a label or [undefined], or
    [getImageData] throws a [TypeError] on an argument that is not a finite
    number in the range of a [long]. *)
Inductive lookup : Type :=
| Found (label : option string)
| Thrown.

Definition getLabelFromHitMap (hitCanvas : option HitCanvas)
           (segmentationData : option (list SegmentationMask)) (coords : DropCoordinates)
  : lookup :=
  match hitCanvas, segmentationData with
  | Some hc, Some seg =>
      let x := floor (dc_x coords * of_Z (hc_width hc))%num in
      let y := floor (dc_y coords * of_Z (hc_height hc))%num in
      match enforce_long x, enforce_long y with
      | Some sx, Some sy =>
          let pixel := getImageData hc sx sy in
          let index := (blue pixel - 1)%Z in
          if ((0 <=? index) && (index <? Z.of_nat (List.length seg)))%Z
          then Found (option_map sm_label (nth_error seg (Z.to_nat index)))
          else Found None
      | _, _ => Thrown
      end
  | _, _ => Found None
  end.

(** The image element: its natural size, 0 by 0 until it has loaded. *)
Record Img := { naturalWidth : Z; naturalHeight : Z }.

Section HitMap.
(** Decoding of a mask: [decodeMask mask w h x y] is the alpha at pixel
    [(x, y)] of the PNG [mask] drawn at size [w] by [h]. *)
Variable decodeMask : string -> Z -> Z -> Z -> Z -> Z.

(** The body of the effect up to the point where the mask images start
    loading. *)
Definition hitMapEffect (hitCanvas : option HitCanvas) (img : option Img)
           (segmentationData : option (list SegmentationMask)) : option HitCanvas :=
  match hitCanvas with
  | None => None
  | Some hc =>
      match img, segmentationData with
      | Some i, Some _ =>
          if ((naturalWidth i =? 0) || (naturalHeight i =? 0))%Z
          then Some (clearRect hc)
          else Some (clearRect (resize (naturalWidth i) (naturalHeight i)))
      | _, _ => Some (clearRect hc)
      end
  end.

(** [maskImg.onload] of the mask at [index]. *)
Definition maskOnload (index : nat) (maskData : SegmentationMask) (hc : HitCanvas)
  : HitCanvas :=
  if ((hc_width hc =? 0) || (hc_height hc =? 0))%Z then hc
  else
    drawImage_destination_in
      (decodeMask (sm_mask maskData) (hc_width hc) (hc_height hc))
      (fillRect (rgb00 (Z.of_nat index + 1)) hc).

(** The canvas once the mask images listed in [loads] have fired [onload],
    in that order. *)
Definition afterLoads (segmentationData : list SegmentationMask) (loads : list nat)
           (hc : HitCanvas) : HitCanvas :=
  fold_left
    (fun hc index =>
       match nth_error segmentationData index with
       | Some maskData => maskOnload index maskData hc
       | None => hc
       end) loads hc.

(** The hit map built for an image and a mask set whose images load in
    the order [loads]. *)
Definition buildHitMap (img : Img) (segmentationData : list SegmentationMask)
           (loads : list nat) : option HitCanvas :=
  option_map (afterLoads segmentationData loads)
             (hitMapEffect (Some newCanvas) (Some img) (Some segmentationData)).
End HitMap.

(** *** The component *)

(** The container element: its bounding rectangle and its client size. *)
Record Container := { rect : Rect; clientWidth : num; clientHeight : num }.

Record Dom := { canvasRef : option Container; imageRef : option Img }.

(** The [useState] cells and the refs of [MainCanvas]; [hitCanvas] is the
    element behind [hitCanvasRef]. *)
Record CanvasState := {
  isDraggingFile : bool;
  dropIndicator : option DropCoordinates;
  draggedMarker : option DraggedMarker;
  isAssetDragOver : bool;
  renderedImageGeom : Geom;
  isPanning : bool;
  panStart : Point;
  mouseDownPos : Point;
  didDrag : bool;
  hitCanvas : option HitCanvas;
  cursorPosition : Point
}.

Definition set_isDraggingFile (v : bool) (s : CanvasState) : CanvasState :=
  {| isDraggingFile := v; dropIndicator := dropIndicator s; draggedMarker := draggedMarker s;
     isAssetDragOver := isAssetDragOver s; renderedImageGeom := renderedImageGeom s;
     isPanning := isPanning s; panStart := panStart s; mouseDownPos := mouseDownPos s;
     didDrag := didDrag s; hitCanvas := hitCanvas s; cursorPosition := cursorPosition s |}.

Definition set_dropIndicator (v : option DropCoordinates) (s : CanvasState) : CanvasState :=
  {| isDraggingFile := isDraggingFile s; dropIndicator := v;
     draggedMarker := draggedMarker s; isAssetDragOver := isAssetDragOver s;
     renderedImageGeom := renderedImageGeom s; isPanning := isPanning s;
     panStart := panStart s; mouseDownPos := mouseDownPos s; didDrag := didDrag s;
     hitCanvas := hitCanvas s; cursorPosition := cursorPosition s |}.

Definition set_draggedMarker (v : option DraggedMarker) (s : CanvasState) : CanvasState :=
  {| isDraggingFile := isDraggingFile s; dropIndicator := dropIndicator s;
     draggedMarker := v; isAssetDragOver := isAssetDragOver s;
     renderedImageGeom := renderedImageGeom s; isPanning := isPanning s;
     panStart := panStart s; mouseDownPos := mouseDownPos s; didDrag := didDrag s;
     hitCanvas := hitCanvas s; cursorPosition := cursorPosition s |}.

Definition set_isAssetDragOver (v : bool) (s : CanvasState) : CanvasState :=
  {| isDraggingFile := isDraggingFile s; dropIndicator := dropIndicator s;
     draggedMarker := draggedMarker s; isAssetDragOver := v;
     renderedImageGeom := renderedImageGeom s; isPanning := isPanning s;
     panStart := panStart s; mouseDownPos := mouseDownPos s; didDrag := didDrag s;
     hitCanvas := hitCanvas s; cursorPosition := cursorPosition s |}.

Definition set_renderedImageGeom (v : Geom) (s : CanvasState) : CanvasState :=
  {| isDraggingFile := isDraggingFile s; dropIndicator := dropIndicator s;
     draggedMarker := draggedMarker s; isAssetDragOver := isAssetDragOver s;
     renderedImageGeom := v; isPanning := isPanning s; panStart := panStart s;
     mouseDownPos := mouseDownPos s; didDrag := didDrag s; hitCanvas := hitCanvas s;
     cursorPosition := cursorPosition s |}.

Definition set_isPanning (v : bool) (s : CanvasState) : CanvasState :=
  {| isDraggingFile := isDraggingFile s; dropIndicator := dropIndicator s;
     draggedMarker := draggedMarker s; isAssetDragOver := isAssetDragOver s;
     renderedImageGeom := renderedImageGeom s; isPanning := v; panStart := panStart s;
     mouseDownPos := mouseDownPos s; didDrag := didDrag s; hitCanvas := hitCanvas s;
     cursorPosition := cursorPosition s |}.

Definition set_panStart (v : Point) (s : CanvasState) : CanvasState :=
  {| isDraggingFile := isDraggingFile s; dropIndicator := dropIndicator s;
     draggedMarker := draggedMarker s; isAssetDragOver := isAssetDragOver s;
     renderedImageGeom := renderedImageGeom s; isPanning := isPanning s; panStart := v;
     mouseDownPos := mouseDownPos s; didDrag := didDrag s; hitCanvas := hitCanvas s;
     cursorPosition := cursorPosition s |}.

Definition set_mouseDownPos (v : Point) (s : CanvasState) : CanvasState :=
  {| isDraggingFile := isDraggingFile s; dropIndicator := dropIndicator s;
     draggedMarker := draggedMarker s; isAssetDragOver := isAssetDragOver s;
     renderedImageGeom := renderedImageGeom s; isPanning := isPanning s;
     panStart := panStart s; mouseDownPos := v; didDrag := didDrag s;
     hitCanvas := hitCanvas s; cursorPosition := cursorPosition s |}.

Definition set_didDrag (v : bool) (s : CanvasState) : CanvasState :=
  {| isDraggingFile := isDraggingFile s; dropIndicator := dropIndicator s;
     draggedMarker := draggedMarker s; isAssetDragOver := isAssetDragOver s;
     renderedImageGeom := renderedImageGeom s; isPanning := isPanning s;
     panStart := panStart s; mouseDownPos := mouseDownPos s; didDrag := v;
     hitCanvas := hitCanvas s; cursorPosition := cursorPosition s |}.

Definition set_hitCanvas (v : option HitCanvas) (s : CanvasState) : CanvasState :=
  {| isDraggingFile := isDraggingFile s; dropIndicator := dropIndicator s;
     draggedMarker := draggedMarker s; isAssetDragOver := isAssetDragOver s;
     renderedImageGeom := renderedImageGeom s; isPanning := isPanning s;
     panStart := panStart s; mouseDownPos := mouseDownPos s; didDrag := didDrag s;
     hitCanvas := v; cursorPosition := cursorPosition s |}.

Definition set_cursorPosition (v : Point) (s : CanvasState) : CanvasState :=
  {| isDraggingFile := isDraggingFile s; dropIndicator := dropIndicator s;
     draggedMarker := draggedMarker s; isAssetDragOver := isAssetDragOver s;
     renderedImageGeom := renderedImageGeom s; isPanning := isPanning s;
     panStart := panStart s; mouseDownPos := mouseDownPos s; didDrag := didDrag s;
     hitCanvas := hitCanvas s; cursorPosition := v |}.

Definition initialCanvas : CanvasState :=
  {| isDraggingFile := false; dropIndicator := None; draggedMarker := None;
     isAssetDragOver := false;
     renderedImageGeom :=
       {| g_x := Fin 0; g_y := Fin 0; g_width := Fin 1; g_height := Fin 1 |};
     isPanning := false; panStart := {| px := Fin 0; py := Fin 0 |};
     mouseDownPos := {| px := Fin 0; py := Fin 0 |}; didDrag := false;
     hitCanvas := Some newCanvas; cursorPosition := {| px := Fin 0; py := Fin 0 |} |}.

Definition calculateGeom (dom : Dom) (cs : CanvasState) : CanvasState :=
  match imageRef dom, canvasRef dom with
  | Some img, Some container =>
      let containerW := clientWidth container in
      let containerH := clientHeight container in
      let imgW := of_Z (naturalWidth img) in
      let imgH := of_Z (naturalHeight img) in
      if falsy imgW || falsy imgH then cs
      else
        let containerAspect := (containerW / containerH)%num in
        let imgAspect := (imgW / imgH)%num in
        if (imgAspect >? containerAspect)%num then
          let width := containerW in
          let height := (width / imgAspect)%num in
          set_renderedImageGeom
            {| g_x := Fin 0; g_y := ((containerH - height) / Fin 2)%num;
               g_width := width; g_height := height |} cs
        else
          let height := containerH in
          let width := (height * imgAspect)%num in
          set_renderedImageGeom
            {| g_x := ((containerW - width) / Fin 2)%num; g_y := Fin 0;
               g_width := width; g_height := height |} cs
  | _, _ => cs
  end.

Record MouseEvent := {
  clientX : num;
  clientY : num;
  (** [(e.target as HTMLElement).closest('.marker-container')] is not null *)
  targetInMarker : bool
}.

Record WheelEvent := { w_clientX : num; w_clientY : num; deltaY : num }.

Record DragEvent := {
  d_clientX : num;
  d_clientY : num;
  d_types : list string;
  (** [e.dataTransfer.getData('application/x-asset-id')] *)
  d_assetId : string;
  d_files : list File
}.

(** The callbacks of [MainCanvasProps] a handler invokes. *)
Inductive call : Type :=
| onAddMarker (coords : DropCoordinates) (targetObjectLabel : option string)
| onUpdateMarker (id : string) (newProps : PartialEditMarker)
| onUpdateAssetMarker (id : string) (newProps : PartialAssetMarker)
| onHoverMask (label : option string)
| onSliderPositionChange (position : num)
| onSliderDragEnd
| setZoom (zoom : num)
| setCanvasOffset (offset : Point)
| onAssetDrop (assetId : string) (coords : DropCoordinates) (targetObjectLabel : option string)
| onBaseImageSet (file : File).

Definition isDisabled (app : AppState) : bool := isLoading app || isSegmenting app.

Definition getRelativeCoords (dom : Dom) (app : AppState) (cs : CanvasState)
           (eX eY : num) : option DropCoordinates :=
  match canvasRef dom with
  | None => None
  | Some container =>
      let canvasRect := rect container in
      let geom := renderedImageGeom cs in
      let mouseX := (eX - left canvasRect)%num in
      let mouseY := (eY - top canvasRect)%num in
      let preTransformX := ((mouseX - px (canvasOffset app)) / zoom app)%num in
      let preTransformY := ((mouseY - py (canvasOffset app)) / zoom app)%num in
      let imageX := (preTransformX - g_x geom)%num in
      let imageY := (preTransformY - g_y geom)%num in
      if (imageX <? Fin 0)%num || (imageX >? g_width geom)%num
         || (imageY <? Fin 0)%num || (imageY >? g_height geom)%num
      then
        let clampedX := max (Fin 0) (min imageX (g_width geom)) in
        let clampedY := max (Fin 0) (min imageY (g_height geom)) in
        Some {| dc_x := (clampedX / g_width geom)%num;
                dc_y := (clampedY / g_height geom)%num |}
      else
        let relativeX := (imageX / g_width geom)%num in
        let relativeY := (imageY / g_height geom)%num in
        Some {| dc_x := relativeX; dc_y := relativeY |}
  end.

(** [getLabelFromHitMap(coords)] inside the component. *)
Definition labelAt (app : AppState) (cs : CanvasState) (coords : DropCoordinates)
  : lookup :=
  getLabelFromHitMap (hitCanvas cs) (segmentationData app) coords.

Definition includes (types : list string) (t : string) : bool :=
  existsb (String.eqb t) types.

(** A handler in which the lookup throws stops there: what it has set and
    called before stands, the rest of its body does not run. *)
Definition handleDragOver (dom : Dom) (app : AppState) (cs : CanvasState) (e : DragEvent)
  : CanvasState * list call :=
  if isDisabled app then (cs, [])
  else
    let coords := getRelativeCoords dom app cs (d_clientX e) (d_clientY e) in
    let hover := match coords with
                 | Some c =>
                     match labelAt app cs c with
                     | Found label => Some [onHoverMask label]
                     | Thrown => None
                     end
                 | None => Some []
                 end in
    match hover with
    | None => (cs, [])
    | Some calls =>
        if includes (d_types e) "application/x-asset-id" then
          (set_dropIndicator coords (set_isAssetDragOver true cs), calls)
        else if includes (d_types e) "Files" then (set_isDraggingFile true cs, calls)
        else (cs, calls)
    end.

(** [setIsDraggingFile(false); setDropIndicator(null); setIsAssetDragOver(false)] *)
Definition endDrag (cs : CanvasState) : CanvasState :=
  set_isAssetDragOver false (set_dropIndicator None (set_isDraggingFile false cs)).

Definition handleDragLeave (cs : CanvasState) : CanvasState * list call :=
  (endDrag cs, [onHoverMask None]).

Definition handleDrop (dom : Dom) (app : AppState) (cs : CanvasState) (e : DragEvent)
  : CanvasState * list call :=
  let coords := getRelativeCoords dom app cs (d_clientX e) (d_clientY e) in
  match (match coords with
         | Some c => labelAt app cs c
         | None => Found None
         end) with
  | Thrown => (cs, [])
  | Found targetLabel =>
      let calls := [onHoverMask None] in
      let cs := endDrag cs in
      if isDisabled app then (cs, calls)
      else
        match negb (String.eqb (d_assetId e) ""), displayImage app, coords with
        | true, Some _, Some c => (cs, calls ++ [onAssetDrop (d_assetId e) c targetLabel])%list
        | _, _, _ =>
            match d_files e with
            | file :: _ => (cs, calls ++ [onBaseImageSet file])%list
            | [] => (cs, calls)
            end
        end
  end.

Definition handleMarkerDragStart (app : AppState) (cs : CanvasState) (id : string)
           (type : markerType) : CanvasState :=
  if isDisabled app then cs
  else set_draggedMarker (Some {| dm_id := id; dm_type := type |}) cs.

Definition handleMouseDown (app : AppState) (cs : CanvasState) (e : MouseEvent)
  : CanvasState :=
  match displayImage app with
  | Some _ =>
      if isCompareMode app || isDisabled app || targetInMarker e then cs
      else
        let cs := set_isPanning true (set_didDrag false cs) in
        let cs := set_mouseDownPos {| px := clientX e; py := clientY e |} cs in
        set_panStart {| px := (clientX e - px (canvasOffset app))%num;
                        py := (clientY e - py (canvasOffset app))%num |} cs
  | None => cs
  end.

(** [{ x: coords.x, y: coords.y }] *)
Definition xyProps (c : DropCoordinates) : PartialEditMarker :=
  {| pem_id := None; pem_x := Some (dc_x c); pem_y := Some (dc_y c); pem_prompt := None;
     pem_targetObjectLabel := None |}.

Definition xyAssetProps (c : DropCoordinates) : PartialAssetMarker :=
  {| pam_id := None; pam_assetId := None; pam_x := Some (dc_x c); pam_y := Some (dc_y c);
     pam_color := None; pam_prompt := None; pam_targetObjectLabel := None |}.

Definition handleMouseMove (dom : Dom) (app : AppState) (cs : CanvasState) (e : MouseEvent)
  : CanvasState * list call :=
  let cs :=
    match canvasRef dom with
    | Some container =>
        set_cursorPosition {| px := (clientX e - left (rect container))%num;
                              py := (clientY e - top (rect container))%num |} cs
    | None => cs
    end in
  let coords := getRelativeCoords dom app cs (clientX e) (clientY e) in
  let hover :=
    match isPanning cs, draggedMarker cs with
    | false, None =>
        match coords with
        | Some c =>
            match labelAt app cs c with
            | Found label => Some [onHoverMask label]
            | Thrown => None
            end
        | None => Some [onHoverMask None]
        end
    | _, _ => Some []
    end in
  let dragMarker :=
    match draggedMarker cs, coords with
    | Some dm, Some c =>
        match dm_type dm with
        | edit => [onUpdateMarker (dm_id dm) (xyProps c)]
        | asset => [onUpdateAssetMarker (dm_id dm) (xyAssetProps c)]
        end
    | _, _ => []
    end in
  match hover with
  | None => (cs, [])
  | Some hover =>
      match isSliderDragging app, coords with
      | true, Some c => (cs, hover ++ [onSliderPositionChange (dc_x c)])%list
      | _, _ =>
          if isPanning cs then
            let dx := abs (clientX e - px (mouseDownPos cs))%num in
            let dy := abs (clientY e - py (mouseDownPos cs))%num in
            let cs := if negb (didDrag cs) && ((dx >? Fin 5)%num || (dy >? Fin 5)%num)
                      then set_didDrag true cs else cs in
            if didDrag cs then
              (cs, hover ++ [setCanvasOffset {| px := (clientX e - px (panStart cs))%num;
                                                py := (clientY e - py (panStart cs))%num |}])%list
            else (cs, hover ++ dragMarker)%list
          else (cs, hover ++ dragMarker)%list
      end
  end.

Definition handleMouseUp (dom : Dom) (app : AppState) (cs : CanvasState) (e : MouseEvent)
  : CanvasState * list call :=
  let sliderEnd := if isSliderDragging app then [onSliderDragEnd] else [] in
  let click :=
    if isPanning cs && negb (didDrag cs) && negb (targetInMarker e) then
      match getRelativeCoords dom app cs (clientX e) (clientY e) with
      | Some coords =>
          match labelAt app cs coords with
          | Found label => Some [onAddMarker coords label]
          | Thrown => None
          end
      | None => Some []
      end
    else Some [] in
  match click with
  | None => (cs, sliderEnd)
  | Some click =>
      (set_draggedMarker None (set_isPanning false (set_didDrag false cs)),
       (sliderEnd ++ click)%list)
  end.

(** [canvasRef.current!] is dereferenced: without a container the handler
    throws before any update. *)
Definition handleWheel (dom : Dom) (app : AppState) (e : WheelEvent) : list call :=
  match displayImage app, canvasRef dom with
  | Some _, Some container =>
      if isDisabled app then []
      else
        let canvasRect := rect container in
        let mouseX := (w_clientX e - left canvasRect)%num in
        let mouseY := (w_clientY e - top canvasRect)%num in
        let oldZoom := zoom app in
        let newZoom := if (deltaY e >? Fin 0)%num
                       then max (oldZoom / ZOOM_STEP)%num MIN_ZOOM
                       else min (oldZoom * ZOOM_STEP)%num MAX_ZOOM in
        if same_num newZoom oldZoom then []
        else
          let newOffsetX :=
            (mouseX - (newZoom / oldZoom) * (mouseX - px (canvasOffset app)))%num in
          let newOffsetY :=
            (mouseY - (newZoom / oldZoom) * (mouseY - py (canvasOffset app)))%num in
          [setZoom newZoom; setCanvasOffset {| px := newOffsetX; py := newOffsetY |}]
  | _, _ => []
  end.

(** *** The canvas mounted in the application *)

(** The collaborators behind the two asynchronous callbacks. *)
Record Collaborators := {
  describeImage : string -> outcome string;
  generate : nat -> settled (list GeneratedResult)
}.

(** The props [App] passes to [MainCanvas], callback by callback. *)
Definition dispatch (env : Collaborators) (c : call) (app : AppState) : AppState :=
  match c with
  | onAddMarker coords label => handleAddMarker coords label app
  | onUpdateMarker id newProps => handleUpdateMarker id newProps app
  | onUpdateAssetMarker id newProps => handleUpdateAssetMarker id newProps app
  | onHoverMask label => set_hoveredMaskLabel label app
  | onSliderPositionChange position => handleSliderPositionChange position app
  | onSliderDragEnd => handleSliderDragEnd app
  | setZoom z => set_zoom z app
  | setCanvasOffset offset => set_canvasOffset offset app
  | onAssetDrop assetId coords label =>
      handleAssetGeneration (generate env) assetId coords label false app
  | onBaseImageSet file => handleBaseImageSet (describeImage env) file app
  end.

Definition dispatchAll (env : Collaborators) (calls : list call) (app : AppState)
  : AppState :=
  fold_left (fun app c => dispatch env c app) calls app.

(** The events of the container; a pointer leaving it is not among them. *)
Inductive event : Type :=
| MouseDown (e : MouseEvent)
| MouseMove (e : MouseEvent)
| MouseUp (e : MouseEvent)
| Wheel (e : WheelEvent)
| DragOver (e : DragEvent)
| DragLeave
| Drop (e : DragEvent)
| MarkerDragStart (id : string) (type : markerType).

Definition handle (dom : Dom) (app : AppState) (cs : CanvasState) (ev : event)
  : CanvasState * list call :=
  match ev with
  | MouseDown e => (handleMouseDown app cs e, [])
  | MouseMove e => handleMouseMove dom app cs e
  | MouseUp e => handleMouseUp dom app cs e
  | Wheel e => (cs, handleWheel dom app e)
  | DragOver e => handleDragOver dom app cs e
  | DragLeave => handleDragLeave cs
  | Drop e => handleDrop dom app cs e
  | MarkerDragStart id type => (handleMarkerDragStart app cs id type, [])
  end.

(** One event: the handler runs against the current props, then the
    callbacks it invoked update the application. *)
Definition step (env : Collaborators) (dom : Dom) (st : AppState * CanvasState)
           (ev : event) : AppState * CanvasState * list call :=
  let (cs', calls) := handle dom (fst st) (snd st) ev in
  (dispatchAll env calls (fst st), cs', calls).

Fixpoint run (env : Collaborators) (dom : Dom) (st : AppState * CanvasState)
         (evs : list event) : AppState * CanvasState * list call :=
  match evs with
  | [] => (st, [])
  | ev :: evs' =>
      let '(app, cs, calls) := step env dom st ev in
      let '(st', calls') := run env dom (app, cs) evs' in
      (st', (calls ++ calls')%list)
  end.

End MainCanvas.

(** ** Sessions: the operations a user performs on the workspace *)
Module Workspace.
Import App.

Inductive op : Type :=
| BaseImageSet (describeImage : string -> outcome string) (file : File)
| InsertImageAdd (files : list File)
| ClearInsertImages
| AssetDrop (call : nat -> settled (list GeneratedResult)) (assetId : string)
            (coords : DropCoordinates) (targetObjectLabel : option string)
| AssetRegeneration (call : nat -> settled (list GeneratedResult)) (markerId : string)
| MarkerGeneration (call : nat -> settled (list GeneratedResult))
| SceneGeneration (call : nat -> settled (list GeneratedResult))
| SaveChanges
| Undo
| AddMarker (coords : DropCoordinates) (targetObjectLabel : option string)
| UpdateMarker (id : string) (newProps : PartialEditMarker)
| RemoveMarker (id : string)
| UpdateAssetMarker (id : string) (newProps : PartialAssetMarker)
| RemoveAssetMarker (id : string)
| SegmentImage (segmentImage : string -> outcome (list (string * string)))
| ZoomIn (canvasRef : option Rect)
| ZoomOut (canvasRef : option Rect)
| ResetZoom.

Definition apply (o : op) (s : AppState) : AppState :=
  match o with
  | BaseImageSet describeImage file => handleBaseImageSet describeImage file s
  | InsertImageAdd files => handleInsertImageAdd files s
  | ClearInsertImages => handleClearInsertImages s
  | AssetDrop call assetId coords label =>
      handleAssetGeneration call assetId coords label false s
  | AssetRegeneration call markerId => handleAssetRegeneration call markerId s
  | MarkerGeneration call => handleMarkerGeneration call s
  | SceneGeneration call => handleSceneGeneration call s
  | SaveChanges => handleSaveChanges s
  | Undo => handleUndo s
  | AddMarker coords label => handleAddMarker coords label s
  | UpdateMarker id newProps => handleUpdateMarker id newProps s
  | RemoveMarker id => handleRemoveMarker id s
  | UpdateAssetMarker id newProps => handleUpdateAssetMarker id newProps s
  | RemoveAssetMarker id => handleRemoveAssetMarker id s
  | SegmentImage segmentImage => handleSegmentImage segmentImage s
  | ZoomIn canvasRef => handleZoomIn canvasRef s
  | ZoomOut canvasRef => handleZoomOut canvasRef s
  | ResetZoom => handleResetZoom s
  end.

Definition session (ops : list op) (s : AppState) : AppState :=
  fold_left (fun s o => apply o s) ops s.

(** Whether [o], performed in [s], creates an asset marker: an asset drop
    on a base image, of a known asset, whose generation yields a result. *)
Definition creates (s : AppState) (o : op) : bool :=
  match o with
  | AssetDrop call assetId _ _ =>
      match baseImage s, find (fun img => String.eqb (if_id img) assetId) (insertImages s),
            promise_all (variations call s) with
      | Some _, Some _, Resolved results =>
          match List.concat results with
          | [] => false
          | _ :: _ => true
          end
      | _, _, _ => false
      end
  | _ => false
  end.

(** The number of asset markers created in the course of [ops]. *)
Fixpoint creations (ops : list op) (s : AppState) : nat :=
  match ops with
  | [] => 0
  | o :: ops' => (if creates s o then 1 else 0) + creations ops' (apply o s)
  end.

End Workspace.

(** ** Sample data for the concrete runs *)
Module Samples.
Import App MainCanvas.

(** A stand-in for PNG decoding: the mask is a row-major string of [0]s and
    [1]s, a [1] being an opaque pixel. *)
Definition bitmapMask (mask : string) (w h x y : Z) : Z :=
  if ((0 <=? x) && (x <? w) && (0 <=? y) && (y <? h))%Z then
    match String.get (Z.to_nat (y * w + x)) mask with
    | Some "1"%char => 255%Z
    | _ => 0%Z
    end
  else 0%Z.

Definition mask (label bits : string) : SegmentationMask :=
  {| sm_label := label; sm_mask := bits; sm_color := "rgba(52, 211, 153, 0.5)" |}.

Definition at_ (x y : Q) : DropCoordinates := {| dc_x := Fin x; dc_y := Fin y |}.

Definition container800x600 : Container :=
  {| rect := {| left := Fin 0; top := Fin 0; width := Fin 800; height := Fin 600 |};
     clientWidth := Fin 800; clientHeight := Fin 600 |}.

Definition dom800x600 : Dom :=
  {| canvasRef := Some container800x600;
     imageRef := Some {| naturalWidth := 800; naturalHeight := 600 |} |}.

Definition generated (image : string) : GeneratedResult :=
  {| gr_id := "r"; gr_image := image; gr_text := "" |}.

Definition resolves (image : string) : settled (list GeneratedResult) :=
  {| settledAt := 1; result := Resolved [generated image] |}.

Definition rejects (message : string) : settled (list GeneratedResult) :=
  {| settledAt := 1; result := Rejected message |}.

(** Collaborators that always answer. *)
Definition answering : Collaborators :=
  {| describeImage := fun _ => Resolved "a scene";
     generate := fun _ => resolves "data:image/png;base64,AAAA" |}.

Definition pictureFile : File :=
  {| f_name := "picture.png"; f_read := Resolved "data:image/png;base64,BBBB" |}.

Definition mouseAt (x y : Q) : MouseEvent :=
  {| clientX := Fin x; clientY := Fin y; targetInMarker := false |}.

Definition mouseOnMarkerAt (x y : Q) : MouseEvent :=
  {| clientX := Fin x; clientY := Fin y; targetInMarker := true |}.

(** A workspace with a loaded base image. *)
Definition loaded : AppState :=
  handleBaseImageSet (fun _ => Resolved "a scene") pictureFile initialState.

Definition editMarker (id : string) (x y : Q) : EditMarker :=
  {| em_id := id; em_x := Fin x; em_y := Fin y; em_prompt := "";
     em_targetObjectLabel := None |}.

Definition assetMarker (id : string) (x y : Q) : AssetMarker :=
  {| am_id := id; am_assetId := "asset-1"; am_x := Fin x; am_y := Fin y;
     am_color := Some "#34D399"; am_prompt := Some ""; am_targetObjectLabel := None |}.

(** A workspace with two edit markers and two asset markers. *)
Definition marked : AppState :=
  set_assetMarkers [assetMarker "c" (1 # 2) (1 # 2); assetMarker "d" (1 # 4) (1 # 4)]
    (set_markers [editMarker "a" (1 # 10) (1 # 10); editMarker "b" (9 # 10) (9 # 10)] loaded).

Definition moveTo (x y : Q) : PartialEditMarker := xyProps (at_ x y).
Definition moveAssetTo (x y : Q) : PartialAssetMarker := xyAssetProps (at_ x y).

Definition renameTo (id : string) : PartialEditMarker :=
  {| pem_id := Some id; pem_x := None; pem_y := None; pem_prompt := None;
     pem_targetObjectLabel := None |}.

(** A zoomed and panned workspace showing a generated result. *)
Definition zoomedWithResult : AppState :=
  set_canvasOffset {| px := Fin 30; py := Fin 40 |}
    (set_zoom (Fin 2)
       (set_activeResultId (Some "r")
          (set_generatedResults [generated "data:image/png;base64,CCCC"] loaded))).

Definition assetFile : File :=
  {| f_name := "boat.png"; f_read := Resolved "data:image/png;base64,DDDD" |}.

(** A workspace with a base image and one asset, whose id is [uuid-1]. *)
Definition withAsset : AppState := handleInsertImageAdd [assetFile] loaded.

(** Two variations are requested. *)
Definition twoVariations : AppState := set_numVariations 2 withAsset.

(** The first call answers, every later call fails. *)
Definition firstOnly (i : nat) : settled (list GeneratedResult) :=
  match i with
  | O => resolves "data:image/png;base64,AAAA"
  | S _ => rejects "503"
  end.

Definition everyCall (i : nat) : settled (list GeneratedResult) :=
  resolves "data:image/png;base64,AAAA".

(** An upload, an asset, a drop that creates a marker, and its removal. *)
Definition dropAsset : Workspace.op :=
  Workspace.AssetDrop everyCall "uuid-1" (at_ (1 # 2) (1 # 2)) None.

Definition dropAndRemove : list Workspace.op :=
  [Workspace.BaseImageSet (fun _ => Resolved "a scene") pictureFile;
   Workspace.InsertImageAdd [assetFile];
   dropAsset;
   Workspace.RemoveAssetMarker "uuid-3"].

(** A square image letterboxed in the 800 by 600 container. *)
Definition squareInWide : CanvasState :=
  set_renderedImageGeom
    {| g_x := Fin 100; g_y := Fin 0; g_width := Fin 600; g_height := Fin 600 |}
    initialCanvas.

(** The geometry a container of zero width produces. *)
Definition collapsed : CanvasState :=
  set_renderedImageGeom
    {| g_x := Fin 0; g_y := Fin 300; g_width := Fin 0; g_height := Fin 0 |}
    initialCanvas.

Definition wheelAt (x y dy : Q) : WheelEvent :=
  {| w_clientX := Fin x; w_clientY := Fin y; deltaY := Fin dy |}.

Definition click (x y : Q) : list event :=
  [MouseDown (mouseAt x y); MouseUp (mouseAt x y)].

Definition unmounted : Dom := {| canvasRef := None; imageRef := None |}.

Definition assetDragAt (x y : Q) : DragEvent :=
  {| d_clientX := Fin x; d_clientY := Fin y; d_types := ["application/x-asset-id"];
     d_assetId := "uuid-1"; d_files := [] |}.

(** The container is mounted and the image has not loaded yet. *)
Definition loadingDom : Dom :=
  {| canvasRef := Some container800x600;
     imageRef := Some {| naturalWidth := 0; naturalHeight := 0 |} |}.

(** The loaded workspace with two masks. *)
Definition segmented : AppState :=
  set_segmentationData (Some [mask "A" "10"; mask "B" "01"]) loaded.

(** A 2 by 1 image and two masks over it: [A] covers the left pixel; [B]
    covers the right one. *)
Definition img2x1 : Img := {| naturalWidth := 2; naturalHeight := 1 |}.
Definition leftAndRight : list SegmentationMask := [mask "A" "10"; mask "B" "01"].

(** [A] covers both pixels and [B], later in the list, the right one. *)
Definition overlapping : list SegmentationMask := [mask "A" "11"; mask "B" "01"].

Definition leftPixel : DropCoordinates := at_ (1 # 4) (1 # 2).
Definition rightPixel : DropCoordinates := at_ (3 # 4) (1 # 2).

End Samples.

(** ** services/geminiService.ts: data URLs and model responses *)
Module GeminiResponse.

(** What a synchronous function does: it returns, throws an [Error] with a
    message, or throws a [TypeError] by reading a property of [undefined]. *)
Inductive attempt (T : Type) : Type :=
| Returns (v : T)
| Throws (message : string)
| ThrowsTypeError.
Arguments Returns {T} v.
Arguments Throws {T} message.
Arguments ThrowsTypeError {T}.

(** [s.split(sep)] for a separator of one character. *)
Fixpoint split (sep : ascii) (s : string) : list string :=
  match s with
  | EmptyString => [EmptyString]
  | String c s' =>
      if Ascii.eqb c sep then EmptyString :: split sep s'
      else match split sep s' with
           | piece :: pieces => String c piece :: pieces
           | [] => [String c EmptyString]
           end
  end.

Record DataUrlParts := { mimeType : string; data : string }.

Definition parseDataUrl (dataUrl : string) : attempt DataUrlParts :=
  match split "," dataUrl with
  | [scheme; payload] =>
      match split ":" scheme with
      | _ :: afterColon :: _ =>
          Returns {| mimeType := hd EmptyString (split ";" afterColon); data := payload |}
      | _ => ThrowsTypeError
      end
  | _ => Throws "Invalid data URL."
  end.

(** A part of a candidate: its [text] and its [inlineData], either of which
    may be missing. *)
Record Part := { text : option string; inlineData : option DataUrlParts }.

Record Content := { parts : option (list Part) }.
Record Candidate := { content : option Content }.
Record Response := { candidates : option (list Candidate) }.

Definition truthy (s : option string) : bool :=
  match s with
  | Some t => negb (String.eqb t "")
  | None => false
  end.

(** The [for] loop of [processResponse]; identifiers are drawn from [seed]
    on. *)
Fixpoint collect (ps : list Part) (currentText : string) (seed : nat)
  : list GeneratedResult :=
  match ps with
  | [] => []
  | part :: ps' =>
      if truthy (text part) then
        collect ps' (match text part with Some t => t | None => currentText end) seed
      else
        match inlineData part with
        | Some d =>
            {| gr_id := "uuid-" ++ show_nat seed;
               gr_image := "data:" ++ mimeType d ++ ";base64," ++ data d;
               gr_text := currentText |} :: collect ps' "" (S seed)
        | None => collect ps' currentText seed
        end
  end.

Definition noValidImage : string := "No valid image content found in the response.".

Definition processResponse (response : option Response) (seed : nat)
  : attempt (list GeneratedResult) :=
  match response with
  | None => Throws noValidImage
  | Some r =>
      match candidates r with
      | None => Throws noValidImage
      | Some [] => ThrowsTypeError
      | Some (first :: _) =>
          match content first with
          | None => ThrowsTypeError
          | Some c =>
              match parts c with
              | None => Throws noValidImage
              | Some ps =>
                  match collect ps "" seed with
                  | [] => Throws noValidImage
                  | results => Returns results
                  end
              end
          end
      end
  end.

Section EditText.
Context {W : Type}.
(** [process.env.API_KEY], the model behind [ai.models.generateContent],
    the message the engine gives a [TypeError], and the identifier seed. *)
Variable apiKey : option string.
Variable generateContent : DataUrlParts -> string -> W -> outcome (option Response) * W.
Variable typeErrorMessage : string.
Variable seed : nat.

Definition thrown {T} (a : attempt T) (w : W) : outcome T * W :=
  match a with
  | Returns v => (Resolved v, w)
  | Throws m => (Rejected m, w)
  | ThrowsTypeError => (Rejected typeErrorMessage, w)
  end.

(** The function [editTextWithRetry] hands to the retry helper (its own log
    line is left out). *)
Definition editTextCall (baseImage prompt : string) (w : W)
  : outcome (list GeneratedResult) * W :=
  match parseDataUrl baseImage with
  | Returns baseImagePart =>
      match generateContent baseImagePart prompt w with
      | (Resolved response, w') => thrown (processResponse response seed) w'
      | (Rejected m, w') => (Rejected m, w')
      end
  | Throws m => (Rejected m, w)
  | ThrowsTypeError => (Rejected typeErrorMessage, w)
  end.

Definition editTextWithRetry (baseImage prompt : string) (w : W)
  : outcome (list GeneratedResult) * W * list GeminiService.effect :=
  if truthy apiKey then GeminiService.callWithRetry (editTextCall baseImage prompt) w
  else (Rejected "API key is not configured.", w, []).
End EditText.

End GeminiResponse.

(** ** components/ResultModal.tsx: stepping through the results *)
Module ResultModal.

(** [a % b] on integers; [None] is NaN. *)
Definition js_rem (a b : Z) : option Z :=
  if (b =? 0)%Z then None else Some (Z.rem a b).

Fixpoint findIndexFrom (i : Z) (id : string) (results : list GeneratedResult) : Z :=
  match results with
  | [] => (-1)%Z
  | r :: results' =>
      if String.eqb (gr_id r) id then i else findIndexFrom (i + 1)%Z id results'
  end.

(** [results.findIndex(r => r.id === initialResult.id)] *)
Definition findIndex (id : string) (results : list GeneratedResult) : Z :=
  findIndexFrom 0 id results.

(** The initial value of [currentIndex]. *)
Definition initialIndex (results : list GeneratedResult) (initialResult : GeneratedResult)
  : option Z :=
  let i := findIndex (gr_id initialResult) results in
  if (0 <=? i)%Z then Some i else Some 0%Z.

Definition size (results : list GeneratedResult) : Z := Z.of_nat (List.length results).

Definition handleNext (results : list GeneratedResult) (prevIndex : option Z) : option Z :=
  match prevIndex with
  | Some i => js_rem (i + 1) (size results)
  | None => None
  end.

Definition handlePrev (results : list GeneratedResult) (prevIndex : option Z) : option Z :=
  match prevIndex with
  | Some i => js_rem (i - 1 + size results) (size results)
  | None => None
  end.

(** [results[currentIndex]] *)
Definition currentResult (results : list GeneratedResult) (currentIndex : option Z)
  : option GeneratedResult :=
  match currentIndex with
  | Some i => if (0 <=? i)%Z then nth_error results (Z.to_nat i) else None
  | None => None
  end.

(** The effect that reports the result shown to [App], whose [onNavigate]
    sets the active result. *)
Definition navigate (results : list GeneratedResult) (currentIndex : option Z)
           (app : App.AppState) : App.AppState :=
  match currentResult results currentIndex with
  | Some r => App.set_activeResultId (Some (gr_id r)) app
  | None => app
  end.

End ResultModal.

(** ** App.tsx: the colour of an asset in the panel *)
Module AssetColors.

(** [assetMarkers.reduce((acc, marker) => { acc[marker.assetId] = marker.color;
    return acc; }, {})]; the object is read as a function of the key, [None]
    for a key it does not have. *)
Definition assetIdToColorMap (assetMarkers : list AssetMarker)
  : string -> option (option string) :=
  fold_left
    (fun acc marker =>
       fun key => if String.eqb key (am_assetId marker) then Some (am_color marker)
                  else acc key)
    assetMarkers (fun _ => None).

End AssetColors.

(** ** components/CompareSlider.tsx: the two places the position goes to *)
Module CompareSlider.



End CompareSlider.

(** ** components/CoordinateGrid.tsx *)
Module CoordinateGrid.

Inductive direction := vertical | horizontal.

(** A [<line>] of the grid: [pos] is its position in per cent. *)
Record Line := {
  ln_direction : direction;
  ln_major : bool;
  ln_index : nat;
  ln_pos : num;
  ln_strokeWidth : num
}.

Definition gridStep : num := Fin (1 # 100).
Definition zoomThreshold : num := Fin (8 # 10).
Definition majorLineStep : nat := 10.

(** [Math.floor(1 / gridStep)] *)
Definition numLines : Z := to_long (floor (Fin 1 / gridStep)%num).

(** The body of the loop for index [i]. *)
Definition linesAt (zoom : num) (i : nat) : list Line :=
  let pos := (of_nat i * gridStep * Fin 100)%num in
  let isMajor := Nat.eqb (i mod majorLineStep) 0 in
  let showMinorLines := (zoom >? zoomThreshold)%num in
  if isMajor then
    let strokeWidth := (Fin (7 # 10) / zoom)%num in
    [{| ln_direction := vertical; ln_major := true; ln_index := i; ln_pos := pos;
        ln_strokeWidth := strokeWidth |};
     {| ln_direction := horizontal; ln_major := true; ln_index := i; ln_pos := pos;
        ln_strokeWidth := strokeWidth |}]
  else if showMinorLines then
    let strokeWidth := (Fin (4 # 10) / zoom)%num in
    [{| ln_direction := vertical; ln_major := false; ln_index := i; ln_pos := pos;
        ln_strokeWidth := strokeWidth |};
     {| ln_direction := horizontal; ln_major := false; ln_index := i; ln_pos := pos;
        ln_strokeWidth := strokeWidth |}]
  else [].

(** [for (let i = 1; i < numLines; i++)] *)
Definition lines (zoom : num) : list Line :=
  flat_map (linesAt zoom) (seq 1 (Z.to_nat numLines - 1)).

End CoordinateGrid.

(** ** Vocabulary of the statements *)
Module Spec.
Import App MainCanvas.

(** A field after [{ ...m, ...newProps }]: the value of [newProps] when the
    field is present there, the old value otherwise. *)
Definition field_merged {A} (present : option A) (old new : A) : Prop :=
  match present with
  | Some v => new = v
  | None => new = old
  end.

Definition editMerged (newProps : PartialEditMarker) (m m' : EditMarker) : Prop :=
  field_merged (pem_id newProps) (em_id m) (em_id m')
  /\ field_merged (pem_x newProps) (em_x m) (em_x m')
  /\ field_merged (pem_y newProps) (em_y m) (em_y m')
  /\ field_merged (pem_prompt newProps) (em_prompt m) (em_prompt m')
  /\ field_merged (pem_targetObjectLabel newProps) (em_targetObjectLabel m)
                  (em_targetObjectLabel m').

Definition assetMerged (newProps : PartialAssetMarker) (m m' : AssetMarker) : Prop :=
  field_merged (pam_id newProps) (am_id m) (am_id m')
  /\ field_merged (pam_assetId newProps) (am_assetId m) (am_assetId m')
  /\ field_merged (pam_x newProps) (am_x m) (am_x m')
  /\ field_merged (pam_y newProps) (am_y m) (am_y m')
  /\ field_merged (pam_color newProps) (am_color m) (am_color m')
  /\ field_merged (pam_prompt newProps) (am_prompt m) (am_prompt m')
  /\ field_merged (pam_targetObjectLabel newProps) (am_targetObjectLabel m)
                  (am_targetObjectLabel m').

(** The generated results with the identifiers drawn from seed [n] on. *)
Fixpoint freshened (rs : list GeneratedResult) (n : nat) : list GeneratedResult :=
  match rs with
  | [] => []
  | r :: rs' =>
      {| gr_id := "uuid-" ++ show_nat n; gr_image := gr_image r; gr_text := gr_text r |}
        :: freshened rs' (S n)
  end.

(** A generated result up to its identifier. *)
Definition content (r : GeneratedResult) : string * string := (gr_image r, gr_text r).

Definition allResolved {T} (ps : list (settled T)) : Prop :=
  Forall (fun p => exists v, result p = Resolved v) ps.

Definition someRejected {T} (ps : list (settled T)) : Prop :=
  Exists (fun p => exists m, result p = Rejected m) ps.

(** The image files made from [dataUrls] with the identifiers drawn from seed
    [n] on. *)
Fixpoint imageFilesFrom (dataUrls : list string) (n : nat) : list ImageFile :=
  match dataUrls with
  | [] => []
  | dataUrl :: rest =>
      {| if_id := "uuid-" ++ show_nat n; if_dataUrl := dataUrl |} :: imageFilesFrom rest (S n)
  end.

(** Clamping of a rational to the unit interval. *)
Definition clamp01 (u : Q) : Q :=
  if Qltb u 0 then 0 else if Qltb 1 u then 1 else u.

(** Two resolved coordinates that agree up to the representation of their
    components. *)
Definition sameCoords (a b : option DropCoordinates) : Prop :=
  match a, b with
  | Some c, Some d => eqv (dc_x c) (dc_x d) /\ eqv (dc_y c) (dc_y d)
  | None, None => True
  | _, _ => False
  end.

(** The transform from the pointer position already brought back before the
    viewport transform: the part of [getRelativeCoords] after [preTransformX]
    and [preTransformY]. *)
Definition coordsFromPre (geom : Geom) (preTransformX preTransformY : num)
  : DropCoordinates :=
  let imageX := (preTransformX - g_x geom)%num in
  let imageY := (preTransformY - g_y geom)%num in
  if (imageX <? Fin 0)%num || (imageX >? g_width geom)%num
     || (imageY <? Fin 0)%num || (imageY >? g_height geom)%num
  then
    {| dc_x := (max (Fin 0) (min imageX (g_width geom)) / g_width geom)%num;
       dc_y := (max (Fin 0) (min imageY (g_height geom)) / g_height geom)%num |}
  else
    {| dc_x := (imageX / g_width geom)%num; dc_y := (imageY / g_height geom)%num |}.

(** A callback invocation that carries no resolved coordinate and no label
    resolved from one. *)
Definition carriesNoCoordinate (c : call) : bool :=
  match c with
  | onAddMarker _ _ | onUpdateMarker _ _ | onUpdateAssetMarker _ _
  | onAssetDrop _ _ _ | onSliderPositionChange _ => false
  | onHoverMask (Some _) => false
  | onHoverMask None | onSliderDragEnd | setZoom _ | setCanvasOffset _
  | onBaseImageSet _ => true
  end.



Definition isAddMarker (c : call) : bool :=
  match c with onAddMarker _ _ => true | _ => false end.




(** The image of the mask, drawn at [w] by [h], has no partly transparent
    pixel: its alpha is 0 or 255 everywhere. *)
Definition binaryMask (decodeMask : string -> Z -> Z -> Z -> Z -> Z)
           (maskData : SegmentationMask) (w h : Z) : Prop :=
  forall x y,
    decodeMask (sm_mask maskData) w h x y = 0%Z
    \/ decodeMask (sm_mask maskData) w h x y = 255%Z.

(** [a] is a number that [getImageData] accepts as a coordinate: finite,
    and within the range of a [long] once truncated. *)
Definition isLong (a : num) : Prop :=
  match a with
  | Fin q => inject_Z LONG_MIN - 1 < q /\ q < inject_Z LONG_MAX + 1
  | _ => False
  end.

(** The hit canvas, when there is one, has dimensions that a canvas can
    have: [width] and [height] are between 0 and 2^31 - 1. *)
Definition canvasSized (hitCanvas : option HitCanvas) : Prop :=
  match hitCanvas with
  | Some hc => (0 <= hc_width hc <= LONG_MAX)%Z /\ (0 <= hc_height hc <= LONG_MAX)%Z
  | None => True
  end.

(** The coordinate lies on the picture: both axes are within [0, 1]. *)
Definition onPicture (c : DropCoordinates) : Prop :=
  within 0 1 (dc_x c) /\ within 0 1 (dc_y c).

End Spec.

(** ** Vocabulary of the further statements *)
Module SpecMore.
Import App MainCanvas GeminiResponse.

(** The number of times the character [c] occurs in [s]. *)
Fixpoint occurrences (c : ascii) (s : string) : nat :=
  match s with
  | EmptyString => 0
  | String c' s' => (if Ascii.eqb c' c then 1 else 0) + occurrences c s'
  end.

(** The parts [processResponse] turns into results: those with an
    [inlineData] and no non-empty [text]. *)
Definition isImagePart (p : Part) : bool :=
  negb (truthy (text p)) && match inlineData p with Some _ => true | None => false end.

Definition imageParts (ps : list Part) : list DataUrlParts :=
  flat_map (fun p => if isImagePart p
                     then match inlineData p with Some d => [d] | None => [] end
                     else []) ps.

Definition dataUrlOf (d : DataUrlParts) : string :=
  "data:" ++ mimeType d ++ ";base64," ++ data d.

(** A MIME type and a payload free of the separators of a data URL. *)
Definition separatorFree (d : DataUrlParts) : Prop :=
  occurrences "," (mimeType d) = 0%nat /\ occurrences ":" (mimeType d) = 0%nat
  /\ occurrences ";" (mimeType d) = 0%nat /\ occurrences "," (data d) = 0%nat.

Import Workspace.

(** The part of the state a history entry records. *)
Definition editorOf (s : AppState) : EditorState :=
  {| es_baseImage := baseImage s; es_insertImages := insertImages s;
     es_markers := markers s; es_assetMarkers := assetMarkers s |}.

(** Whether [o], performed in [s], records [s] in the history. *)
Definition pushes (s : AppState) (o : op) : bool :=
  match o with
  | BaseImageSet _ _ => match baseImage s with Some _ => true | None => false end
  | InsertImageAdd _ | SaveChanges | AddMarker _ _ | RemoveMarker _
  | RemoveAssetMarker _ => true
  | ClearInsertImages =>
      match insertImages s, assetMarkers s with
      | [], [] => false
      | _, _ => true
      end
  | AssetDrop _ _ _ _ => creates s o
  | SceneGeneration _ =>
      match baseImage s, insertImages s with
      | None, [] => false
      | _, _ => true
      end
  | _ => false
  end.

(** Every operation of [ops], performed in turn from [s], records the state
    it starts from. *)
Fixpoint allPush (ops : list op) (s : AppState) : bool :=
  match ops with
  | [] => true
  | o :: ops' => pushes s o && allPush ops' (apply o s)
  end.

Definition isUndo (o : op) : bool :=
  match o with Undo => true | _ => false end.

(** The zoom factor lies between the two bounds. *)
Definition zoomInRange (s : AppState) : Prop := within (2 # 10) 5 (zoom s).

(** A zoom a handler asks for lies between the two bounds. *)
Definition zoomCallInRange (c : call) : Prop :=
  match c with
  | setZoom z => within (2 # 10) 5 z
  | _ => True
  end.


Definition isHoverCall (c : call) : bool :=
  match c with onHoverMask _ => true | _ => false end.

(** [app'] is [app] up to the hovered mask label. *)
Definition sameButHover (app app' : AppState) : Prop :=
  set_hoveredMaskLabel (hoveredMaskLabel app) app' = app.

(** The marker [m] moved to [c]. *)
Definition placedAt (c : DropCoordinates) (m : EditMarker) : EditMarker :=
  {| em_id := em_id m; em_x := dc_x c; em_y := dc_y c; em_prompt := em_prompt m;
     em_targetObjectLabel := em_targetObjectLabel m |}.

(** The markers with every marker of identifier [id] moved to [c]. *)
Definition movedTo (id : string) (c : DropCoordinates) (ms : list EditMarker)
  : list EditMarker :=
  map (fun m => if String.eqb (em_id m) id then placedAt c m else m) ms.

(** Dragging the marker [id]: the press on the marker at [e0], the moves,
    the release at [eu]. *)
Definition dragGesture (id : string) (e0 : MouseEvent) (moves : list MouseEvent)
           (eu : MouseEvent) : list event :=
  MarkerDragStart id edit :: MouseDown e0 :: (map MouseMove moves ++ [MouseUp eu])%list.

(** Every file of [files] reads, to the data URLs [dataUrls] in order. *)
Definition allRead (files : list File) (dataUrls : list string) : Prop :=
  map f_read files = map Resolved dataUrls.

(** Some file of [files] fails to read. *)
Definition someUnread (files : list File) : Prop :=
  Exists (fun f => exists m, f_read f = Rejected m) files.

(** A line of the grid lies strictly inside the picture and is major
    exactly on every tenth index. *)
Definition gridLineOk (ln : CoordinateGrid.Line) : bool :=
  ((1 <=? CoordinateGrid.ln_index ln) && (CoordinateGrid.ln_index ln <=? 99))%nat
  && Bool.eqb (CoordinateGrid.ln_major ln) (CoordinateGrid.ln_index ln mod 10 =? 0)%nat.

Definition isMinor (ln : CoordinateGrid.Line) : bool := negb (CoordinateGrid.ln_major ln).

End SpecMore.

(** ** Further sample data *)
Module SamplesMore.
Import App MainCanvas GeminiResponse Samples.

Definition captionPart (t : string) : Part := {| text := Some t; inlineData := None |}.

Definition pngPart (payload : string) : Part :=
  {| text := None; inlineData := Some {| mimeType := "image/png"; data := payload |} |}.

(** A response whose first candidate holds a caption and two images. *)
Definition twoImages : Response :=
  {| candidates :=
       Some [{| content := Some {| parts := Some [captionPart "a boat"; pngPart "AAAA";
                                                  pngPart "BBBB"] |} |}] |}.

(** A response whose first candidate holds text only. *)
Definition textOnly : Response :=
  {| candidates := Some [{| content := Some {| parts := Some [captionPart "sorry"] |} |}] |}.

(** A model that counts its calls and always answers with two images. *)
Definition countingModel (d : DataUrlParts) (prompt : string) (calls : nat)
  : outcome (option Response) * nat :=
  (Resolved (Some twoImages), S calls).


(** The workspace while a generation is running. *)
Definition busy : AppState := set_isLoading true withAsset.

(** A click, a wheel notch and an asset drop at the centre of the canvas. *)
Definition pokes : list event :=
  [MouseDown (mouseAt 400 300); MouseUp (mouseAt 400 300); Wheel (wheelAt 400 300 (-1));
   DragOver (assetDragAt 400 300); Drop (assetDragAt 400 300);
   MarkerDragStart "a" edit; MouseMove (mouseAt 10 10)].

(** A file that cannot be read. *)
Definition unreadable : File :=
  {| f_name := "broken.png"; f_read := Rejected "Failed to read file." |}.

(** Nine labelled masks, one more than the palette has colours. *)
Definition nineMasks : list (string * string) :=
  [("a", "A"); ("b", "B"); ("c", "C"); ("d", "D"); ("e", "E"); ("f", "F"); ("g", "G");
   ("h", "H"); ("i", "I")].

(** A second marker for the asset of [assetMarker], in another colour, and
    a marker for another asset. *)
Definition recolored : AssetMarker :=
  {| am_id := "e"; am_assetId := "asset-1"; am_x := Fin (1 # 3); am_y := Fin (1 # 3);
     am_color := Some "#F87171"; am_prompt := Some ""; am_targetObjectLabel := None |}.

Definition otherAsset : AssetMarker :=
  {| am_id := "f"; am_assetId := "asset-2"; am_x := Fin (2 # 3); am_y := Fin (2 # 3);
     am_color := Some "#60A5FA"; am_prompt := Some ""; am_targetObjectLabel := None |}.

Definition numbered (id : string) : GeneratedResult :=
  {| gr_id := id; gr_image := "data:image/png;base64,AAAA"; gr_text := "" |}.

Definition threeResults : list GeneratedResult := [numbered "r1"; numbered "r2"; numbered "r3"].

(** The square picture with the hit map of two masks, [B] loaded last. *)
Definition hitSquare : CanvasState :=
  set_hitCanvas (buildHitMap bitmapMask img2x1 leftAndRight [0; 1]%nat) squareInWide.

End SamplesMore.

(** * Properties *)

Import GeminiService App MainCanvas Workspace Samples Spec.

(** ** The retry helper *)
Lemma invocations_app tr tr' :
  invocations (tr ++ tr') = (invocations tr + invocations tr')%nat.
Proof. unfold invocations. now rewrite filter_app, length_app. Qed.

Section Retry.
Context {W T : Type}.
Variable fn : W -> outcome T * W.

Lemma retry_loop_invocations fuel attempt lastError w tr :
  (invocations (snd (retry_loop fn fuel attempt lastError w tr))
   <= invocations tr + fuel)%nat.
Proof.
  revert attempt lastError w tr.
  induction fuel as [|fuel IH]; intros attempt lastError w tr; simpl.
  - lia.
  - destruct (fn w) as [[v|m] w'].
    + simpl. rewrite invocations_app.
      change (invocations [Log _ _; Invoke]) with 1%nat. clear IH. lia.
    + eapply Nat.le_trans; [apply IH|]. clear IH.
      match goal with |- context [if ?b then _ else _] => destruct b end;
        repeat rewrite invocations_app.
      * change (invocations [Log _ _; Invoke]) with 1%nat.
        change (invocations [Log _ _]) with 0%nat.
        change (invocations [Log _ _; Sleep _]) with 0%nat. lia.
      * change (invocations [Log _ _; Invoke]) with 1%nat.
        change (invocations [Log _ _]) with 0%nat. lia.
Qed.
End Retry.

(** C7. The retry helper calls the wrapped function at most three times.  When
    the first two calls throw and the third succeeds, it returns the third
    result after exactly three calls, having waited 1000 ms between the first
    and the second call and 2000 ms between the second and the third: its
    calls and waits are, in order, call, wait 1000, call, wait 2000, call.
    When all three calls throw, it throws a failure whose message carries the
    message of the last error, after exactly three calls with the same waits
    between them and none after the last. *)
Theorem callWithRetry_bounded_linear_backoff :
  forall (W T : Type) (fn : W -> outcome T * W) (w0 : W),
    (invocations (snd (callWithRetry fn w0)) <= 3)%nat
    /\ (forall m1 w1 m2 w2 v w3,
           fn w0 = (Rejected m1, w1) ->
           fn w1 = (Rejected m2, w2) ->
           fn w2 = (Resolved v, w3) ->
           fst (callWithRetry fn w0) = (Resolved v, w3)
           /\ invocations (snd (callWithRetry fn w0)) = 3%nat
           /\ delays (snd (callWithRetry fn w0)) = [1000; 2000]%Z
           /\ steps (snd (callWithRetry fn w0))
              = [Invoke; Sleep 1000; Invoke; Sleep 2000; Invoke])
    /\ (forall m1 w1 m2 w2 m3 w3,
           fn w0 = (Rejected m1, w1) ->
           fn w1 = (Rejected m2, w2) ->
           fn w2 = (Rejected m3, w3) ->
           fst (callWithRetry fn w0)
           = (Rejected ("Failed after 3 attempts. Last error: "
                        ++ (if String.eqb m3 "" then "Unknown error" else m3)), w3)
           /\ invocations (snd (callWithRetry fn w0)) = 3%nat
           /\ delays (snd (callWithRetry fn w0)) = [1000; 2000]%Z
           /\ steps (snd (callWithRetry fn w0))
              = [Invoke; Sleep 1000; Invoke; Sleep 2000; Invoke]).
Proof.
  intros W T fn w0. split; [|split].
  - unfold callWithRetry.
    pose proof (retry_loop_invocations fn MAX_RETRIES 0 None w0 []) as H.
    simpl in H. exact H.
  - intros m1 w1 m2 w2 v w3 H1 H2 H3.
    unfold callWithRetry. simpl. rewrite H1. simpl. rewrite H2. simpl. rewrite H3.
    repeat split.
  - intros m1 w1 m2 w2 m3 w3 H1 H2 H3.
    unfold callWithRetry. simpl. rewrite H1. simpl. rewrite H2. simpl. rewrite H3.
    simpl. repeat split.
Qed.

(** A call that fails twice and then answers, and one that always fails. *)
Lemma callWithRetry_bounded_linear_backoff_witness :
  let flaky := fun n : nat =>
                 if (n <? 2)%nat then (@Rejected nat "503", S n) else (Resolved 7%nat, S n) in
  let down := fun n : nat => (@Rejected nat "503", S n) in
  (fst (callWithRetry flaky 0%nat) = (Resolved 7%nat, 3%nat)
   /\ invocations (snd (callWithRetry flaky 0%nat)) = 3%nat
   /\ delays (snd (callWithRetry flaky 0%nat)) = [1000; 2000]%Z
   /\ steps (snd (callWithRetry flaky 0%nat))
      = [Invoke; Sleep 1000; Invoke; Sleep 2000; Invoke])
  /\ (fst (callWithRetry down 0%nat)
      = (Rejected "Failed after 3 attempts. Last error: 503", 3%nat)
      /\ invocations (snd (callWithRetry down 0%nat)) = 3%nat
      /\ delays (snd (callWithRetry down 0%nat)) = [1000; 2000]%Z
      /\ steps (snd (callWithRetry down 0%nat))
         = [Invoke; Sleep 1000; Invoke; Sleep 2000; Invoke]).
Proof.
  intros flaky down. split.
  - exact (proj1 (proj2 (callWithRetry_bounded_linear_backoff nat nat flaky 0%nat))
             "503" 1%nat "503" 2%nat 7%nat 3%nat eq_refl eq_refl eq_refl).
  - exact (proj2 (proj2 (callWithRetry_bounded_linear_backoff nat nat down 0%nat))
             "503" 1%nat "503" 2%nat "503" 3%nat eq_refl eq_refl eq_refl).
Defined.

(** ** Marker updates *)

Lemma map_update_nth {A} (f : A -> A) (l : list A) i m :
  nth_error l i = Some m -> nth_error (map f l) i = Some (f m).
Proof. intros H. now rewrite nth_error_map, H. Qed.

Lemma map_update_id {A} (test : A -> bool) (g : A -> A) (l : list A) :
  (forall m, In m l -> test m = false) ->
  map (fun m => if test m then g m else m) l = l.
Proof.
  induction l as [|a l IH]; intros H; simpl; [reflexivity|].
  rewrite (H a (or_introl eq_refl)), IH; [reflexivity|].
  intros m Hm. apply H. now right.
Qed.

Lemma mergeEditMarker_merged m newProps : editMerged newProps m (mergeEditMarker m newProps).
Proof.
  destruct newProps as [[?|] [?|] [?|] [?|] [?|]]; repeat split.
Qed.

Lemma mergeAssetMarker_merged m newProps :
  assetMerged newProps m (mergeAssetMarker m newProps).
Proof.
  destruct newProps as [[?|] [?|] [?|] [?|] [?|] [?|] [?|]]; repeat split.
Qed.

Lemma set_markers_same s : set_markers (markers s) s = s.
Proof. now destruct s. Qed.

Lemma set_assetMarkers_same s : set_assetMarkers (assetMarkers s) s = s.
Proof. now destruct s. Qed.

(** C10, as the code has it.  An update by id replaces the markers whose id
    matches and no other: a marker with another id stays as it is, position
    by position; on a matching marker every field present in the record takes
    the record's value and every absent field keeps its own, so the id is kept
    when the record has no id field; nothing but the marker list changes,
    and when no marker has the id the state is unchanged.  The same holds for
    asset markers. *)
Theorem handleUpdateMarker_frame :
  forall (id : string) (newProps : PartialEditMarker) (assetProps : PartialAssetMarker)
         (s : AppState),
    (forall i m,
        nth_error (markers s) i = Some m ->
        exists m',
          nth_error (markers (handleUpdateMarker id newProps s)) i = Some m'
          /\ (em_id m <> id -> m' = m)
          /\ (em_id m = id -> editMerged newProps m m'))
    /\ List.length (markers (handleUpdateMarker id newProps s)) = List.length (markers s)
    /\ set_markers (markers s) (handleUpdateMarker id newProps s) = s
    /\ ((forall m, In m (markers s) -> em_id m <> id) ->
        handleUpdateMarker id newProps s = s)
    /\ (forall i m,
        nth_error (assetMarkers s) i = Some m ->
        exists m',
          nth_error (assetMarkers (handleUpdateAssetMarker id assetProps s)) i = Some m'
          /\ (am_id m <> id -> m' = m)
          /\ (am_id m = id -> assetMerged assetProps m m'))
    /\ List.length (assetMarkers (handleUpdateAssetMarker id assetProps s))
       = List.length (assetMarkers s)
    /\ set_assetMarkers (assetMarkers s) (handleUpdateAssetMarker id assetProps s) = s
    /\ ((forall m, In m (assetMarkers s) -> am_id m <> id) ->
        handleUpdateAssetMarker id assetProps s = s).
Proof.
  intros id newProps assetProps s. repeat apply conj.
  - intros i m H. unfold handleUpdateMarker. simpl.
    rewrite (map_update_nth _ _ _ _ H). eexists. split; [reflexivity|].
    destruct (String.eqb_spec (em_id m) id) as [E|E]; split; intros E'; try congruence.
    apply mergeEditMarker_merged.
  - unfold handleUpdateMarker. simpl. apply length_map.
  - now destruct s.
  - intros H. unfold handleUpdateMarker. rewrite map_update_id.
    + apply set_markers_same.
    + intros m Hm. apply String.eqb_neq. now apply H.
  - intros i m H. unfold handleUpdateAssetMarker. simpl.
    rewrite (map_update_nth _ _ _ _ H). eexists. split; [reflexivity|].
    destruct (String.eqb_spec (am_id m) id) as [E|E]; split; intros E'; try congruence.
    apply mergeAssetMarker_merged.
  - unfold handleUpdateAssetMarker. simpl. apply length_map.
  - now destruct s.
  - intros H. unfold handleUpdateAssetMarker. rewrite map_update_id.
    + apply set_assetMarkers_same.
    + intros m Hm. apply String.eqb_neq. now apply H.
Qed.

(** The frame property on a workspace with markers [a], [b], [c] and [d]:
    moving [a] and [c], and an update for an id no marker has. *)
Lemma handleUpdateMarker_frame_witness :
  (exists m',
      nth_error (markers (handleUpdateMarker "a" (moveTo (1 # 2) (1 # 3)) marked)) 0
      = Some m'
      /\ (em_id (editMarker "a" (1 # 10) (1 # 10)) <> "a"
          -> m' = editMarker "a" (1 # 10) (1 # 10))
      /\ (em_id (editMarker "a" (1 # 10) (1 # 10)) = "a"
          -> editMerged (moveTo (1 # 2) (1 # 3)) (editMarker "a" (1 # 10) (1 # 10)) m'))
  /\ (exists m',
      nth_error
        (assetMarkers (handleUpdateAssetMarker "c" (moveAssetTo (1 # 2) (1 # 3)) marked)) 0
      = Some m'
      /\ (am_id (assetMarker "c" (1 # 2) (1 # 2)) <> "c"
          -> m' = assetMarker "c" (1 # 2) (1 # 2))
      /\ (am_id (assetMarker "c" (1 # 2) (1 # 2)) = "c"
          -> assetMerged (moveAssetTo (1 # 2) (1 # 3)) (assetMarker "c" (1 # 2) (1 # 2)) m'))
  /\ handleUpdateMarker "z" (moveTo (1 # 2) (1 # 3)) marked = marked
  /\ handleUpdateAssetMarker "z" (moveAssetTo (1 # 2) (1 # 3)) marked = marked.
Proof.
  pose proof (handleUpdateMarker_frame "a" (moveTo (1 # 2) (1 # 3))
                (moveAssetTo (1 # 2) (1 # 3)) marked) as Ha.
  pose proof (handleUpdateMarker_frame "c" (moveTo (1 # 2) (1 # 3))
                (moveAssetTo (1 # 2) (1 # 3)) marked) as Hc.
  pose proof (handleUpdateMarker_frame "z" (moveTo (1 # 2) (1 # 3))
                (moveAssetTo (1 # 2) (1 # 3)) marked) as Hz.
  split; [|split; [|split]].
  - exact (proj1 Ha 0%nat (editMarker "a" (1 # 10) (1 # 10)) eq_refl).
  - exact (proj1 (proj2 (proj2 (proj2 (proj2 Hc)))) 0%nat
             (assetMarker "c" (1 # 2) (1 # 2)) eq_refl).
  - apply (proj1 (proj2 (proj2 (proj2 Hz)))).
    intros m [E|[E|[]]]; subst m; discriminate.
  - apply (proj2 (proj2 (proj2 (proj2 (proj2 (proj2 (proj2 Hz))))))).
    intros m [E|[E|[]]]; subst m; discriminate.
Defined.

(** C10 as stated fails on the id: a record that carries an [id] field gives
    the matching marker that id. *)
Lemma handleUpdateMarker_overwrites_id :
  markers (handleUpdateMarker "a" (renameTo "b") marked)
  = [editMarker "b" (1 # 10) (1 # 10); editMarker "b" (9 # 10) (9 # 10)]
  /\ map em_id (markers marked) = ["a"; "b"].
Proof. split; reflexivity. Qed.

(** ** Base image changes and the viewport *)

(** C9, as the code has it.  Setting a new base image from a file resets the
    viewport to zoom 1 and offset (0, 0), whatever the outcome of reading and
    describing the file; saving a generated result as the base image and
    undoing leave the zoom and the offset as they were. *)
Theorem viewport_reset_on_upload_only :
  forall (describeImage : string -> outcome string) (file : File) (s : AppState),
    (zoom (handleBaseImageSet describeImage file s) = Fin 1
     /\ canvasOffset (handleBaseImageSet describeImage file s)
        = {| px := Fin 0; py := Fin 0 |})
    /\ (zoom (handleSaveChanges s) = zoom s
        /\ canvasOffset (handleSaveChanges s) = canvasOffset s)
    /\ (zoom (handleUndo s) = zoom s
        /\ canvasOffset (handleUndo s) = canvasOffset s).
Proof.
  intros describeImage file s. repeat apply conj.
  - unfold handleBaseImageSet.
    destruct (baseImage s), (f_read file) as [dataUrl|m];
      try destruct (describeImage dataUrl); reflexivity.
  - unfold handleBaseImageSet.
    destruct (baseImage s), (f_read file) as [dataUrl|m];
      try destruct (describeImage dataUrl); reflexivity.
  - unfold handleSaveChanges.
    destruct (find _ (generatedResults s)); reflexivity.
  - unfold handleSaveChanges.
    destruct (find _ (generatedResults s)); reflexivity.
  - unfold handleUndo. destruct (rev (history s)); reflexivity.
  - unfold handleUndo. destruct (rev (history s)); reflexivity.
Qed.

(** C9 as stated fails on saving and on undoing: a workspace zoomed to 2 and
    panned to (30, 40) keeps that viewport when its active result becomes the
    base image, and again when that is undone. *)
Lemma save_and_undo_keep_viewport :
  baseImage (handleSaveChanges zoomedWithResult) <> baseImage zoomedWithResult
  /\ zoom (handleSaveChanges zoomedWithResult) = Fin 2
  /\ canvasOffset (handleSaveChanges zoomedWithResult) = {| px := Fin 30; py := Fin 40 |}
  /\ baseImage (handleUndo (handleSaveChanges zoomedWithResult))
     <> baseImage (handleSaveChanges zoomedWithResult)
  /\ zoom (handleUndo (handleSaveChanges zoomedWithResult)) = Fin 2
  /\ canvasOffset (handleUndo (handleSaveChanges zoomedWithResult))
     = {| px := Fin 30; py := Fin 40 |}.
Proof. repeat split; try reflexivity; discriminate. Qed.

(** ** Generation: every variation or none *)

Lemma withFreshIds_spec rs s :
  withFreshIds rs s
  = (freshened rs (uuidSeed s), set_uuidSeed (uuidSeed s + List.length rs) s).
Proof.
  revert s. induction rs as [|r rs IH]; intros s.
  - simpl. rewrite Nat.add_0_r. now destruct s.
  - cbn [withFreshIds randomUUID]. rewrite IH. cbn [freshened List.length].
    f_equal. cbn. now rewrite <- plus_n_Sm.
Qed.

Lemma freshened_content rs n : map content (freshened rs n) = map content rs.
Proof.
  revert n. induction rs as [|r rs IH]; intros n; [reflexivity|].
  cbn [freshened map]. now rewrite IH.
Qed.

Lemma freshened_nil rs n : freshened rs n = [] -> rs = [].
Proof. now destruct rs. Qed.

Lemma first_rejected_none {T} (ps : list (settled T)) :
  allResolved ps -> first_rejected ps = None.
Proof.
  induction 1 as [|p ps [v Hv] _ IH]; [reflexivity|].
  simpl. now rewrite Hv.
Qed.

Lemma first_rejected_some {T} (ps : list (settled T)) :
  someRejected ps -> exists t m, first_rejected ps = Some (t, m).
Proof.
  induction ps as [|p ps IH]; intros H; [inversion H|].
  simpl. destruct (result p) as [v|m] eqn:E.
  - inversion H as [? ? [m Hm]|? ? Hps]; subst; [congruence|]. now apply IH.
  - destruct (first_rejected ps) as [[t m']|]; [|now eauto].
    destruct (settledAt p <=? t)%nat; eauto.
Qed.

Lemma promise_all_resolved {T} (ps : list (settled T)) :
  allResolved ps -> promise_all ps = Resolved (resolved_values ps).
Proof. intros H. unfold promise_all. now rewrite first_rejected_none. Qed.

Lemma promise_all_rejected {T} (ps : list (settled T)) :
  someRejected ps -> exists m, promise_all ps = Rejected m.
Proof.
  intros H. destruct (first_rejected_some ps H) as (t & m & E).
  exists m. unfold promise_all. now rewrite E.
Qed.

(** The branch of a generation handler in which every call has resolved. *)
Ltac generation_kept :=
  let E := fresh "E" in
  rewrite withFreshIds_spec;
  destruct (freshened _ _) as [|? ?] eqn:E;
  [ now apply freshened_nil in E
  | split;
    [ reflexivity
    | match type of E with
      | freshened ?rs ?n = _ => rewrite <- (freshened_content rs n), E; reflexivity
      end ] ].

(** C2, as the code has it.  The parallel calls of a generation request are
    joined by [Promise.all]: when every call succeeds, all the variations are
    kept as the results, in order, and no error is surfaced; when any call
    fails after its retries, an error is surfaced and no variation is kept,
    whatever the other calls returned.  This holds for asset generation and
    for scene generation. *)
Theorem generation_all_or_nothing :
  forall (call : nat -> settled (list GeneratedResult)) (assetId : string)
         (coords : DropCoordinates) (label : option string) (isRegeneration : bool)
         (s : AppState),
    (baseImage s <> None ->
     find (fun img => String.eqb (if_id img) assetId) (insertImages s) <> None ->
     (allResolved (variations call s) ->
      List.concat (resolved_values (variations call s)) <> [] ->
      error (handleAssetGeneration call assetId coords label isRegeneration s) = None
      /\ map content
             (generatedResults
                (handleAssetGeneration call assetId coords label isRegeneration s))
         = map content (List.concat (resolved_values (variations call s))))
     /\ (someRejected (variations call s) ->
         error (handleAssetGeneration call assetId coords label isRegeneration s) <> None
         /\ generatedResults
              (handleAssetGeneration call assetId coords label isRegeneration s) = []))
    /\ (baseImage s <> None \/ insertImages s <> [] ->
        (allResolved (variations call s) ->
         List.concat (resolved_values (variations call s)) <> [] ->
         error (handleSceneGeneration call s) = None
         /\ map content (generatedResults (handleSceneGeneration call s))
            = map content (List.concat (resolved_values (variations call s))))
        /\ (someRejected (variations call s) ->
            error (handleSceneGeneration call s) <> None
            /\ generatedResults (handleSceneGeneration call s) = [])).
Proof.
  intros call assetId coords label isRegeneration s. split.
  - intros Hb Hf. unfold handleAssetGeneration.
    destruct (baseImage s); [|congruence].
    destruct (find _ (insertImages s)); [|congruence].
    split.
    + intros Hall Hne. rewrite (promise_all_resolved _ Hall).
      destruct isRegeneration; generation_kept.
    + intros Hrej. destruct (promise_all_rejected _ Hrej) as [m ->].
      split; [discriminate|reflexivity].
  - intros Hg. unfold handleSceneGeneration.
    destruct (baseImage s) as [b|] eqn:Eb, (insertImages s) as [|a l] eqn:Ei;
      try (destruct Hg; congruence);
      (split;
       [ intros Hall Hne; rewrite (promise_all_resolved _ Hall); generation_kept
       | intros Hrej; destruct (promise_all_rejected _ Hrej) as [m ->];
         split; [discriminate|reflexivity] ]).
Qed.

Lemma everyCall_allResolved s : allResolved (variations everyCall s).
Proof.
  unfold allResolved, variations. apply Forall_forall. intros p Hp.
  apply in_map_iff in Hp. destruct Hp as (i & <- & _). now eexists.
Qed.

(** Two variations requested on a workspace with an asset: both calls answer,
    or only the first one does. *)
Lemma generation_all_or_nothing_witness :
  (error (handleAssetGeneration everyCall "uuid-1" (at_ (1 # 2) (1 # 2)) None false
            twoVariations) = None
   /\ map content
        (generatedResults
           (handleAssetGeneration everyCall "uuid-1" (at_ (1 # 2) (1 # 2)) None false
              twoVariations))
      = map content (List.concat (resolved_values (variations everyCall twoVariations))))
  /\ (error (handleAssetGeneration firstOnly "uuid-1" (at_ (1 # 2) (1 # 2)) None false
               twoVariations) <> None
      /\ generatedResults
           (handleAssetGeneration firstOnly "uuid-1" (at_ (1 # 2) (1 # 2)) None false
              twoVariations) = [])
  /\ (error (handleSceneGeneration everyCall twoVariations) = None
      /\ map content (generatedResults (handleSceneGeneration everyCall twoVariations))
         = map content (List.concat (resolved_values (variations everyCall twoVariations))))
  /\ (error (handleSceneGeneration firstOnly twoVariations) <> None
      /\ generatedResults (handleSceneGeneration firstOnly twoVariations) = []).
Proof.
  pose proof (generation_all_or_nothing everyCall "uuid-1" (at_ (1 # 2) (1 # 2)) None false
                twoVariations) as [Ha Hs].
  pose proof (generation_all_or_nothing firstOnly "uuid-1" (at_ (1 # 2) (1 # 2)) None false
                twoVariations) as [Ha' Hs'].
  assert (Hrej : someRejected (variations firstOnly twoVariations)).
  { apply Exists_cons_tl, Exists_cons_hd. now exists "503". }
  assert (Hb : baseImage twoVariations <> None) by discriminate.
  assert (Hf : find (fun img => String.eqb (if_id img) "uuid-1") (insertImages twoVariations)
               <> None) by discriminate.
  split; [|split; [|split]].
  - apply (proj1 (Ha Hb Hf)); [apply everyCall_allResolved|discriminate].
  - apply (proj2 (Ha' Hb Hf)), Hrej.
  - apply (proj1 (Hs (or_introl Hb))); [apply everyCall_allResolved|discriminate].
  - apply (proj2 (Hs' (or_introl Hb))), Hrej.
Defined.

(** C2 as stated fails on a partial success: of two calls the first answers
    with an image and the second fails; the image is not kept and the failure
    is surfaced, in asset generation and in scene generation alike. *)
Lemma partial_success_is_discarded :
  result (firstOnly 0) = Resolved [generated "data:image/png;base64,AAAA"]
  /\ result (firstOnly 1) = Rejected "503"
  /\ variations firstOnly twoVariations = [firstOnly 0%nat; firstOnly 1%nat]
  /\ generatedResults
       (handleAssetGeneration firstOnly "uuid-1" (at_ (1 # 2) (1 # 2)) None false
          twoVariations) = []
  /\ error (handleAssetGeneration firstOnly "uuid-1" (at_ (1 # 2) (1 # 2)) None false
              twoVariations) = Some "503"
  /\ generatedResults (handleSceneGeneration firstOnly twoVariations) = []
  /\ error (handleSceneGeneration firstOnly twoVariations) = Some "503".
Proof. repeat split. Qed.

(** ** Marker colours *)

Lemma toImageFiles_spec urls s :
  toImageFiles urls s
  = (imageFilesFrom urls (uuidSeed s), set_uuidSeed (uuidSeed s + List.length urls) s).
Proof.
  revert s. induction urls as [|u urls IH]; intros s.
  - simpl. rewrite Nat.add_0_r. now destruct s.
  - cbn [toImageFiles randomUUID]. rewrite IH. cbn [imageFilesFrom List.length].
    f_equal. cbn. now rewrite <- plus_n_Sm.
Qed.

Lemma handleAssetGeneration_lastColorIndex call assetId coords label isRegeneration s :
  lastColorIndex (handleAssetGeneration call assetId coords label isRegeneration s)
  = if negb isRegeneration && creates s (AssetDrop call assetId coords label)
    then ((lastColorIndex s + 1) mod 6)%nat
    else lastColorIndex s.
Proof.
  unfold handleAssetGeneration, creates.
  destruct (baseImage s); [|now rewrite andb_false_r].
  destruct (find _ (insertImages s)); [|now rewrite andb_false_r].
  destruct (promise_all (variations call s)) as [results|m]; [|now rewrite andb_false_r].
  rewrite withFreshIds_spec.
  destruct (List.concat results) as [|r rs]; [now rewrite andb_false_r|].
  now destruct isRegeneration.
Qed.

Lemma apply_lastColorIndex o s :
  lastColorIndex (apply o s)
  = if creates s o then ((lastColorIndex s + 1) mod 6)%nat else lastColorIndex s.
Proof.
  destruct o as [describe file|files| |call assetId coords label|call markerId|call|call
                | | |coords label|id newProps|id|id newProps|id
                |segment|canvasRef|canvasRef| ]; cbn [apply].
  - unfold handleBaseImageSet.
    destruct (baseImage s), (f_read file) as [dataUrl|m];
      try destruct (describe dataUrl); reflexivity.
  - unfold handleInsertImageAdd. destruct (readAll files); [|reflexivity].
    now rewrite toImageFiles_spec.
  - unfold handleClearInsertImages. now destruct (insertImages s), (assetMarkers s).
  - now rewrite handleAssetGeneration_lastColorIndex.
  - unfold handleAssetRegeneration.
    destruct (find _ (assetMarkers s)); [|reflexivity].
    now rewrite handleAssetGeneration_lastColorIndex.
  - unfold handleMarkerGeneration. destruct (baseImage s); [|reflexivity].
    destruct (promise_all (variations call s)); [|reflexivity].
    rewrite withFreshIds_spec. now destruct (freshened _ _).
  - unfold handleSceneGeneration.
    destruct (baseImage s), (insertImages s); try reflexivity;
      (destruct (promise_all (variations call s)); [|reflexivity];
       rewrite withFreshIds_spec; now destruct (freshened _ _)).
  - unfold handleSaveChanges. now destruct (find _ (generatedResults s)).
  - unfold handleUndo. now destruct (rev (history s)).
  - reflexivity.
  - reflexivity.
  - reflexivity.
  - reflexivity.
  - reflexivity.
  - unfold handleSegmentImage. destruct (baseImage s) as [base|]; [|reflexivity].
    now destruct (segment (if_dataUrl base)).
  - unfold handleZoomIn. destruct canvasRef; [|reflexivity].
    now destruct (same_num _ _).
  - unfold handleZoomOut. destruct canvasRef; [|reflexivity].
    now destruct (same_num _ _).
  - reflexivity.
Qed.

Lemma creates_appends s o :
  creates s o = true ->
  exists m,
    assetMarkers (apply o s) = (assetMarkers s ++ [m])%list
    /\ am_color m = nth_error MARKER_COLORS (lastColorIndex s).
Proof.
  destruct o as [| | |call assetId coords label| | | | | | | | | | | | | |];
    try discriminate.
  cbn [apply creates]. unfold handleAssetGeneration.
  destruct (baseImage s); [|discriminate].
  destruct (find _ (insertImages s)); [|discriminate].
  destruct (promise_all (variations call s)) as [results|m]; [|discriminate].
  rewrite withFreshIds_spec.
  destruct (List.concat results) as [|r rs]; [discriminate|].
  intros _. eexists. split; reflexivity.
Qed.

Lemma lastColorIndex_bound o s :
  (lastColorIndex s < 6)%nat -> (lastColorIndex (apply o s) < 6)%nat.
Proof.
  intros H. rewrite apply_lastColorIndex. destruct (creates s o); [|exact H].
  apply Nat.mod_upper_bound. discriminate.
Qed.

Lemma session_lastColorIndex ops s :
  (lastColorIndex s < 6)%nat ->
  lastColorIndex (session ops s) = ((lastColorIndex s + creations ops s) mod 6)%nat.
Proof.
  revert s. induction ops as [|o ops IH]; intros s H.
  - unfold session. cbn [fold_left creations]. rewrite Nat.add_0_r.
    symmetry. now apply Nat.mod_small.
  - change (session (o :: ops) s) with (session ops (apply o s)).
    rewrite IH by now apply lastColorIndex_bound.
    cbn [creations]. rewrite apply_lastColorIndex.
    destruct (creates s o).
    + rewrite Nat.Div0.add_mod_idemp_l. f_equal. clear IH. lia.
    + reflexivity.
Qed.

(** C8.  The palette has six colours.  Over any session of workspace
    operations (uploads, asset drops, regenerations, marker additions, updates
    and removals, saves, undos, segmentation, zooming) started from the
    initial state, the colour
    index equals the number of asset markers created so far modulo 6; an
    operation that creates no asset marker leaves it alone; and the asset
    marker created after [k - 1] earlier ones is appended with the colour at
    index [(k - 1) mod 6] of the palette. *)
Theorem asset_marker_colors_round_robin :
  forall (ops : list op) (o : op),
    List.length MARKER_COLORS = 6%nat
    /\ lastColorIndex (session ops initialState) = (creations ops initialState mod 6)%nat
    /\ (creates (session ops initialState) o = false ->
        lastColorIndex (apply o (session ops initialState))
        = lastColorIndex (session ops initialState))
    /\ (creates (session ops initialState) o = true ->
        exists m c,
          assetMarkers (apply o (session ops initialState))
          = (assetMarkers (session ops initialState) ++ [m])%list
          /\ am_color m = Some c
          /\ nth_error MARKER_COLORS (creations ops initialState mod 6) = Some c).
Proof.
  intros ops o.
  assert (Hidx : lastColorIndex (session ops initialState)
                 = (creations ops initialState mod 6)%nat).
  { rewrite session_lastColorIndex by (cbn; lia). reflexivity. }
  repeat apply conj.
  - reflexivity.
  - exact Hidx.
  - intros H. now rewrite apply_lastColorIndex, H.
  - intros H. destruct (creates_appends _ _ H) as (m & Happ & Hcol).
    rewrite Hidx in Hcol.
    destruct (nth_error MARKER_COLORS (creations ops initialState mod 6)) as [c|] eqn:E.
    + now exists m, c.
    + apply nth_error_None in E.
      assert (Hlt : (creations ops initialState mod 6 < 6)%nat)
        by (apply Nat.mod_upper_bound; discriminate).
      change (List.length MARKER_COLORS) with 6%nat in E. lia.
Qed.

(** After a first marker has been created and removed again, a removal
    leaves the colour index alone and the next drop takes the second colour. *)
Lemma asset_marker_colors_round_robin_witness :
  (lastColorIndex (apply (RemoveAssetMarker "uuid-3") (session dropAndRemove initialState))
   = lastColorIndex (session dropAndRemove initialState))
  /\ (exists m c,
         assetMarkers (apply dropAsset (session dropAndRemove initialState))
         = (assetMarkers (session dropAndRemove initialState) ++ [m])%list
         /\ am_color m = Some c
         /\ nth_error MARKER_COLORS (creations dropAndRemove initialState mod 6) = Some c).
Proof.
  split.
  - exact (proj1 (proj2 (proj2 (asset_marker_colors_round_robin
                                  dropAndRemove (RemoveAssetMarker "uuid-3")))) eq_refl).
  - exact (proj2 (proj2 (proj2 (asset_marker_colors_round_robin dropAndRemove dropAsset)))
             eq_refl).
Defined.

(** ** Arithmetic of the number model *)

Lemma Qltb_spec a b : BoolSpec (a < b) (b <= a) (Qltb a b).
Proof.
  unfold Qltb. destruct (Qle_bool b a) eqn:E; constructor.
  - now apply Qle_bool_iff.
  - apply Qnot_le_lt. intros H. apply Qle_bool_iff in H. congruence.
Qed.

Lemma Qis0_spec a : BoolSpec (a == 0) (~ a == 0) (Qis0 a).
Proof.
  unfold Qis0. destruct (Qeq_bool a 0) eqn:E; constructor.
  - now apply Qeq_bool_iff.
  - now apply Qeq_bool_neq.
Qed.

Lemma div_Fin p q : ~ q == 0 -> (Fin p / Fin q)%num = Fin (p / q).
Proof. intros H. simpl. destruct (Qis0_spec q); [contradiction|reflexivity]. Qed.

Lemma Qdiv_neg_iff a b : 0 < b -> (a / b < 0 <-> a < 0).
Proof.
  intros Hb. split; intros H.
  - assert (E : a == (a / b) * b) by (field; lra).
    rewrite E. setoid_replace 0 with (0 * b) by ring.
    apply Qmult_lt_compat_r; assumption.
  - apply Qlt_shift_div_r; [assumption|lra].
Qed.

Lemma Qdiv_gt1_iff a b : 0 < b -> (1 < a / b <-> b < a).
Proof.
  intros Hb. split; intros H.
  - assert (E : a == (a / b) * b) by (field; lra).
    rewrite E. setoid_replace b with (1 * b) at 1 by ring.
    apply Qmult_lt_compat_r; assumption.
  - apply Qlt_shift_div_l; [assumption|lra].
Qed.

Lemma clamp01_within u : 0 <= clamp01 u /\ clamp01 u <= 1.
Proof.
  unfold clamp01. destruct (Qltb_spec u 0); [lra|].
  destruct (Qltb_spec 1 u); lra.
Qed.

Lemma clamp_axis ix gw :
  0 < gw ->
  eqv (max (Fin 0) (min (Fin ix) (Fin gw)) / Fin gw)%num (Fin (clamp01 (ix / gw))).
Proof.
  intros Hg. unfold clamp01.
  pose proof (Qdiv_neg_iff ix gw Hg) as Hn.
  pose proof (Qdiv_gt1_iff ix gw Hg) as Hp.
  cbn [max min lt].
  destruct (Qltb_spec gw ix) as [H1|H1]; cbn [max lt].
  - destruct (Qltb_spec 0 gw) as [H2|H2]; [|lra].
    rewrite div_Fin by lra. cbn [eqv].
    destruct (Qltb_spec (ix / gw) 0) as [H3|H3]; [apply Hn in H3; lra|].
    destruct (Qltb_spec 1 (ix / gw)) as [H4|H4]; [field; lra|].
    apply Hp in H1. lra.
  - destruct (Qltb_spec 0 ix) as [H2|H2]; rewrite div_Fin by lra; cbn [eqv].
    + destruct (Qltb_spec (ix / gw) 0) as [H3|H3]; [apply Hn in H3; lra|].
      destruct (Qltb_spec 1 (ix / gw)) as [H4|H4]; [apply Hp in H4; lra|reflexivity].
    + destruct (Qltb_spec (ix / gw) 0) as [H3|H3]; [field; lra|].
      destruct (Qltb_spec 1 (ix / gw)) as [H4|H4]; [apply Hp in H4; lra|].
      assert (E : ix == 0).
      { apply Qle_antisym; [assumption|].
        apply Qnot_lt_le. intros H. apply Hn in H. lra. }
      rewrite E. field. lra.
Qed.

Lemma inside_axis ix gw :
  0 < gw -> Qltb ix 0 = false -> Qltb gw ix = false ->
  eqv (Fin ix / Fin gw)%num (Fin (clamp01 (ix / gw))).
Proof.
  intros Hg H0 H1. rewrite div_Fin by lra. cbn [eqv]. unfold clamp01.
  destruct (Qltb_spec ix 0) as [|H0']; [discriminate|].
  destruct (Qltb_spec gw ix) as [|H1']; [discriminate|].
  destruct (Qltb_spec (ix / gw) 0) as [H3|H3];
    [apply (proj1 (Qdiv_neg_iff _ _ Hg)) in H3; lra|].
  destruct (Qltb_spec 1 (ix / gw)) as [H4|H4];
    [apply (proj1 (Qdiv_gt1_iff _ _ Hg)) in H4; lra|reflexivity].
Qed.

Lemma within_eqv lo hi a q : eqv a (Fin q) -> lo <= q /\ q <= hi -> within lo hi a.
Proof.
  destruct a as [p| | |]; cbn; try contradiction. intros E [H1 H2]. rewrite E. now split.
Qed.

(** The transform on finite inputs, axis by axis. *)
Lemma getRelativeCoords_finite dom container app cs (eX eY l t ox oy z gx gy gw gh : Q) :
  canvasRef dom = Some container ->
  left (rect container) = Fin l -> top (rect container) = Fin t ->
  canvasOffset app = {| px := Fin ox; py := Fin oy |} ->
  zoom app = Fin z -> ~ z == 0 ->
  renderedImageGeom cs
  = {| g_x := Fin gx; g_y := Fin gy; g_width := Fin gw; g_height := Fin gh |} ->
  0 < gw -> 0 < gh ->
  exists c,
    getRelativeCoords dom app cs (Fin eX) (Fin eY) = Some c
    /\ eqv (dc_x c) (Fin (clamp01 ((((eX - l) - ox) / z - gx) / gw)))
    /\ eqv (dc_y c) (Fin (clamp01 ((((eY - t) - oy) / z - gy) / gh))).
Proof.
  intros Hc Hl Ht Ho Hz Hz0 Hg Hw Hh.
  unfold getRelativeCoords. rewrite Hc, Hl, Ht, Ho, Hz, Hg.
  cbn [px py g_x g_y g_width g_height sub add neg].
  rewrite !div_Fin by assumption.
  cbn [sub add neg gt lt].
  change (eX + - l + - ox) with (eX - l - ox).
  change (eY + - t + - oy) with (eY - t - oy).
  set (ix := (eX - l - ox) / z + - gx).
  set (iy := (eY - t - oy) / z + - gy).
  change ((eX - l - ox) / z - gx) with ix.
  change ((eY - t - oy) / z - gy) with iy.
  destruct (Qltb ix 0) eqn:E1; cbn [orb];
    [eexists; split; [reflexivity|split; apply clamp_axis; assumption]|].
  destruct (Qltb gw ix) eqn:E2; cbn [orb];
    [eexists; split; [reflexivity|split; apply clamp_axis; assumption]|].
  destruct (Qltb iy 0) eqn:E3; cbn [orb];
    [eexists; split; [reflexivity|split; apply clamp_axis; assumption]|].
  destruct (Qltb gh iy) eqn:E4; cbn [orb];
    [eexists; split; [reflexivity|split; apply clamp_axis; assumption]|].
  eexists; split; [reflexivity|split; apply inside_axis; assumption].
Qed.

(** ** The coordinate transform *)

(** C4.  For finite pointer position, container origin and pan offset, a
    non-zero zoom and a rendered geometry of positive width and height, the
    transform resolves a coordinate whose components both lie in [0, 1]: each
    axis is the unclamped value [((pointer - offset) / zoom - origin) / size]
    clamped, independently of the other axis, to [0, 1]. *)
Theorem getRelativeCoords_clamped :
  forall (dom : Dom) (container : Container) (app : AppState) (cs : CanvasState)
         (eX eY l t ox oy z gx gy gw gh : Q),
    canvasRef dom = Some container ->
    left (rect container) = Fin l -> top (rect container) = Fin t ->
    canvasOffset app = {| px := Fin ox; py := Fin oy |} ->
    zoom app = Fin z -> ~ z == 0 ->
    renderedImageGeom cs
    = {| g_x := Fin gx; g_y := Fin gy; g_width := Fin gw; g_height := Fin gh |} ->
    0 < gw -> 0 < gh ->
    exists c,
      getRelativeCoords dom app cs (Fin eX) (Fin eY) = Some c
      /\ within 0 1 (dc_x c) /\ within 0 1 (dc_y c)
      /\ eqv (dc_x c) (Fin (clamp01 ((((eX - l) - ox) / z - gx) / gw)))
      /\ eqv (dc_y c) (Fin (clamp01 ((((eY - t) - oy) / z - gy) / gh))).
Proof.
  intros dom container app cs eX eY l t ox oy z gx gy gw gh Hc Hl Ht Ho Hz Hz0 Hg Hw Hh.
  destruct (getRelativeCoords_finite dom container app cs eX eY l t ox oy z gx gy gw gh
              Hc Hl Ht Ho Hz Hz0 Hg Hw Hh) as (c & E & Hx & Hy).
  exists c. split; [exact E|]. split; [|split; [|split; assumption]].
  - eapply within_eqv; [exact Hx|apply clamp01_within].
  - eapply within_eqv; [exact Hy|apply clamp01_within].
Qed.

(** A pointer right of the image and half way down: x clamps to 1. *)
Lemma getRelativeCoords_clamped_witness :
  exists c,
    getRelativeCoords dom800x600 loaded squareInWide (Fin 1000) (Fin 300) = Some c
    /\ within 0 1 (dc_x c) /\ within 0 1 (dc_y c)
    /\ eqv (dc_x c) (Fin (clamp01 ((((1000 - 0) - 0) / 1 - 100) / 600)))
    /\ eqv (dc_y c) (Fin (clamp01 ((((300 - 0) - 0) / 1 - 0) / 600))).
Proof.
  apply (getRelativeCoords_clamped dom800x600 container800x600 loaded squareInWide
           1000 300 0 0 0 0 1 100 0 600 600); try reflexivity.
  intros H. discriminate H.
Defined.

(** ** Zooming about the cursor *)

Lemma eqv_refl a : eqv a a.
Proof. destruct a; cbn; auto. reflexivity. Qed.

Lemma Qltb_eqv p p' q q' : p == p' -> q == q' -> Qltb p q = Qltb p' q'.
Proof. intros H H'. unfold Qltb. now rewrite H, H'. Qed.

Lemma Qis0_eqv p p' : p == p' -> Qis0 p = Qis0 p'.
Proof. intros H. unfold Qis0. now rewrite H. Qed.

Lemma add_eqv_l a a' b : eqv a a' -> eqv (a + b)%num (a' + b)%num.
Proof.
  destruct a, a', b; cbn; try contradiction; auto. intros H. now rewrite H.
Qed.

Lemma sub_eqv_l a a' b : eqv a a' -> eqv (a - b)%num (a' - b)%num.
Proof. apply add_eqv_l. Qed.

Lemma lt_eqv_l a a' b : eqv a a' -> lt a b = lt a' b.
Proof.
  destruct a, a', b; cbn; try contradiction; auto. intros H.
  apply Qltb_eqv; [assumption|reflexivity].
Qed.

Lemma lt_eqv_r a b b' : eqv b b' -> lt a b = lt a b'.
Proof.
  destruct a, b, b'; cbn; try contradiction; auto. intros H.
  apply Qltb_eqv; [reflexivity|assumption].
Qed.

Lemma min_eqv_l a a' b : eqv a a' -> eqv (min a b) (min a' b).
Proof.
  intros H. pose proof (lt_eqv_r b a a' H) as E.
  destruct a, a', b; cbn in *; try contradiction; auto; try reflexivity.
  rewrite E. destruct (Qltb q1 q0); cbn; [reflexivity|assumption].
Qed.

Lemma max_eqv_r a b b' : eqv b b' -> eqv (max a b) (max a b').
Proof.
  intros H. pose proof (lt_eqv_r a b b' H) as E.
  destruct a, b, b'; cbn in *; try contradiction; auto; try reflexivity.
  rewrite E. destruct (Qltb q q1); cbn; [assumption|reflexivity].
Qed.

Lemma div_eqv_l a a' b : eqv a a' -> eqv (a / b)%num (a' / b)%num.
Proof.
  destruct a as [p| | |], a' as [p'| | |], b as [q| | |];
    cbn; try contradiction; auto; try reflexivity.
  - intros H. destruct (Qis0 q).
    + rewrite (Qis0_eqv p p' H). destruct (Qis0 p'); [exact I|].
      rewrite (Qltb_eqv 0 0 p p' (Qeq_refl 0) H). destruct (Qltb 0 p'); exact I.
    + cbn. now rewrite H.
  - intros _. destruct (Qltb q 0); exact I.
  - intros _. destruct (Qltb q 0); exact I.
Qed.

Lemma getRelativeCoords_unfold dom app cs eX eY :
  getRelativeCoords dom app cs eX eY
  = option_map
      (fun container =>
         coordsFromPre (renderedImageGeom cs)
           ((eX - left (rect container) - px (canvasOffset app)) / zoom app)%num
           ((eY - top (rect container) - py (canvasOffset app)) / zoom app)%num)
      (canvasRef dom).
Proof.
  unfold getRelativeCoords, coordsFromPre. destruct (canvasRef dom); cbn [option_map]; [|reflexivity].
  match goal with |- (if ?b then _ else _) = _ => destruct b end; reflexivity.
Qed.

Lemma coordsFromPre_eqv geom x x' y y' :
  eqv x x' -> eqv y y' ->
  eqv (dc_x (coordsFromPre geom x y)) (dc_x (coordsFromPre geom x' y'))
  /\ eqv (dc_y (coordsFromPre geom x y)) (dc_y (coordsFromPre geom x' y')).
Proof.
  intros Hx Hy. unfold coordsFromPre.
  pose proof (sub_eqv_l x x' (g_x geom) Hx) as Ex.
  pose proof (sub_eqv_l y y' (g_y geom) Hy) as Ey.
  unfold gt.
  rewrite (lt_eqv_l _ _ (Fin 0) Ex), (lt_eqv_r (g_width geom) _ _ Ex),
          (lt_eqv_l _ _ (Fin 0) Ey), (lt_eqv_r (g_height geom) _ _ Ey).
  match goal with |- context [if ?b then _ else _] => destruct b end; cbn [dc_x dc_y].
  - split; apply div_eqv_l, max_eqv_r, min_eqv_l; assumption.
  - split; apply div_eqv_l; assumption.
Qed.

Lemma eqv_sym a b : eqv a b -> eqv b a.
Proof. destruct a, b; cbn; auto. intros H. now symmetry. Qed.

Lemma sameCoords_refl c : sameCoords c c.
Proof. destruct c; cbn; [split; apply eqv_refl|exact I]. Qed.

(** The pan offset of the source keeps the pre-transform position of the
    zoom centre [c], seen from a pointer [m] at that point. *)
Lemma zoom_keeps_pretransform_at (m c o z nz : Q) :
  m == c -> ~ z == 0 -> ~ nz == 0 ->
  eqv ((Fin m - Fin o) / Fin z)%num
      ((Fin m - (Fin c - Fin nz / Fin z * (Fin c - Fin o))) / Fin nz)%num.
Proof.
  intros Hm Hz Hnz. rewrite (div_Fin nz z Hz). cbn [sub add neg mul].
  rewrite !div_Fin by assumption. cbn [eqv]. rewrite Hm. field. split; assumption.
Qed.

(** A zoom step about the container point [(cX, cY)], seen from a pointer
    at that point. *)
Lemma zoom_step_same_coords dom container app app' cs (eX eY cX cY l t ox oy z nz : Q) :
  canvasRef dom = Some container ->
  left (rect container) = Fin l -> top (rect container) = Fin t ->
  canvasOffset app = {| px := Fin ox; py := Fin oy |} ->
  zoom app = Fin z -> ~ z == 0 -> ~ nz == 0 ->
  eX - l == cX -> eY - t == cY ->
  zoom app' = Fin nz ->
  canvasOffset app'
  = {| px := (Fin cX - Fin nz / Fin z * (Fin cX - Fin ox))%num;
       py := (Fin cY - Fin nz / Fin z * (Fin cY - Fin oy))%num |} ->
  sameCoords (getRelativeCoords dom app cs (Fin eX) (Fin eY))
             (getRelativeCoords dom app' cs (Fin eX) (Fin eY)).
Proof.
  intros Hc Hl Ht Ho Hz Hz0 Hnz HX HY Hz' Ho'.
  rewrite !getRelativeCoords_unfold, Hc. cbn [option_map sameCoords].
  rewrite Hl, Ht, Ho, Hz, Hz', Ho'. cbn [px py].
  apply coordsFromPre_eqv.
  - change (Fin eX - Fin l)%num with (Fin (eX - l)).
    apply zoom_keeps_pretransform_at; assumption.
  - change (Fin eY - Fin t)%num with (Fin (eY - t)).
    apply zoom_keeps_pretransform_at; assumption.
Qed.

Lemma zoomOut_target z :
  0 < z -> exists nz, max (Fin z / ZOOM_STEP)%num MIN_ZOOM = Fin nz /\ 0 < nz.
Proof.
  intros Hz. unfold ZOOM_STEP, MIN_ZOOM. rewrite div_Fin by (intros H; discriminate H).
  cbn [max lt]. destruct (Qltb_spec (z / (12 # 10)) (2 # 10)) as [H|H]; eexists; split;
    try reflexivity; lra.
Qed.

Lemma zoomIn_target z :
  0 < z -> exists nz, min (Fin z * ZOOM_STEP)%num MAX_ZOOM = Fin nz /\ 0 < nz.
Proof.
  intros Hz. unfold ZOOM_STEP, MAX_ZOOM. cbn [mul min lt].
  destruct (Qltb_spec 5 (z * (12 # 10))) as [H|H]; eexists; split; try reflexivity; lra.
Qed.

(** C5.  A zoom step keeps the normalized image coordinate under the zoom
    centre: for a wheel notch at the pointer, and for the zoom-in and zoom-out
    buttons seen from the centre of the container, the transform of that
    point is the same before and after the step (exactly, in rational
    arithmetic).  A wheel notch either changes nothing or sets the zoom to
    [newZoom] and the pan offset to
    [mousePos - (newZoom / oldZoom) * (mousePos - oldOffset)]. *)
Theorem zoom_about_cursor_invariant :
  forall (env : Collaborators) (dom : Dom) (container : Container) (app : AppState)
         (cs : CanvasState) (dY : num) (mX mY l t w h ox oy z : Q),
    canvasRef dom = Some container ->
    rect container = {| left := Fin l; top := Fin t; width := Fin w; height := Fin h |} ->
    canvasOffset app = {| px := Fin ox; py := Fin oy |} ->
    zoom app = Fin z -> 0 < z ->
    let e := {| w_clientX := Fin mX; w_clientY := Fin mY; deltaY := dY |} in
    sameCoords (getRelativeCoords dom app cs (Fin mX) (Fin mY))
               (getRelativeCoords dom (dispatchAll env (handleWheel dom app e) app) cs
                                  (Fin mX) (Fin mY))
    /\ (handleWheel dom app e = []
        \/ exists nz,
             0 < nz
             /\ handleWheel dom app e
                = [setZoom (Fin nz);
                   setCanvasOffset
                     {| px := (Fin (mX - l) - Fin nz / Fin z * (Fin (mX - l) - Fin ox))%num;
                        py := (Fin (mY - t) - Fin nz / Fin z * (Fin (mY - t) - Fin oy))%num |}])
    /\ sameCoords
         (getRelativeCoords dom app cs (Fin (l + w / 2)) (Fin (t + h / 2)))
         (getRelativeCoords dom (handleZoomIn (option_map rect (canvasRef dom)) app) cs
                            (Fin (l + w / 2)) (Fin (t + h / 2)))
    /\ sameCoords
         (getRelativeCoords dom app cs (Fin (l + w / 2)) (Fin (t + h / 2)))
         (getRelativeCoords dom (handleZoomOut (option_map rect (canvasRef dom)) app) cs
                            (Fin (l + w / 2)) (Fin (t + h / 2))).
Proof.
  intros env dom container app cs dY mX mY l t w h ox oy z Hc Hr Ho Hz Hz0 e.
  assert (Hl : left (rect container) = Fin l) by now rewrite Hr.
  assert (Ht : top (rect container) = Fin t) by now rewrite Hr.
  assert (Hzn : ~ z == 0) by lra.
  destruct (zoomOut_target z Hz0) as (zo & Ezo & Hzo).
  destruct (zoomIn_target z Hz0) as (zi & Ezi & Hzi).
  assert (Hwheel :
    handleWheel dom app e = []
    \/ exists nz,
         0 < nz
         /\ handleWheel dom app e
            = [setZoom (Fin nz);
               setCanvasOffset
                 {| px := (Fin (mX - l) - Fin nz / Fin z * (Fin (mX - l) - Fin ox))%num;
                    py := (Fin (mY - t) - Fin nz / Fin z * (Fin (mY - t) - Fin oy))%num |}]).
  { unfold handleWheel. rewrite Hc, Hl, Ht, Ho, Hz.
    destruct (displayImage app); [|now left].
    destruct (isDisabled app); [now left|].
    cbn [w_clientX w_clientY deltaY e px py].
    destruct (dY >? Fin 0)%num.
    - rewrite Ezo. destruct (same_num (Fin zo) (Fin z)); [now left|].
      right. exists zo. split; [assumption|reflexivity].
    - rewrite Ezi. destruct (same_num (Fin zi) (Fin z)); [now left|].
      right. exists zi. split; [assumption|reflexivity]. }
  split; [|split; [exact Hwheel|split]].
  - destruct Hwheel as [->|(nz & Hnz & ->)]; [apply sameCoords_refl|].
    cbn [dispatchAll fold_left dispatch].
    eapply (zoom_step_same_coords dom container app _ cs mX mY (mX - l) (mY - t)
              l t ox oy z nz); try eassumption; try reflexivity. lra.
  - rewrite Hc. cbn [option_map]. unfold handleZoomIn. rewrite Hz, Ezi.
    destruct (same_num (Fin zi) (Fin z)); [apply sameCoords_refl|].
    unfold zoomAbout. rewrite Hr, Ho, Hz. cbn [width height px py].
    rewrite !div_Fin by (intros H; discriminate H).
    eapply (zoom_step_same_coords dom container app _ cs _ _ (w / 2) (h / 2)
              l t ox oy z zi); try eassumption; try reflexivity; try lra.
  - rewrite Hc. cbn [option_map]. unfold handleZoomOut. rewrite Hz, Ezo.
    destruct (same_num (Fin zo) (Fin z)); [apply sameCoords_refl|].
    unfold zoomAbout. rewrite Hr, Ho, Hz. cbn [width height px py].
    rewrite !div_Fin by (intros H; discriminate H).
    eapply (zoom_step_same_coords dom container app _ cs _ _ (w / 2) (h / 2)
              l t ox oy z zo); try eassumption; try reflexivity; try lra.
Qed.

Lemma zoom_about_cursor_invariant_witness :
  sameCoords
    (getRelativeCoords dom800x600 zoomedWithResult squareInWide (Fin 250) (Fin 120))
    (getRelativeCoords dom800x600
       (dispatchAll answering
          (handleWheel dom800x600 zoomedWithResult (wheelAt 250 120 (-100)))
          zoomedWithResult)
       squareInWide (Fin 250) (Fin 120)).
Proof.
  exact (proj1 (zoom_about_cursor_invariant answering dom800x600 container800x600
                  zoomedWithResult squareInWide (Fin (-100)) 250 120 0 0 800 600 30 40 2
                  eq_refl eq_refl eq_refl eq_refl eq_refl)).
Defined.

(** ** Degenerate geometry *)

Lemma carriesNoCoordinate_app l l' :
  forallb carriesNoCoordinate l = true -> forallb carriesNoCoordinate l' = true ->
  forallb carriesNoCoordinate (l ++ l') = true.
Proof. intros H H'. now rewrite forallb_app, H, H'. Qed.

(** C3, as the code has it.  The transform reports no resolved coordinate
    exactly when the container element is missing; for such an event no
    handler adds a marker, moves a marker, moves the compare slider or triggers
    an asset drop, hover resolution reports no label and the drop indicator
    gets no position.  The rendered geometry starts as 1 by 1 and recomputing
    it while the image has zero natural width or height leaves it unchanged;
    and for finite inputs, a non-zero zoom and a geometry of positive width
    and height the resolved coordinate is finite on both axes. *)
Theorem getRelativeCoords_guards :
  forall (dom : Dom) (app : AppState) (cs : CanvasState),
    (forall eX eY, getRelativeCoords dom app cs eX eY = None <-> canvasRef dom = None)
    /\ (canvasRef dom = None ->
        (forall e, forallb carriesNoCoordinate (snd (handleMouseUp dom app cs e)) = true)
        /\ (forall e, forallb carriesNoCoordinate (snd (handleMouseMove dom app cs e)) = true)
        /\ (forall e, forallb carriesNoCoordinate (snd (handleDrop dom app cs e)) = true)
        /\ (forall e, forallb carriesNoCoordinate (snd (handleDragOver dom app cs e)) = true
                      /\ (dropIndicator (fst (handleDragOver dom app cs e)) = None
                          \/ dropIndicator (fst (handleDragOver dom app cs e))
                             = dropIndicator cs)))
    /\ renderedImageGeom initialCanvas
       = {| g_x := Fin 0; g_y := Fin 0; g_width := Fin 1; g_height := Fin 1 |}
    /\ (forall img,
           imageRef dom = Some img ->
           naturalWidth img = 0%Z \/ naturalHeight img = 0%Z ->
           calculateGeom dom cs = cs)
    /\ (forall container (eX eY l t ox oy z gx gy gw gh : Q),
           canvasRef dom = Some container ->
           left (rect container) = Fin l -> top (rect container) = Fin t ->
           canvasOffset app = {| px := Fin ox; py := Fin oy |} ->
           zoom app = Fin z -> ~ z == 0 ->
           renderedImageGeom cs
           = {| g_x := Fin gx; g_y := Fin gy; g_width := Fin gw; g_height := Fin gh |} ->
           0 < gw -> 0 < gh ->
           exists c,
             getRelativeCoords dom app cs (Fin eX) (Fin eY) = Some c
             /\ is_finite (dc_x c) /\ is_finite (dc_y c)).
Proof.
  intros dom app cs. split; [|split; [|split; [|split]]].
  - intros eX eY. unfold getRelativeCoords. destruct (canvasRef dom); split; try congruence.
    match goal with |- (if ?b then _ else _) = _ -> _ => destruct b end; discriminate.
  - intros Hc. repeat apply conj.
    + intros e. unfold handleMouseUp, getRelativeCoords. rewrite Hc.
      destruct (isPanning cs && negb (didDrag cs) && negb (targetInMarker e));
        cbn [snd]; apply carriesNoCoordinate_app; try reflexivity;
        now destruct (isSliderDragging app).
    + intros e. unfold handleMouseMove, getRelativeCoords. rewrite Hc.
      destruct (isPanning cs) eqn:Ep, (draggedMarker cs) as [dm|] eqn:Em,
               (isSliderDragging app);
        try reflexivity;
        match goal with
        | |- context [if didDrag ?c then _ else _] => destruct (didDrag c)
        end; reflexivity.
    + intros e. unfold handleDrop, getRelativeCoords. rewrite Hc.
      destruct (isDisabled app); [reflexivity|].
      destruct (negb (String.eqb (d_assetId e) "")), (displayImage app), (d_files e);
        reflexivity.
    + intros e. unfold handleDragOver, getRelativeCoords. rewrite Hc.
      destruct (isDisabled app); [split; [reflexivity|now right]|].
      destruct (includes (d_types e) "application/x-asset-id");
        [split; [reflexivity|now left]|].
      destruct (includes (d_types e) "Files"); split; try reflexivity; now right.
  - reflexivity.
  - intros img Hi Hz. unfold calculateGeom. rewrite Hi.
    destruct (canvasRef dom); [|reflexivity].
    destruct Hz as [-> | ->]; cbn; [reflexivity|].
    now rewrite orb_true_r.
  - intros container eX eY l t ox oy z gx gy gw gh Hc Hl Ht Ho Hz Hz0 Hg Hw Hh.
    destruct (getRelativeCoords_finite dom container app cs eX eY l t ox oy z gx gy gw gh
                Hc Hl Ht Ho Hz Hz0 Hg Hw Hh) as (c & E & Hx & Hy).
    exists c. split; [exact E|].
    split; [destruct (dc_x c)|destruct (dc_y c)]; cbn in *; auto.
Qed.

(** Without a container a click, a move and an asset drag resolve nothing;
    an image that has not loaded leaves the initial geometry in place; and a
    pointer on the letterboxed image resolves to finite coordinates. *)
Lemma getRelativeCoords_guards_witness :
  (forallb carriesNoCoordinate (snd (handleMouseUp unmounted loaded squareInWide (mouseAt 10 10)))
   = true
   /\ forallb carriesNoCoordinate
        (snd (handleMouseMove unmounted loaded squareInWide (mouseAt 10 10))) = true
   /\ forallb carriesNoCoordinate
        (snd (handleDrop unmounted withAsset squareInWide (assetDragAt 10 10))) = true)
  /\ calculateGeom loadingDom initialCanvas = initialCanvas
  /\ (exists c,
         getRelativeCoords dom800x600 loaded squareInWide (Fin 250) (Fin 120) = Some c
         /\ is_finite (dc_x c) /\ is_finite (dc_y c)).
Proof.
  split; [|split].
  - destruct (proj1 (proj2 (getRelativeCoords_guards unmounted loaded squareInWide)) eq_refl)
      as (Hup & Hmove & _).
    destruct (proj1 (proj2 (getRelativeCoords_guards unmounted withAsset squareInWide))
                eq_refl) as (_ & _ & Hdrop & _).
    split; [apply Hup|split; [apply Hmove|apply Hdrop]].
  - exact (proj1 (proj2 (proj2 (proj2 (getRelativeCoords_guards loadingDom loaded
                                         initialCanvas))))
             {| naturalWidth := 0; naturalHeight := 0 |} eq_refl (or_introl eq_refl)).
  - apply (proj2 (proj2 (proj2 (proj2 (getRelativeCoords_guards dom800x600 loaded
                                         squareInWide))))
             container800x600 250 120 0 0 0 0 1 100 0 600 600); try reflexivity.
    intros H. discriminate H.
Defined.

(** C3 as stated fails on a geometry of zero width and height: the transform
    resolves a coordinate whose components are NaN, and a click then adds a
    marker at that coordinate. *)
Lemma zero_geometry_resolves_NaN :
  g_width (renderedImageGeom collapsed) = Fin 0
  /\ getRelativeCoords dom800x600 loaded collapsed (Fin 10) (Fin 10)
     = Some {| dc_x := NaN; dc_y := NaN |}
  /\ markers loaded = []
  /\ markers (fst (fst (run answering dom800x600 (loaded, collapsed) (click 10 10))))
     = [{| em_id := "uuid-1"; em_x := NaN; em_y := NaN; em_prompt := "";
           em_targetObjectLabel := None |}].
Proof. repeat split. Qed.

(** ** Click or pan *)

Lemma run_app env dom st evs evs' :
  run env dom st (evs ++ evs')
  = let '(st1, calls1) := run env dom st evs in
    let '(st2, calls2) := run env dom st1 evs' in
    (st2, (calls1 ++ calls2)%list).
Proof.
  revert st. induction evs as [|ev evs IH]; intros st.
  - cbn [app run]. now destruct (run env dom st evs') as [[a c] l].
  - cbn [app run]. destruct (step env dom st ev) as [[a c] l]. rewrite IH.
    destruct (run env dom (a, c) evs) as [[a1 c1] l1].
    destruct (run env dom (a1, c1) evs') as [[a2 c2] l2].
    now rewrite app_assoc.
Qed.

Lemma getRelativeCoords_ext dom app app' cs cs' eX eY :
  canvasOffset app' = canvasOffset app -> zoom app' = zoom app ->
  renderedImageGeom cs' = renderedImageGeom cs ->
  getRelativeCoords dom app' cs' eX eY = getRelativeCoords dom app cs eX eY.
Proof. intros Ho Hz Hg. rewrite !getRelativeCoords_unfold. now rewrite Ho, Hz, Hg. Qed.





Lemma getRelativeCoords_some dom container app cs eX eY :
  canvasRef dom = Some container ->
  exists c, getRelativeCoords dom app cs eX eY = Some c.
Proof. intros Hc. rewrite getRelativeCoords_unfold, Hc. cbn. eauto. Qed.

Lemma to_long_of_Z z : to_long (Fin (inject_Z z)) = z.
Proof.
  unfold to_long. destruct (Qltb (inject_Z z) 0).
  - change (- inject_Z z) with (inject_Z (- z)). rewrite Qfloor_Z. lia.
  - apply Qfloor_Z.
Qed.


Lemma isLong_of_Z z : isLong (Fin (inject_Z z)) <-> (LONG_MIN <= z <= LONG_MAX)%Z.
Proof.
  unfold isLong.
  change (inject_Z LONG_MIN - 1) with (inject_Z (LONG_MIN - 1)).
  change (inject_Z LONG_MAX + 1) with (inject_Z (LONG_MAX + 1)).
  rewrite <- !Zlt_Qlt. lia.
Qed.

Lemma enforce_long_floor a :
  match enforce_long (floor a) with
  | Some _ => isLong (floor a)
  | None => ~ isLong (floor a)
  end.
Proof.
  destruct a as [q| | |]; cbn [floor]; try (cbn; tauto).
  unfold enforce_long. cbv zeta. rewrite to_long_of_Z.
  destruct (Z.ltb_spec (Qfloor q) LONG_MIN), (Z.ltb_spec LONG_MAX (Qfloor q));
    cbn [orb]; rewrite isLong_of_Z; lia.
Qed.

(** The lookup throws exactly when one of the two numbers it hands to
    [getImageData] is not a finite number in the range of a [long], and only
    when there are a canvas and masks to look into. *)
Lemma getLabelFromHitMap_thrown hc seg coords :
  getLabelFromHitMap (Some hc) (Some seg) coords = Thrown
  <-> ~ (isLong (floor (dc_x coords * of_Z (hc_width hc))%num)
         /\ isLong (floor (dc_y coords * of_Z (hc_height hc))%num)).
Proof.
  unfold getLabelFromHitMap. cbv zeta.
  pose proof (enforce_long_floor (dc_x coords * of_Z (hc_width hc))%num) as Hx.
  pose proof (enforce_long_floor (dc_y coords * of_Z (hc_height hc))%num) as Hy.
  destruct (enforce_long (floor (dc_x coords * of_Z (hc_width hc))%num)) as [sx|].
  - destruct (enforce_long (floor (dc_y coords * of_Z (hc_height hc))%num)) as [sy|].
    + split.
      * destruct (_ && _)%bool; intros H; discriminate H.
      * intros H. exfalso. apply H. now split.
    + split; [|reflexivity]. intros _ [_ H]. now apply Hy.
  - split; [|reflexivity]. intros _ [H _]. now apply Hx.
Qed.

Lemma Qfloor_scaled_within u z :
  0 <= u -> u <= 1 -> (0 <= z)%Z -> (0 <= Qfloor (u * inject_Z z) <= z)%Z.
Proof.
  intros H0 H1 Hz.
  assert (Hq : 0 <= inject_Z z) by (change 0 with (inject_Z 0); now rewrite <- Zle_Qle).
  split.
  - change 0%Z with (Qfloor 0). apply Qfloor_resp_le. nra.
  - rewrite <- (Qfloor_Z z) at 2. apply Qfloor_resp_le. nra.
Qed.

Lemma isLong_on_picture a z :
  within 0 1 a -> (0 <= z <= LONG_MAX)%Z -> isLong (floor (a * of_Z z)%num).
Proof.
  destruct a as [u| | |]; cbn [within]; try contradiction.
  intros [H0 H1] [Hz Hm]. unfold of_Z. cbn [mul floor]. rewrite isLong_of_Z.
  pose proof (Qfloor_scaled_within u z H0 H1 Hz). unfold LONG_MIN. lia.
Qed.

(** On the picture and with a canvas of a size that a canvas can have, the
    lookup does not throw. *)
Lemma labelAt_on_picture app cs c :
  canvasSized (hitCanvas cs) -> onPicture c -> labelAt app cs c <> Thrown.
Proof.
  intros Hs [Hx Hy]. unfold labelAt.
  destruct (hitCanvas cs) as [hc|], (segmentationData app) as [seg|];
    try discriminate.
  destruct Hs as [Hw Hh]. rewrite getLabelFromHitMap_thrown.
  intros H. apply H. split; now apply isLong_on_picture.
Qed.

Lemma labelAt_no_masks app cs c : segmentationData app = None -> labelAt app cs c = Found None.
Proof. intros H. unfold labelAt. rewrite H. now destruct (hitCanvas cs). Qed.





(** ** The hit map *)

Section HitMapFacts.
Variable decodeMask : string -> Z -> Z -> Z -> Z -> Z.

Lemma maskOnload_size index maskData hc :
  hc_width (maskOnload decodeMask index maskData hc) = hc_width hc
  /\ hc_height (maskOnload decodeMask index maskData hc) = hc_height hc.
Proof.
  unfold maskOnload. now destruct ((hc_width hc =? 0) || (hc_height hc =? 0))%Z.
Qed.

Lemma afterLoads_size segmentationData loads hc :
  hc_width (afterLoads decodeMask segmentationData loads hc) = hc_width hc
  /\ hc_height (afterLoads decodeMask segmentationData loads hc) = hc_height hc.
Proof.
  revert hc. unfold afterLoads.
  induction loads as [|index loads IH]; intros hc; [now split|].
  cbn [fold_left]. destruct (nth_error segmentationData index) as [maskData|].
  - destruct (IH (maskOnload decodeMask index maskData hc)) as [Hw Hh].
    destruct (maskOnload_size index maskData hc) as [Hw' Hh'].
    split; congruence.
  - apply IH.
Qed.

(** A mask that loads repaints the whole canvas: what was drawn before it
    does not matter. *)
Lemma maskOnload_overwrites index maskData hc hc' :
  hc_width hc = hc_width hc' -> hc_height hc = hc_height hc' ->
  hc_width hc <> 0%Z -> hc_height hc <> 0%Z ->
  maskOnload decodeMask index maskData hc = maskOnload decodeMask index maskData hc'.
Proof.
  intros Hw Hh Hw0 Hh0. unfold maskOnload. rewrite <- Hw, <- Hh.
  destruct (Z.eqb_spec (hc_width hc) 0); [contradiction|].
  destruct (Z.eqb_spec (hc_height hc) 0); [contradiction|].
  cbn [orb]. unfold drawImage_destination_in, fillRect. cbn. now rewrite <- Hw, <- Hh.
Qed.

(** Once the mask images have loaded, the canvas is what the mask that loaded
    last alone paints: its index where it has alpha, nothing elsewhere. *)
Lemma afterLoads_last segmentationData loads index maskData hc :
  nth_error segmentationData index = Some maskData ->
  hc_width hc <> 0%Z -> hc_height hc <> 0%Z ->
  afterLoads decodeMask segmentationData (loads ++ [index]) hc
  = maskOnload decodeMask index maskData hc.
Proof.
  intros Hn Hw Hh. unfold afterLoads. rewrite fold_left_app. cbn [fold_left]. rewrite Hn.
  destruct (afterLoads_size segmentationData loads hc) as [Ew Eh].
  unfold afterLoads in Ew, Eh.
  apply maskOnload_overwrites; congruence.
Qed.

Lemma div_round_scale c : (0 <= c)%Z -> div_round (c * 255) 255 = c.
Proof.
  intros H. unfold div_round.
  replace (2 * (c * 255) + 255)%Z with (c * (2 * 255) + 255)%Z by ring.
  rewrite Z.div_add_l by discriminate. change (255 / (2 * 255))%Z with 0%Z. ring.
Qed.

(** A stored pixel that is opaque reads back as it is. *)
Lemma unpremultiply_rgb00 b : (0 <= b)%Z -> unpremultiply (rgb00 b) = rgb00 b.
Proof.
  intros H. unfold unpremultiply, rgb00. cbn [alpha red green blue Z.eqb].
  rewrite !div_round_scale by lia. f_equal. lia.
Qed.

(** Where the image of the mask is opaque the pixel is the fill colour, where
    it is clear the pixel is transparent. *)
Lemma maskOnload_pixel index maskData hc x y :
  hc_width hc <> 0%Z -> hc_height hc <> 0%Z ->
  decodeMask (sm_mask maskData) (hc_width hc) (hc_height hc) x y = 0%Z
  \/ decodeMask (sm_mask maskData) (hc_width hc) (hc_height hc) x y = 255%Z ->
  hc_data (maskOnload decodeMask index maskData hc) x y
  = if (decodeMask (sm_mask maskData) (hc_width hc) (hc_height hc) x y =? 0)%Z
    then transparent
    else rgb00 (Z.of_nat index + 1).
Proof.
  intros Hw Hh Ha. unfold maskOnload.
  destruct (Z.eqb_spec (hc_width hc) 0); [contradiction|].
  destruct (Z.eqb_spec (hc_height hc) 0); [contradiction|].
  cbn [orb hc_data drawImage_destination_in fillRect hc_width hc_height rgb00
       red green blue alpha].
  destruct Ha as [-> | ->]; cbn [Z.eqb].
  - rewrite !Z.mul_0_r. reflexivity.
  - rewrite !div_round_scale by lia. reflexivity.
Qed.
End HitMapFacts.

(** C1 on the code.  Whatever the masks and the order their images load
    in, the buffer has the natural size of the image and, after the loads, is
    what the mask that loaded last paints on its own: for a mask image with
    no partly transparent pixel (alpha 0 or 255 everywhere), its fill colour
    [rgb(0, 0, index + 1)] where that mask is opaque and nothing elsewhere,
    both as stored and as [getImageData] reads it back, earlier masks being
    erased by its [fillRect] and [destination-in].  So, for a 2 by 1 image and two
    non-overlapping masks loaded in list order, a lookup inside the first mask
    returns no label; loaded in the other order it is the second mask that is
    lost; and with two overlapping masks whose images load in the order 1, 0,
    the overlapping pixel returns the label of mask 0. *)
Theorem hit_map_keeps_last_loaded_mask_only :
  (forall (decodeMask : string -> Z -> Z -> Z -> Z -> Z)
          (segmentationData : list SegmentationMask) (loads : list nat) (index : nat)
          (maskData : SegmentationMask) (img : Img),
      nth_error segmentationData index = Some maskData ->
      naturalWidth img <> 0%Z -> naturalHeight img <> 0%Z ->
      binaryMask decodeMask maskData (naturalWidth img) (naturalHeight img) ->
      exists hc,
        buildHitMap decodeMask img segmentationData (loads ++ [index]) = Some hc
        /\ hc_width hc = naturalWidth img /\ hc_height hc = naturalHeight img
        /\ (forall x y,
               hc_data hc x y
               = if (decodeMask (sm_mask maskData) (naturalWidth img) (naturalHeight img)
                                x y =? 0)%Z
                 then transparent
                 else rgb00 (Z.of_nat index + 1))
        /\ (forall x y,
               (0 <= x < naturalWidth img)%Z -> (0 <= y < naturalHeight img)%Z ->
               getImageData hc x y
               = if (decodeMask (sm_mask maskData) (naturalWidth img) (naturalHeight img)
                                x y =? 0)%Z
                 then transparent
                 else rgb00 (Z.of_nat index + 1)))
  /\ getLabelFromHitMap (buildHitMap bitmapMask img2x1 leftAndRight [0; 1]%nat)
                        (Some leftAndRight) leftPixel = Found None
  /\ getLabelFromHitMap (buildHitMap bitmapMask img2x1 leftAndRight [0; 1]%nat)
                        (Some leftAndRight) rightPixel = Found (Some "B")
  /\ getLabelFromHitMap (buildHitMap bitmapMask img2x1 leftAndRight [1; 0]%nat)
                        (Some leftAndRight) leftPixel = Found (Some "A")
  /\ getLabelFromHitMap (buildHitMap bitmapMask img2x1 leftAndRight [1; 0]%nat)
                        (Some leftAndRight) rightPixel = Found None
  /\ getLabelFromHitMap (buildHitMap bitmapMask img2x1 overlapping [1; 0]%nat)
                        (Some overlapping) rightPixel = Found (Some "A").
Proof.
  split; [|repeat split].
  intros decodeMask segmentationData loads index maskData img Hn Hw Hh Hbin.
  unfold buildHitMap, hitMapEffect.
  destruct (Z.eqb_spec (naturalWidth img) 0); [contradiction|].
  destruct (Z.eqb_spec (naturalHeight img) 0); [contradiction|].
  cbn [orb option_map].
  rewrite (afterLoads_last decodeMask segmentationData loads index maskData _ Hn)
    by assumption.
  eexists. split; [reflexivity|].
  destruct (maskOnload_size decodeMask index maskData
              (clearRect (resize (naturalWidth img) (naturalHeight img)))) as [Ew Eh].
  cbn [hc_width hc_height clearRect resize] in Ew, Eh.
  split; [exact Ew|]. split; [exact Eh|].
  assert (Hdata : forall x y,
             hc_data (maskOnload decodeMask index maskData
                        (clearRect (resize (naturalWidth img) (naturalHeight img)))) x y
             = if (decodeMask (sm_mask maskData) (naturalWidth img) (naturalHeight img)
                              x y =? 0)%Z
               then transparent
               else rgb00 (Z.of_nat index + 1)).
  { intros x y. rewrite maskOnload_pixel; [reflexivity|assumption|assumption|apply Hbin]. }
  split; [exact Hdata|].
  intros x y Hx Hy. unfold getImageData. rewrite Ew, Eh, Hdata.
  destruct (Z.leb_spec 0 x); [|lia]. destruct (Z.ltb_spec x (naturalWidth img)); [|lia].
  destruct (Z.leb_spec 0 y); [|lia]. destruct (Z.ltb_spec y (naturalHeight img)); [|lia].
  cbn [andb].
  destruct (decodeMask (sm_mask maskData) (naturalWidth img) (naturalHeight img) x y =? 0)%Z;
    [reflexivity|].
  apply unpremultiply_rgb00. lia.
Qed.

Lemma bitmapMask_binary maskData w h : binaryMask bitmapMask maskData w h.
Proof.
  intros x y. unfold bitmapMask. destruct (_ && _)%bool; [|now left].
  destruct (String.get _ _) as [[[] [] [] [] [] [] [] []]|]; auto.
Qed.

(** Two masks over a 2 by 1 image, [A] loading before [B]: the buffer is
    what [B] paints. *)
Lemma hit_map_keeps_last_loaded_mask_only_witness :
  exists hc,
    buildHitMap bitmapMask img2x1 leftAndRight ([0%nat] ++ [1%nat]) = Some hc
    /\ hc_width hc = 2%Z /\ hc_height hc = 1%Z
    /\ (forall x y,
           hc_data hc x y
           = if (bitmapMask "01" 2 1 x y =? 0)%Z then transparent
             else rgb00 (Z.of_nat 1 + 1))
    /\ (forall x y,
           (0 <= x < 2)%Z -> (0 <= y < 1)%Z ->
           getImageData hc x y
           = if (bitmapMask "01" 2 1 x y =? 0)%Z then transparent
             else rgb00 (Z.of_nat 1 + 1)).
Proof.
  apply (proj1 hit_map_keeps_last_loaded_mask_only bitmapMask leftAndRight [0%nat] 1%nat
           (mask "B" "01") img2x1);
    [reflexivity|discriminate|discriminate|apply bitmapMask_binary].
Defined.

(** * Further properties of the sources *)

Import GeminiResponse SpecMore SamplesMore.

(** ** The retry schedule *)

(** X1.  Whatever the wrapped function does, the helper calls it between one
    and three times and sleeps only between calls: its calls and waits are,
    in order, the first [2 * calls - 1] of call, wait 1000 ms, call, wait
    2000 ms, call, so a wait stands between two calls and none follows the
    last call.  A success on the first call returns at once without a wait,
    one on the second call after a single wait of 1000 ms between the two
    calls, and a resolved result is always what the wrapped function itself
    returned, with the world that call left. *)
Theorem callWithRetry_schedule :
  forall (W T : Type) (fn : W -> outcome T * W) (w0 : W),
    (1 <= invocations (snd (callWithRetry fn w0)) <= 3)%nat
    /\ delays (snd (callWithRetry fn w0))
       = firstn (invocations (snd (callWithRetry fn w0)) - 1) [1000; 2000]%Z
    /\ steps (snd (callWithRetry fn w0))
       = firstn (2 * invocations (snd (callWithRetry fn w0)) - 1)
                [Invoke; Sleep 1000; Invoke; Sleep 2000; Invoke]
    /\ (forall v w1,
           fn w0 = (Resolved v, w1) ->
           fst (callWithRetry fn w0) = (Resolved v, w1)
           /\ invocations (snd (callWithRetry fn w0)) = 1%nat
           /\ steps (snd (callWithRetry fn w0)) = [Invoke])
    /\ (forall m1 w1 v w2,
           fn w0 = (Rejected m1, w1) -> fn w1 = (Resolved v, w2) ->
           fst (callWithRetry fn w0) = (Resolved v, w2)
           /\ invocations (snd (callWithRetry fn w0)) = 2%nat
           /\ steps (snd (callWithRetry fn w0)) = [Invoke; Sleep 1000; Invoke])
    /\ (forall v w',
           fst (callWithRetry fn w0) = (Resolved v, w') ->
           exists w, fn w = (Resolved v, w')).
Proof.
  intros W T fn w0. unfold callWithRetry. cbn [retry_loop MAX_RETRIES].
  destruct (fn w0) as [[v0|m0] w1] eqn:E0;
    [|destruct (fn w1) as [[v1|m1] w2] eqn:E1;
      [|destruct (fn w2) as [[v2|m2] w3] eqn:E2]];
    cbn; repeat split; try lia; intros;
    repeat match goal with
           | H : (_, _) = (_, _) |- _ => inversion H; clear H; subst
           end;
    try congruence; eauto.
Qed.

(** A call that answers at once, and one that fails once. *)
Lemma callWithRetry_schedule_witness :
  let prompt := fun n : nat => (Resolved n, S n) in
  let once := fun n : nat =>
                if (n <? 1)%nat then (@Rejected nat "429", S n) else (Resolved n, S n) in
  (fst (callWithRetry prompt 0%nat) = (Resolved 0%nat, 1%nat)
   /\ invocations (snd (callWithRetry prompt 0%nat)) = 1%nat
   /\ steps (snd (callWithRetry prompt 0%nat)) = [Invoke])
  /\ (fst (callWithRetry once 0%nat) = (Resolved 1%nat, 2%nat)
      /\ invocations (snd (callWithRetry once 0%nat)) = 2%nat
      /\ steps (snd (callWithRetry once 0%nat)) = [Invoke; Sleep 1000; Invoke])
  /\ exists w, once w = (Resolved 1%nat, 2%nat).
Proof.
  intros prompt once.
  pose proof (callWithRetry_schedule nat nat prompt 0%nat) as (_ & _ & _ & H1 & _).
  pose proof (callWithRetry_schedule nat nat once 0%nat) as (_ & _ & _ & _ & H2 & H3).
  split; [|split].
  - exact (H1 0%nat 1%nat eq_refl).
  - exact (H2 "429" 1%nat 1%nat 2%nat eq_refl eq_refl).
  - exact (H3 1%nat 2%nat (proj1 (H2 "429" 1%nat 1%nat 2%nat eq_refl eq_refl))).
Defined.

(** ** Data URLs *)

Lemma split_length sep s : List.length (split sep s) = S (occurrences sep s).
Proof.
  induction s as [|c s IH]; [reflexivity|]. cbn [split occurrences].
  destruct (Ascii.eqb c sep).
  - cbn [List.length]. now rewrite IH.
  - destruct (split sep s) as [|piece pieces]; [discriminate IH|]. exact IH.
Qed.

Lemma split_none sep s : occurrences sep s = 0%nat -> split sep s = [s].
Proof.
  induction s as [|c s IH]; [reflexivity|]. cbn [split occurrences].
  destruct (Ascii.eqb c sep); [discriminate|]. intros H. now rewrite IH.
Qed.

Lemma split_at sep a b :
  occurrences sep a = 0%nat ->
  split sep (a ++ String sep b) = a :: split sep b.
Proof.
  induction a as [|c a IH]; cbn [append split occurrences].
  - intros _. now rewrite Ascii.eqb_refl.
  - destruct (Ascii.eqb c sep); [discriminate|]. intros H. now rewrite IH.
Qed.

Lemma occurrences_app c a b :
  occurrences c (a ++ b) = (occurrences c a + occurrences c b)%nat.
Proof.
  induction a as [|c' a IH]; [reflexivity|]. cbn [append occurrences]. rewrite IH. lia.
Qed.

Lemma append_assoc_string (a b c : string) : (a ++ b) ++ c = a ++ (b ++ c).
Proof. induction a as [|x a IH]; [reflexivity|]. cbn [append]. now rewrite IH. Qed.

Lemma split_comma_dataUrl mime payload :
  occurrences "," mime = 0%nat -> occurrences "," payload = 0%nat ->
  split "," ("data:" ++ mime ++ ";base64," ++ payload)
  = ["data:" ++ mime ++ ";base64"; payload].
Proof.
  intros Hc Hp.
  replace ("data:" ++ mime ++ ";base64," ++ payload)
    with (("data:" ++ mime ++ ";base64") ++ String "," payload)
    by (cbn [append]; do 5 f_equal; rewrite append_assoc_string; reflexivity).
  rewrite split_at, (split_none "," payload) by
    (try assumption; cbn [append occurrences Ascii.eqb Bool.eqb];
     rewrite occurrences_app, Hc; reflexivity).
  reflexivity.
Qed.

Lemma split_colon_scheme mime :
  occurrences ":" mime = 0%nat ->
  split ":" ("data:" ++ mime ++ ";base64") = ["data"; mime ++ ";base64"].
Proof.
  intros Hk.
  change ("data:" ++ mime ++ ";base64") with ("data" ++ String ":" (mime ++ ";base64")).
  rewrite split_at by reflexivity.
  now rewrite (split_none ":" (mime ++ ";base64")) by (rewrite occurrences_app, Hk; reflexivity).
Qed.

Lemma split_semicolon_mime mime :
  occurrences ";" mime = 0%nat -> hd EmptyString (split ";" (mime ++ ";base64")) = mime.
Proof.
  intros Hs. change (mime ++ ";base64") with (mime ++ String ";" "base64").
  now rewrite split_at by assumption.
Qed.

(** X2.  [parseDataUrl] reads back the data URLs [processResponse] writes:
    for a MIME type free of [,], [:] and [;] and a payload free of [,], the
    URL [data:<mime>;base64,<payload>] parses to that MIME type and payload. *)
Theorem parseDataUrl_round_trip :
  forall d : DataUrlParts,
    separatorFree d -> parseDataUrl (dataUrlOf d) = Returns d.
Proof.
  intros [mime payload] (Hc & Hk & Hs & Hp). cbn [mimeType data] in *.
  unfold parseDataUrl, dataUrlOf. cbn [mimeType data].
  rewrite split_comma_dataUrl by assumption.
  rewrite split_colon_scheme by assumption.
  now rewrite split_semicolon_mime by assumption.
Qed.

Lemma parseDataUrl_round_trip_witness :
  parseDataUrl (dataUrlOf {| mimeType := "image/png"; data := "iVBORw0KGgo=" |})
  = Returns {| mimeType := "image/png"; data := "iVBORw0KGgo=" |}.
Proof.
  apply parseDataUrl_round_trip. repeat split.
Defined.

Lemma split_one sep s b :
  split sep s = [b] -> s = b /\ occurrences sep s = 0%nat.
Proof.
  intros H. pose proof (split_length sep s) as Hl. rewrite H in Hl.
  assert (H0 : occurrences sep s = 0%nat) by (cbn in Hl; lia).
  rewrite (split_none sep s H0) in H. now injection H as ->.
Qed.

Lemma split_two sep s a b :
  split sep s = [a; b] ->
  s = a ++ String sep b /\ occurrences sep a = 0%nat /\ occurrences sep b = 0%nat.
Proof.
  revert a. induction s as [|c s IH]; intros a H; [discriminate H|].
  cbn [split] in H. destruct (Ascii.eqb_spec c sep) as [->|Hne].
  - injection H as <- H. destruct (split_one sep s b H) as [-> H0]. now repeat split.
  - destruct (split sep s) as [|piece pieces] eqn:E; [discriminate H|].
    injection H as <- ->. destruct (IH piece eq_refl) as (-> & Ha & Hb).
    cbn [append occurrences]. destruct (Ascii.eqb_spec c sep); [contradiction|].
    now repeat split.
Qed.

(** X3.  [parseDataUrl] throws its "Invalid data URL." error exactly when
    the string does not hold exactly one comma; with exactly one comma it
    throws a [TypeError] exactly when there is no colon before the comma, and
    otherwise returns, whatever the scheme is, with everything after the
    comma as the payload. *)
Theorem parseDataUrl_failures :
  forall dataUrl : string,
    (parseDataUrl dataUrl = Throws "Invalid data URL."
     <-> occurrences "," dataUrl <> 1%nat)
    /\ (parseDataUrl dataUrl = ThrowsTypeError
        <-> occurrences "," dataUrl = 1%nat
            /\ occurrences ":" (hd EmptyString (split "," dataUrl)) = 0%nat)
    /\ (forall d, parseDataUrl dataUrl = Returns d ->
                  exists scheme, dataUrl = scheme ++ String "," (data d)
                                 /\ occurrences "," scheme = 0%nat
                                 /\ occurrences ":" scheme <> 0%nat).
Proof.
  intros dataUrl. unfold parseDataUrl.
  pose proof (split_length "," dataUrl) as Hl.
  destruct (split "," dataUrl) as [|scheme [|payload [|x rest]]] eqn:Es;
    cbn [List.length hd] in *.
  1, 2, 4:
    (split; [split; intros H|split; [split; [intros H|intros [H H']]|intros d H]]);
    try discriminate; try reflexivity; lia.
  pose proof (split_length ":" scheme) as Hk.
  destruct (split_two _ _ _ _ Es) as (-> & Hs & _).
  destruct (split ":" scheme) as [|y [|afterColon rest]] eqn:Ek; cbn [List.length] in Hk;
    (split; [split; intros H|split; [split; [intros H|intros [H H']]|intros d H]]);
    try discriminate; try reflexivity; try lia.
  injection H as <-. cbn [data]. exists scheme. repeat split; try assumption. lia.
Qed.

Lemma parseDataUrl_failures_witness :
  parseDataUrl "data:image/png;base64,AA,BB" = Throws "Invalid data URL."
  /\ parseDataUrl "base64,AAAA" = ThrowsTypeError
  /\ exists scheme,
       "x:image/png;base64,AAAA" = scheme ++ String "," "AAAA"
       /\ occurrences "," scheme = 0%nat /\ occurrences ":" scheme <> 0%nat.
Proof.
  split; [|split].
  - apply (proj1 (parseDataUrl_failures "data:image/png;base64,AA,BB")). discriminate.
  - apply (proj1 (proj2 (parseDataUrl_failures "base64,AAAA"))). split; reflexivity.
  - exact (proj2 (proj2 (parseDataUrl_failures "x:image/png;base64,AAAA"))
             {| mimeType := "image/png"; data := "AAAA" |} eq_refl).
Defined.

(** ** Model responses *)

Lemma collect_images ps cur seed :
  map gr_image (collect ps cur seed) = map dataUrlOf (imageParts ps).
Proof.
  revert cur seed. induction ps as [|p ps IH]; intros cur seed; [reflexivity|].
  cbn [collect imageParts flat_map]. unfold isImagePart.
  destruct (truthy (text p)); cbn [negb andb].
  - cbn [List.app]. apply IH.
  - destruct (inlineData p) as [d|]; cbn [List.app map]; [|apply IH].
    f_equal. apply IH.
Qed.

(** X4.  [processResponse] reads the parts of the first candidate only.  It
    returns one result per part that has inline data and no non-empty text,
    in order, each image being the data URL of that part, and never returns
    an empty list: when there is no such part it throws "No valid image
    content found in the response.".  When the inline data are free of
    separators, every image it returns parses back, by [parseDataUrl], to the
    MIME type and payload it came from. *)
Theorem processResponse_images :
  forall (r : Response) (first : Candidate) (rest : list Candidate) (c : Content)
         (ps : list Part) (seed : nat),
    candidates r = Some (first :: rest) -> content first = Some c -> parts c = Some ps ->
    (imageParts ps = [] -> processResponse (Some r) seed = Throws noValidImage)
    /\ (imageParts ps <> [] ->
        exists results,
          processResponse (Some r) seed = Returns results
          /\ results <> []
          /\ map gr_image results = map dataUrlOf (imageParts ps)
          /\ (Forall separatorFree (imageParts ps) ->
              map (fun res => parseDataUrl (gr_image res)) results
              = map Returns (imageParts ps))).
Proof.
  intros r first rest c ps seed Hc Hf Hp. unfold processResponse. rewrite Hc, Hf, Hp.
  pose proof (collect_images ps "" seed) as Hi.
  destruct (collect ps "" seed) as [|res results] eqn:E; split.
  - reflexivity.
  - intros Hne. destruct (imageParts ps); [now contradiction Hne|discriminate Hi].
  - intros Hnil. rewrite Hnil in Hi. discriminate Hi.
  - intros _. exists (res :: results). split; [reflexivity|].
    split; [discriminate|]. split; [exact Hi|].
    intros Hall. rewrite <- (map_map gr_image parseDataUrl), Hi, map_map.
    apply map_ext_in. intros [mime payload] Hd.
    rewrite Forall_forall in Hall. destruct (Hall _ Hd) as (Hcm & Hk & Hs & Hpl).
    cbn [mimeType data] in *. unfold parseDataUrl, dataUrlOf. cbn [mimeType data].
    rewrite split_comma_dataUrl by assumption.
    rewrite split_colon_scheme by assumption.
    now rewrite split_semicolon_mime by assumption.
Qed.

Lemma processResponse_images_witness :
  exists results,
    processResponse (Some twoImages) 7 = Returns results
    /\ results <> []
    /\ map gr_image results
       = map dataUrlOf (imageParts [captionPart "a boat"; pngPart "AAAA"; pngPart "BBBB"])
    /\ map (fun res => parseDataUrl (gr_image res)) results
       = map Returns (imageParts [captionPart "a boat"; pngPart "AAAA"; pngPart "BBBB"]).
Proof.
  destruct (proj2 (processResponse_images twoImages _ _ _ _ 7 eq_refl eq_refl eq_refl))
    as (results & Hr & Hne & Hi & Hp); [discriminate|].
  exists results. repeat split; try assumption.
  apply Hp. repeat constructor.
Defined.

Lemma parseDataUrl_invalid dataUrl :
  occurrences "," dataUrl <> 1%nat -> parseDataUrl dataUrl = Throws "Invalid data URL.".
Proof.
  intros H. unfold parseDataUrl. pose proof (split_length "," dataUrl) as Hl.
  destruct (split "," dataUrl) as [|scheme [|payload [|x rest]]]; try reflexivity.
  cbn [List.length] in Hl. congruence.
Qed.

(** X5.  [editTextWithRetry] rejects at once with "API key is not configured."
    when the key is missing or empty: no call is attempted and nothing is
    waited for.  With a key, a base image whose data URL does not have exactly
    one comma never reaches the model: the three attempts all fail in
    [parseDataUrl], the helper waits 1000 and 2000 ms between them, the world
    is left as it was and the rejection reads "Failed after 3 attempts. Last
    error: Invalid data URL.". *)
Theorem editTextWithRetry_never_calls_model_on_bad_input :
  forall (W : Type) (apiKey : option string)
         (generateContent : DataUrlParts -> string -> W -> outcome (option Response) * W)
         (typeErrorMessage : string) (seed : nat) (baseImage prompt : string) (w : W),
    (truthy apiKey = false ->
     editTextWithRetry apiKey generateContent typeErrorMessage seed baseImage prompt w
     = (Rejected "API key is not configured.", w, []))
    /\ (truthy apiKey = true -> occurrences "," baseImage <> 1%nat ->
        exists trace,
          editTextWithRetry apiKey generateContent typeErrorMessage seed baseImage prompt w
          = (Rejected "Failed after 3 attempts. Last error: Invalid data URL.", w, trace)
          /\ invocations trace = 3%nat
          /\ delays trace = [1000; 2000]%Z).
Proof.
  intros W apiKey generateContent typeErrorMessage seed baseImage prompt w.
  unfold editTextWithRetry. split; intros Hk.
  - now rewrite Hk.
  - intros Hbad. rewrite Hk.
    apply parseDataUrl_invalid in Hbad.
    unfold callWithRetry, editTextCall. rewrite Hbad.
    eexists. split; [reflexivity|]. split; reflexivity.
Qed.

Lemma editTextWithRetry_never_calls_model_on_bad_input_witness :
  exists trace,
    editTextWithRetry (Some "key") countingModel "TypeError" 0 "not a data URL" "paint it red"
                      0%nat
    = (Rejected "Failed after 3 attempts. Last error: Invalid data URL.", 0%nat, trace)
    /\ invocations trace = 3%nat
    /\ delays trace = [1000; 2000]%Z.
Proof.
  apply (proj2 (editTextWithRetry_never_calls_model_on_bad_input
                  nat (Some "key") countingModel "TypeError" 0 "not a data URL"
                  "paint it red" 0%nat)).
  - reflexivity.
  - vm_compute. discriminate.
Defined.

(** ** The history stack *)

Lemma removelast_snoc {A} (l : list A) (x : A) : removelast (l ++ [x]) = l.
Proof. now rewrite removelast_app, app_nil_r by discriminate. Qed.

Lemma handleUndo_snoc s h e :
  history s = (h ++ [e])%list ->
  editorOf (handleUndo s) = e /\ history (handleUndo s) = h.
Proof.
  intros H. unfold handleUndo. rewrite H, rev_unit. cbn [history set_hoveredMaskLabel
    set_segmentationData set_isCompareMode set_error set_activeResultId
    set_generatedResults set_history].
  split; [now destruct e|]. cbn. now rewrite H, removelast_snoc.
Qed.

(** What each operation does to the history: an undo drops the last entry,
    an operation that records pushes the state it starts from, and every
    other operation leaves the history alone. *)
Lemma apply_history o s :
  history (apply o s)
  = if isUndo o then removelast (history s)
    else if pushes s o then (history s ++ [editorOf s])%list
    else history s.
Proof.
  destruct o as [describe file|files| |call assetId coords label|call markerId|call|call
                | | |coords label|id newProps|id|id newProps|id
                |segment|canvasRef|canvasRef| ]; cbn [apply isUndo pushes].
  - unfold handleBaseImageSet.
    destruct (baseImage s), (f_read file) as [dataUrl|m];
      try destruct (describe dataUrl); reflexivity.
  - unfold handleInsertImageAdd. destruct (readAll files); [|reflexivity].
    now rewrite toImageFiles_spec.
  - unfold handleClearInsertImages. now destruct (insertImages s), (assetMarkers s).
  - unfold handleAssetGeneration, creates.
    destruct (baseImage s); [|reflexivity].
    destruct (find _ (insertImages s)); [|reflexivity].
    destruct (promise_all (variations call s)) as [results|m]; [|reflexivity].
    rewrite withFreshIds_spec.
    now destruct (List.concat results) as [|r rs].
  - unfold handleAssetRegeneration.
    destruct (find _ (assetMarkers s)); [|reflexivity].
    unfold handleAssetGeneration.
    destruct (baseImage s); [|reflexivity].
    destruct (find _ (insertImages s)); [|reflexivity].
    destruct (promise_all (variations call s)) as [results|m]; [|reflexivity].
    rewrite withFreshIds_spec.
    now destruct (freshened _ _).
  - unfold handleMarkerGeneration. destruct (baseImage s); [|reflexivity].
    destruct (promise_all (variations call s)); [|reflexivity].
    rewrite withFreshIds_spec. now destruct (freshened _ _).
  - unfold handleSceneGeneration.
    destruct (baseImage s), (insertImages s); try reflexivity;
      (destruct (promise_all (variations call s)); [|reflexivity];
       rewrite withFreshIds_spec; now destruct (freshened _ _)).
  - unfold handleSaveChanges. now destruct (find _ (generatedResults s)).
  - unfold handleUndo. destruct (rev (history s)) eqn:E; [|reflexivity].
    apply (f_equal (@rev _)) in E. rewrite rev_involutive in E. now rewrite E.
  - reflexivity.
  - reflexivity.
  - reflexivity.
  - reflexivity.
  - reflexivity.
  - unfold handleSegmentImage. destruct (baseImage s) as [base|]; [|reflexivity].
    now destruct (segment (if_dataUrl base)).
  - unfold handleZoomIn. destruct canvasRef; [|reflexivity].
    now destruct (same_num _ _).
  - unfold handleZoomOut. destruct canvasRef; [|reflexivity].
    now destruct (same_num _ _).
  - reflexivity.
Qed.

Lemma session_app ops ops' s : session (ops ++ ops') s = session ops' (session ops s).
Proof. unfold session. apply fold_left_app. Qed.

Lemma pushes_not_undo s o : pushes s o = true -> isUndo o = false.
Proof. now destruct o. Qed.

(** X6.  The history is a stack.  When each of [k] operations records the
    state it starts from (adding or removing a marker, saving, adding or
    clearing assets, replacing the base image, a scene generation, an asset
    drop that yields a result), [k] undos after them give back the base
    image, the assets, the markers and the asset markers of the start, and
    the history of the start. *)
Theorem undo_is_lifo :
  forall (ops : list op) (s : AppState),
    allPush ops s = true ->
    editorOf (session (ops ++ repeat Undo (List.length ops)) s) = editorOf s
    /\ history (session (ops ++ repeat Undo (List.length ops)) s) = history s.
Proof.
  induction ops as [|o ops IH]; intros s H.
  - now split.
  - cbn [allPush] in H. apply andb_prop in H as [Ho Hops].
    cbn [List.length repeat]. rewrite repeat_cons.
    change ((o :: ops) ++ repeat Undo (List.length ops) ++ [Undo])%list
      with (o :: (ops ++ repeat Undo (List.length ops) ++ [Undo]))%list.
    rewrite app_assoc.
    change (session (o :: ?l) s) with (session l (apply o s)).
    rewrite session_app.
    destruct (IH (apply o s) Hops) as [_ Hh].
    change (session [Undo] ?t) with (handleUndo t).
    apply handleUndo_snoc.
    rewrite Hh, apply_history, (pushes_not_undo _ _ Ho), Ho. reflexivity.
Qed.

Lemma undo_is_lifo_witness :
  editorOf (session ([AddMarker (at_ (1 # 2) (1 # 2)) None; RemoveMarker "a"; SaveChanges]
                     ++ repeat Undo 3) marked) = editorOf marked
  /\ history (session ([AddMarker (at_ (1 # 2) (1 # 2)) None; RemoveMarker "a"; SaveChanges]
                       ++ repeat Undo 3) marked) = history marked.
Proof.
  apply (undo_is_lifo [AddMarker (at_ (1 # 2) (1 # 2)) None; RemoveMarker "a"; SaveChanges]
                      marked).
  reflexivity.
Defined.

(** ** The zoom factor *)

Lemma zoomIn_range z :
  within (2 # 10) 5 z -> within (2 # 10) 5 (min (z * ZOOM_STEP)%num MAX_ZOOM).
Proof.
  destruct z as [q| | |]; try contradiction. intros [Hlo Hhi].
  unfold ZOOM_STEP, MAX_ZOOM. cbn [mul min lt].
  destruct (Qltb_spec 5 (q * (12 # 10))) as [H|H]; cbn [within]; lra.
Qed.

Lemma zoomOut_range z :
  within (2 # 10) 5 z -> within (2 # 10) 5 (max (z / ZOOM_STEP)%num MIN_ZOOM).
Proof.
  destruct z as [q| | |]; try contradiction. intros [Hlo Hhi].
  unfold ZOOM_STEP, MIN_ZOOM. rewrite div_Fin by (intros H; discriminate H).
  cbn [max lt].
  destruct (Qltb_spec (q / (12 # 10)) (2 # 10)) as [H|H]; cbn [within]; [lra|].
  split; [exact H|]. apply Qle_shift_div_r; lra.
Qed.

Lemma handleZoomIn_range canvasRef s : zoomInRange s -> zoomInRange (handleZoomIn canvasRef s).
Proof.
  intros H. unfold handleZoomIn. destruct canvasRef; [|exact H].
  destruct (same_num _ _); [exact H|]. now apply zoomIn_range.
Qed.

Lemma handleZoomOut_range canvasRef s :
  zoomInRange s -> zoomInRange (handleZoomOut canvasRef s).
Proof.
  intros H. unfold handleZoomOut. destruct canvasRef; [|exact H].
  destruct (same_num _ _); [exact H|]. now apply zoomOut_range.
Qed.

Lemma one_in_range : within (2 # 10) 5 (Fin 1).
Proof. cbn [within]. lra. Qed.

Lemma apply_zoomInRange o s : zoomInRange s -> zoomInRange (apply o s).
Proof.
  intros H. unfold zoomInRange.
  destruct o as [describe file|files| |call assetId coords label|call markerId|call|call
                | | |coords label|id newProps|id|id newProps|id
                |segment|canvasRef|canvasRef| ]; cbn [apply].
  - replace (zoom (handleBaseImageSet describe file s)) with (Fin 1);
      [exact one_in_range|].
    unfold handleBaseImageSet.
    destruct (baseImage s), (f_read file) as [dataUrl|m];
      try destruct (describe dataUrl); reflexivity.
  - replace (zoom (handleInsertImageAdd files s)) with (zoom s); [exact H|].
    unfold handleInsertImageAdd. destruct (readAll files); [|reflexivity].
    now rewrite toImageFiles_spec.
  - replace (zoom (handleClearInsertImages s)) with (zoom s); [exact H|].
    unfold handleClearInsertImages. now destruct (insertImages s), (assetMarkers s).
  - replace (zoom (handleAssetGeneration call assetId coords label false s))
      with (zoom s); [exact H|].
    unfold handleAssetGeneration.
    destruct (baseImage s); [|reflexivity].
    destruct (find _ (insertImages s)); [|reflexivity].
    destruct (promise_all (variations call s)) as [results|m]; [|reflexivity].
    rewrite withFreshIds_spec.
    now destruct (freshened _ _).
  - replace (zoom (handleAssetRegeneration call markerId s)) with (zoom s); [exact H|].
    unfold handleAssetRegeneration.
    destruct (find _ (assetMarkers s)); [|reflexivity].
    unfold handleAssetGeneration.
    destruct (baseImage s); [|reflexivity].
    destruct (find _ (insertImages s)); [|reflexivity].
    destruct (promise_all (variations call s)) as [results|m]; [|reflexivity].
    rewrite withFreshIds_spec.
    now destruct (freshened _ _).
  - replace (zoom (handleMarkerGeneration call s)) with (zoom s); [exact H|].
    unfold handleMarkerGeneration. destruct (baseImage s); [|reflexivity].
    destruct (promise_all (variations call s)); [|reflexivity].
    rewrite withFreshIds_spec. now destruct (freshened _ _).
  - replace (zoom (handleSceneGeneration call s)) with (zoom s); [exact H|].
    unfold handleSceneGeneration.
    destruct (baseImage s), (insertImages s); try reflexivity;
      (destruct (promise_all (variations call s)); [|reflexivity];
       rewrite withFreshIds_spec; now destruct (freshened _ _)).
  - replace (zoom (handleSaveChanges s)) with (zoom s); [exact H|].
    unfold handleSaveChanges. now destruct (find _ (generatedResults s)).
  - replace (zoom (handleUndo s)) with (zoom s); [exact H|].
    unfold handleUndo. now destruct (rev (history s)).
  - exact H.
  - exact H.
  - exact H.
  - exact H.
  - exact H.
  - replace (zoom (handleSegmentImage segment s)) with (zoom s); [exact H|].
    unfold handleSegmentImage. destruct (baseImage s) as [base|]; [|reflexivity].
    now destruct (segment (if_dataUrl base)).
  - now apply handleZoomIn_range.
  - now apply handleZoomOut_range.
  - exact one_in_range.
Qed.

Lemma dispatch_zoomInRange env c app :
  zoomCallInRange c -> zoomInRange app -> zoomInRange (dispatch env c app).
Proof.
  intros Hc H. destruct c; cbn [dispatch]; try exact H.
  - exact Hc.
  - exact (apply_zoomInRange (AssetDrop (generate env) assetId coords targetObjectLabel)
                             app H).
  - exact (apply_zoomInRange (BaseImageSet (describeImage env) file) app H).
Qed.

Lemma dispatchAll_zoomInRange env calls app :
  Forall zoomCallInRange calls -> zoomInRange app -> zoomInRange (dispatchAll env calls app).
Proof.
  intros Hc. revert app. unfold dispatchAll.
  induction Hc as [|c calls Hc _ IH]; intros app H; [exact H|].
  cbn [fold_left]. apply IH. now apply dispatch_zoomInRange.
Qed.

Lemma Forall_zoom_app l l' :
  Forall zoomCallInRange l -> Forall zoomCallInRange l' -> Forall zoomCallInRange (l ++ l').
Proof. intros H H'. apply Forall_app. now split. Qed.

(** Case analysis on a scrutinee that has no case analysis inside. *)
Ltac destruct_inner :=
  match goal with
  | |- context [match ?x with _ => _ end] =>
      lazymatch x with
      | context [match _ with _ => _ end] => fail
      | _ => destruct x
      end
  end.

Lemma handle_zoomCalls dom app cs ev :
  zoomInRange app -> Forall zoomCallInRange (snd (handle dom app cs ev)).
Proof.
  intros H. destruct ev as [e|e|e|e|e| |e|id type]; cbn [handle snd].
  - constructor.
  - unfold handleMouseMove.
    repeat destruct_inner; cbn [snd List.app]; repeat constructor.
  - unfold handleMouseUp.
    repeat destruct_inner; cbn [snd List.app]; repeat constructor.
  - unfold handleWheel.
    destruct (displayImage app); [|constructor].
    destruct (canvasRef dom); [|constructor].
    destruct (isDisabled app); [constructor|].
    destruct (same_num _ _); [constructor|].
    repeat constructor.
    destruct (deltaY e >? Fin 0)%num; [now apply zoomOut_range|now apply zoomIn_range].
  - unfold handleDragOver.
    repeat destruct_inner; cbn [snd]; repeat constructor.
  - repeat constructor.
  - unfold handleDrop.
    repeat destruct_inner; cbn [snd List.app]; repeat constructor.
  - constructor.
Qed.

Lemma run_zoomInRange env dom evs :
  forall app cs, zoomInRange app -> zoomInRange (fst (fst (run env dom (app, cs) evs))).
Proof.
  induction evs as [|ev evs IH]; intros app cs H; [exact H|].
  cbn [run]. unfold step. cbn [fst snd].
  pose proof (handle_zoomCalls dom app cs ev H) as Hc.
  destruct (handle dom app cs ev) as [cs' calls]. cbn [snd] in Hc.
  specialize (IH (dispatchAll env calls app) cs' (dispatchAll_zoomInRange env calls app Hc H)).
  now destruct (run env dom (dispatchAll env calls app, cs') evs) as [st' calls'].
Qed.

(** X7.  The zoom factor stays between 0.2 and 5.  From a state whose zoom
    is in that range, no sequence of workspace operations (the zoom buttons,
    the reset, uploads, generations, saves, undos, marker edits) and no
    sequence of events on the canvas (wheel notches, pointer gestures, drags
    and drops) takes it out of the range. *)
Theorem zoom_stays_in_range :
  forall s : AppState,
    zoomInRange s ->
    (forall ops : list op, zoomInRange (session ops s))
    /\ (forall (env : Collaborators) (dom : Dom) (cs : CanvasState) (evs : list event),
           zoomInRange (fst (fst (run env dom (s, cs) evs)))).
Proof.
  intros s H. split.
  - intros ops. revert s H. induction ops as [|o ops IH]; intros s H; [exact H|].
    change (session (o :: ops) s) with (session ops (apply o s)).
    apply IH. now apply apply_zoomInRange.
  - intros env dom cs evs. now apply run_zoomInRange.
Qed.

Lemma zoom_stays_in_range_witness :
  (forall ops : list op, zoomInRange (session ops initialState))
  /\ (forall (env : Collaborators) (dom : Dom) (cs : CanvasState) (evs : list event),
         zoomInRange (fst (fst (run env dom (initialState, cs) evs)))).
Proof.
  apply (zoom_stays_in_range initialState).
  vm_compute. split; discriminate.
Defined.

Lemma Qeq_bool_false a b : ~ a == b -> Qeq_bool a b = false.
Proof.
  intros H. destruct (Qeq_bool a b) eqn:E; [|reflexivity].
  now apply Qeq_bool_iff in E.
Qed.

Lemma Qltb_false a b : b <= a -> Qltb a b = false.
Proof. intros H. destruct (Qltb_spec a b); [lra|reflexivity]. Qed.


Lemma handleZoomIn_zoom canvasRect s (z : Q) :
  zoom s = Fin z -> 2 # 10 <= z -> z <= 5 ->
  exists z',
    zoom (handleZoomIn (Some canvasRect) s) = Fin z'
    /\ z <= z' /\ z' <= 5 /\ (z < 5 -> z < z') /\ (z * (12 # 10) <= z' \/ z' == 5).
Proof.
  intros Hz Hlo Hhi. unfold handleZoomIn, zoomAbout. rewrite Hz.
  unfold ZOOM_STEP, MAX_ZOOM. cbn [mul min lt].
  destruct (Qltb_spec 5 (z * (12 # 10))) as [H|H]; cbn [same_num].
  - destruct (Qeq_bool 5 z) eqn:E.
    + apply Qeq_bool_iff in E. exists z. rewrite Hz.
      repeat split; lra.
    + apply Qeq_bool_neq in E. exists 5. cbn [zoom set_canvasOffset set_zoom].
      repeat split; lra.
  - rewrite Qeq_bool_false by lra. exists (z * (12 # 10)).
    cbn [zoom set_canvasOffset set_zoom]. repeat split; lra.
Qed.

Lemma handleZoomOut_zoom canvasRect s (z : Q) :
  zoom s = Fin z -> 2 # 10 <= z -> z <= 5 ->
  exists z',
    zoom (handleZoomOut (Some canvasRect) s) = Fin z'
    /\ 2 # 10 <= z' /\ z' <= z /\ (2 # 10 < z -> z' < z)
    /\ (z' <= z / (12 # 10) \/ z' == 2 # 10).
Proof.
  intros Hz Hlo Hhi. unfold handleZoomOut, zoomAbout. rewrite Hz.
  unfold ZOOM_STEP, MIN_ZOOM. rewrite (div_Fin z (12 # 10)) by (intros H; discriminate H).
  cbn [max lt].
  assert (Hlt : z / (12 # 10) < z) by (apply Qlt_shift_div_r; lra).
  destruct (Qltb_spec (z / (12 # 10)) (2 # 10)) as [H|H]; cbn [same_num].
  - destruct (Qeq_bool (2 # 10) z) eqn:E.
    + apply Qeq_bool_iff in E. exists z. rewrite Hz.
      repeat split; lra.
    + apply Qeq_bool_neq in E. exists (2 # 10). cbn [zoom set_canvasOffset set_zoom].
      repeat split; lra.
  - rewrite Qeq_bool_false by lra. exists (z / (12 # 10)).
    cbn [zoom set_canvasOffset set_zoom]. repeat split; lra.
Qed.

Lemma Qpower_12_succ n :
  (12 # 10) ^ Z.of_nat (S n) == (12 # 10) ^ Z.of_nat n * (12 # 10).
Proof.
  rewrite Nat2Z.inj_succ. unfold Z.succ.
  rewrite Qpower_plus by discriminate. reflexivity.
Qed.

Lemma Qpower_12_pos n : 0 < (12 # 10) ^ Z.of_nat n.
Proof. apply Qpower_0_lt. reflexivity. Qed.

Lemma handleZoomIn_presses canvasRect n :
  forall s (z : Q),
    zoom s = Fin z -> 2 # 10 <= z -> z <= 5 ->
    exists z',
      zoom (Nat.iter n (handleZoomIn (Some canvasRect)) s) = Fin z'
      /\ 2 # 10 <= z' /\ z' <= 5 /\ (z * (12 # 10) ^ Z.of_nat n <= z' \/ z' == 5).
Proof.
  induction n as [|n IH]; intros s z Hz Hlo Hhi.
  - exists z. cbn [Nat.iter]. repeat split; try assumption. left. cbn. lra.
  - destruct (IH s z Hz Hlo Hhi) as (z1 & E1 & Hlo1 & Hhi1 & Hgrow).
    destruct (handleZoomIn_zoom canvasRect _ z1 E1 Hlo1 Hhi1)
      as (z2 & E2 & Hle & Hhi2 & _ & Hstep).
    exists z2. cbn [Nat.iter]. split; [exact E2|]. repeat split; try lra.
    destruct Hstep as [Hstep|Hstep]; [|now right].
    destruct Hgrow as [Hgrow|Hgrow]; [|right; lra].
    left. rewrite Qpower_12_succ. pose proof (Qpower_12_pos n). nra.
Qed.

Lemma handleZoomOut_presses canvasRect n :
  forall s (z : Q),
    zoom s = Fin z -> 2 # 10 <= z -> z <= 5 ->
    exists z',
      zoom (Nat.iter n (handleZoomOut (Some canvasRect)) s) = Fin z'
      /\ 2 # 10 <= z' /\ z' <= 5
      /\ (z' * (12 # 10) ^ Z.of_nat n <= z \/ z' == 2 # 10).
Proof.
  induction n as [|n IH]; intros s z Hz Hlo Hhi.
  - exists z. cbn [Nat.iter]. repeat split; try assumption. left. cbn. lra.
  - destruct (IH s z Hz Hlo Hhi) as (z1 & E1 & Hlo1 & Hhi1 & Hgrow).
    destruct (handleZoomOut_zoom canvasRect _ z1 E1 Hlo1 Hhi1)
      as (z2 & E2 & Hlo2 & Hle & _ & Hstep).
    exists z2. cbn [Nat.iter]. split; [exact E2|]. repeat split; try lra.
    destruct Hstep as [Hstep|Hstep]; [|now right].
    assert (Hz2 : z2 * (12 # 10) <= z1).
    { assert (Hd : z1 / (12 # 10) * (12 # 10) == z1) by (field; discriminate). nra. }
    destruct Hgrow as [Hgrow|Hgrow]; [|right; lra].
    left. rewrite Qpower_12_succ. pose proof (Qpower_12_pos n). nra.
Qed.

(** X8.  The zoom buttons step towards the bounds and stop there.  With the
    zoom between 0.2 and 5: a zoom-in below 5 strictly raises the zoom and
    never beyond 5, and at 5 it changes nothing; a zoom-out above 0.2
    strictly lowers the zoom and never below 0.2, and at 0.2 it changes
    nothing.  Eighteen presses of zoom-in reach 5 from anywhere in the range,
    and eighteen presses of zoom-out reach 0.2.  Without a mounted container
    neither button does anything. *)
Theorem zoom_buttons_step :
  forall (canvasRect : Rect) (s : AppState) (z : Q),
    zoom s = Fin z -> 2 # 10 <= z -> z <= 5 ->
    (exists z',
        zoom (handleZoomIn (Some canvasRect) s) = Fin z'
        /\ z' <= 5 /\ (z < 5 -> z < z'))
    /\ (exists z',
           zoom (handleZoomOut (Some canvasRect) s) = Fin z'
           /\ 2 # 10 <= z' /\ (2 # 10 < z -> z' < z))
    /\ (z == 5 -> handleZoomIn (Some canvasRect) s = s)
    /\ (z == 2 # 10 -> handleZoomOut (Some canvasRect) s = s)
    /\ eqv (zoom (Nat.iter 18 (handleZoomIn (Some canvasRect)) s)) (Fin 5)
    /\ eqv (zoom (Nat.iter 18 (handleZoomOut (Some canvasRect)) s)) (Fin (2 # 10))
    /\ handleZoomIn None s = s /\ handleZoomOut None s = s.
Proof.
  intros canvasRect s z Hz Hlo Hhi.
  split; [|split; [|split; [|split; [|split; [|split; [|split; reflexivity]]]]]].
  - destruct (handleZoomIn_zoom canvasRect s z Hz Hlo Hhi) as (z' & E & _ & H5 & Hup & _).
    exists z'. now repeat split.
  - destruct (handleZoomOut_zoom canvasRect s z Hz Hlo Hhi) as (z' & E & H2 & _ & Hdn & _).
    exists z'. now repeat split.
  - intros Htop. unfold handleZoomIn. rewrite Hz.
    unfold ZOOM_STEP, MAX_ZOOM. cbn [mul min lt].
    destruct (Qltb_spec 5 (z * (12 # 10))) as [H|H]; [|lra].
    cbn [same_num]. destruct (Qeq_bool 5 z) eqn:E; [reflexivity|].
    apply Qeq_bool_neq in E. lra.
  - intros Hbot. unfold handleZoomOut. rewrite Hz.
    unfold ZOOM_STEP, MIN_ZOOM. rewrite div_Fin by (intros H; discriminate H).
    cbn [max lt].
    assert (Hlt : z / (12 # 10) < z) by (apply Qlt_shift_div_r; lra).
    destruct (Qltb_spec (z / (12 # 10)) (2 # 10)) as [H|H]; [|lra].
    cbn [same_num]. destruct (Qeq_bool (2 # 10) z) eqn:E; [reflexivity|].
    apply Qeq_bool_neq in E. lra.
  - destruct (handleZoomIn_presses canvasRect 18 s z Hz Hlo Hhi)
      as (z' & E & _ & H5 & [Hgrow|Hcap]).
    + rewrite E. cbn [eqv].
      assert (Hp : (12 # 10) ^ Z.of_nat 18 >= 26) by (vm_compute; discriminate).
      nra.
    + rewrite E. exact Hcap.
  - destruct (handleZoomOut_presses canvasRect 18 s z Hz Hlo Hhi)
      as (z' & E & H2 & _ & [Hgrow|Hcap]).
    + rewrite E. cbn [eqv].
      assert (Hp : (12 # 10) ^ Z.of_nat 18 >= 26) by (vm_compute; discriminate).
      nra.
    + rewrite E. exact Hcap.
Qed.

(** From the initial zoom of 1 a zoom-in gives a zoom above 1 and a zoom-out
    one below, and eighteen presses reach the bounds. *)
Lemma zoom_buttons_step_witness :
  (exists z',
      zoom (handleZoomIn (Some (rect container800x600)) initialState) = Fin z'
      /\ z' <= 5 /\ (1 < 5 -> 1 < z'))
  /\ eqv (zoom (Nat.iter 18 (handleZoomIn (Some (rect container800x600))) initialState))
         (Fin 5)
  /\ eqv (zoom (Nat.iter 18 (handleZoomOut (Some (rect container800x600))) initialState))
         (Fin (2 # 10)).
Proof.
  destruct (zoom_buttons_step (rect container800x600) initialState 1 eq_refl)
    as (Hin & _ & _ & _ & Hmax & Hmin & _).
  - vm_compute. discriminate.
  - vm_compute. discriminate.
  - exact (conj Hin (conj Hmax Hmin)).
Defined.

(** ** The rendered geometry *)









(** ** The canvas while the application is busy *)

Lemma sameButHover_refl app : sameButHover app app.
Proof. unfold sameButHover. now destruct app. Qed.

Lemma sameButHover_trans app app' app'' :
  sameButHover app app' -> sameButHover app' app'' -> sameButHover app app''.
Proof.
  unfold sameButHover. intros H H'.
  change (set_hoveredMaskLabel (hoveredMaskLabel app) app'')
    with (set_hoveredMaskLabel (hoveredMaskLabel app)
            (set_hoveredMaskLabel (hoveredMaskLabel app') app'')).
  now rewrite H'.
Qed.

Lemma sameButHover_set app l : sameButHover app (set_hoveredMaskLabel l app).
Proof. unfold sameButHover. now destruct app. Qed.

Lemma sameButHover_flags app app' :
  sameButHover app app' ->
  isDisabled app' = isDisabled app /\ isSliderDragging app' = isSliderDragging app.
Proof. unfold sameButHover. intros <-. now split. Qed.

Lemma dispatchAll_hover env calls app :
  forallb isHoverCall calls = true -> sameButHover app (dispatchAll env calls app).
Proof.
  revert app. unfold dispatchAll.
  induction calls as [|c calls IH]; intros app H; [apply sameButHover_refl|].
  cbn [forallb] in H. apply andb_prop in H as [Hc H].
  destruct c; try discriminate Hc. cbn [fold_left dispatch].
  eapply sameButHover_trans; [apply sameButHover_set|apply IH, H].
Qed.

(** One event on an idle canvas of a busy application: only hover
    notifications go out, and the canvas stays idle. *)
Lemma handle_disabled dom app cs ev :
  isDisabled app = true -> isSliderDragging app = false ->
  isPanning cs = false -> draggedMarker cs = None ->
  forallb isHoverCall (snd (handle dom app cs ev)) = true
  /\ isPanning (fst (handle dom app cs ev)) = false
  /\ draggedMarker (fst (handle dom app cs ev)) = None.
Proof.
  intros Hd Hs Hp Hm. destruct ev as [e|e|e|e|e| |e|id type]; cbn [handle fst snd].
  - unfold handleMouseDown. rewrite Hd, orb_true_r. cbn [orb].
    now destruct (displayImage app).
  - unfold handleMouseMove. rewrite Hs.
    destruct (canvasRef dom) as [container|];
      cbn [isPanning draggedMarker set_cursorPosition]; rewrite Hp, Hm;
      (destruct (getRelativeCoords _ _ _ _ _) as [c|]; [destruct (labelAt _ _ c)|]);
      cbn [fst snd List.app forallb isHoverCall andb isPanning draggedMarker
           set_cursorPosition]; auto.
  - unfold handleMouseUp. rewrite Hs, Hp. now cbn.
  - unfold handleWheel. rewrite Hd.
    now destruct (displayImage app), (canvasRef dom).
  - unfold handleDragOver. now rewrite Hd.
  - unfold handleDragLeave, endDrag. now cbn.
  - unfold handleDrop, endDrag.
    (destruct (getRelativeCoords _ _ _ _ _) as [c|]; [destruct (labelAt _ _ c)|]);
      rewrite ?Hd; cbn; auto.
  - unfold handleMarkerDragStart. now rewrite Hd.
Qed.

(** X11.  While the application is loading or segmenting, an idle canvas is
    inert.  Whatever events follow (presses, moves, releases, wheel notches,
    drags, drops, marker grabs), the only callbacks invoked are hover
    notifications: no marker is added or moved, nothing is generated or
    uploaded, the viewport does not change; the application state stays the
    same up to the hovered label, and the canvas never starts a pan or a
    marker drag. *)
Theorem disabled_canvas_is_inert :
  forall (env : Collaborators) (dom : Dom) (evs : list event) (app : AppState)
         (cs : CanvasState),
    isDisabled app = true -> isSliderDragging app = false ->
    isPanning cs = false -> draggedMarker cs = None ->
    forallb isHoverCall (snd (run env dom (app, cs) evs)) = true
    /\ sameButHover app (fst (fst (run env dom (app, cs) evs)))
    /\ isPanning (snd (fst (run env dom (app, cs) evs))) = false
    /\ draggedMarker (snd (fst (run env dom (app, cs) evs))) = None.
Proof.
  intros env dom evs. induction evs as [|ev evs IH]; intros app cs Hd Hs Hp Hm.
  - cbn [run fst snd forallb]. repeat split; try assumption. apply sameButHover_refl.
  - cbn [run]. unfold step. cbn [fst snd].
    destruct (handle_disabled dom app cs ev Hd Hs Hp Hm) as (Hc & Hp' & Hm').
    destruct (handle dom app cs ev) as [cs' calls]. cbn [fst snd] in Hc, Hp', Hm'.
    pose proof (dispatchAll_hover env calls app Hc) as Hsame.
    destruct (sameButHover_flags _ _ Hsame) as [Ed Es].
    destruct (IH (dispatchAll env calls app) cs') as (Hc2 & Hsame2 & Hp2 & Hm2);
      try congruence.
    destruct (run env dom (dispatchAll env calls app, cs') evs) as [[app2 cs2] calls2].
    cbn [fst snd] in *. repeat split; try assumption.
    + rewrite forallb_app. now rewrite Hc, Hc2.
    + eapply sameButHover_trans; eassumption.
Qed.

Lemma disabled_canvas_is_inert_witness :
  forallb isHoverCall (snd (run answering dom800x600 (busy, initialCanvas) pokes)) = true
  /\ sameButHover busy (fst (fst (run answering dom800x600 (busy, initialCanvas) pokes)))
  /\ isPanning (snd (fst (run answering dom800x600 (busy, initialCanvas) pokes))) = false
  /\ draggedMarker (snd (fst (run answering dom800x600 (busy, initialCanvas) pokes))) = None.
Proof.
  apply (disabled_canvas_is_inert answering dom800x600 pokes busy initialCanvas);
    reflexivity.
Defined.

(** ** Dragging a marker *)

Lemma run_cons env dom st ev evs :
  run env dom st (ev :: evs)
  = let '(app, cs, calls) := step env dom st ev in
    let '(st', calls') := run env dom (app, cs) evs in
    (st', (calls ++ calls')%list).
Proof. reflexivity. Qed.

Lemma step_markerDragStart env dom app cs id type :
  isDisabled app = false ->
  step env dom (app, cs) (MarkerDragStart id type)
  = (app, set_draggedMarker (Some {| dm_id := id; dm_type := type |}) cs, []).
Proof.
  intros H. unfold step. cbn [handle fst snd]. unfold handleMarkerDragStart.
  now rewrite H.
Qed.

Lemma step_mouseDown_onMarker env dom app cs e :
  targetInMarker e = true -> step env dom (app, cs) (MouseDown e) = (app, cs, []).
Proof.
  intros H. unfold step. cbn [handle fst snd]. unfold handleMouseDown.
  rewrite H, !orb_true_r. now destruct (displayImage app).
Qed.

Lemma step_mouseUp_idle env dom app cs e :
  isSliderDragging app = false -> isPanning cs = false ->
  step env dom (app, cs) (MouseUp e)
  = (app, set_draggedMarker None (set_isPanning false (set_didDrag false cs)), []).
Proof.
  intros Hs Hp. unfold step. cbn [handle fst snd]. unfold handleMouseUp.
  now rewrite Hs, Hp.
Qed.

Lemma step_dragMove env dom container app cs id e c :
  canvasRef dom = Some container -> isSliderDragging app = false ->
  isPanning cs = false -> draggedMarker cs = Some {| dm_id := id; dm_type := edit |} ->
  getRelativeCoords dom app cs (clientX e) (clientY e) = Some c ->
  exists cs',
    step env dom (app, cs) (MouseMove e)
    = (handleUpdateMarker id (xyProps c) app, cs', [onUpdateMarker id (xyProps c)])
    /\ isPanning cs' = false /\ draggedMarker cs' = draggedMarker cs
    /\ renderedImageGeom cs' = renderedImageGeom cs.
Proof.
  intros Hc Hs Hp Hm Hcoords. unfold step. cbn [handle fst snd].
  unfold handleMouseMove. rewrite Hc.
  rewrite (getRelativeCoords_ext dom app app cs (set_cursorPosition _ cs))
    by reflexivity.
  rewrite Hcoords, Hs. cbn [isPanning draggedMarker set_cursorPosition].
  rewrite Hp, Hm. cbn [dm_type dm_id List.app dispatchAll fold_left dispatch].
  eexists. split; [reflexivity|]. now repeat split.
Qed.

Lemma movedTo_twice id c c' ms : movedTo id c (movedTo id c' ms) = movedTo id c ms.
Proof.
  unfold movedTo. rewrite map_map. apply map_ext. intros m.
  destruct (String.eqb (em_id m) id) eqn:E; cbn [placedAt em_id]; now rewrite E.
Qed.

Lemma handleUpdateMarker_xy id c ms app :
  handleUpdateMarker id (xyProps c) (set_markers ms app) = set_markers (movedTo id c ms) app.
Proof. reflexivity. Qed.

(** The moves of a drag: the markers are those of the start with the dragged
    one at the place of the last move. *)
Lemma drag_moves env dom container app cs0 id moves :
  canvasRef dom = Some container -> isSliderDragging app = false ->
  forall ms cs,
    isPanning cs = false -> draggedMarker cs = Some {| dm_id := id; dm_type := edit |} ->
    renderedImageGeom cs = renderedImageGeom cs0 ->
    (forall c, movedTo id c ms = movedTo id c (markers app)) ->
    exists ms' cs' calls,
      run env dom (set_markers ms app, cs) (map MouseMove moves)
      = (set_markers ms' app, cs', calls)
      /\ isPanning cs' = false
      /\ draggedMarker cs' = Some {| dm_id := id; dm_type := edit |}
      /\ renderedImageGeom cs' = renderedImageGeom cs0
      /\ (forall c, movedTo id c ms' = movedTo id c (markers app))
      /\ existsb isAddMarker calls = false.
Proof.
  intros Hc Hs. induction moves as [|e moves IH]; intros ms cs Hp Hm Hg Hms.
  - exists ms, cs, []. now repeat split.
  - cbn [map]. rewrite run_cons.
    destruct (getRelativeCoords_some dom container (set_markers ms app) cs
                (clientX e) (clientY e) Hc) as [c Hcoords].
    destruct (step_dragMove env dom container (set_markers ms app) cs id e c
                Hc Hs Hp Hm Hcoords) as (cs1 & -> & Hp1 & Hm1 & Hg1).
    rewrite handleUpdateMarker_xy.
    destruct (IH (movedTo id c ms) cs1) as (ms' & cs' & calls & -> & H);
      try congruence.
    { intros c'. now rewrite movedTo_twice. }
    exists ms', cs', (onUpdateMarker id (xyProps c) :: calls).
    destruct H as (H1 & H2 & H3 & H4 & H5). repeat split; assumption.
Qed.

(** X12.  Dragging an edit marker moves it and does nothing else.  On a
    mounted canvas of an application that is neither busy nor dragging the
    compare slider, a press on the marker, any moves ending at [e] and a
    release leave the application as it was except that every marker with the
    dragged identifier sits at the coordinate resolved for [e], with its
    identifier, prompt and label kept.  No marker is added, the history gets no
    entry, and the canvas ends with no marker held and no pan. *)
Theorem marker_drag_moves_the_marker :
  forall (env : Collaborators) (dom : Dom) (container : Container) (app : AppState)
         (cs : CanvasState) (id : string) (e0 : MouseEvent) (moves : list MouseEvent)
         (e eu : MouseEvent) (c : DropCoordinates),
    canvasRef dom = Some container ->
    isDisabled app = false -> isSliderDragging app = false -> isPanning cs = false ->
    targetInMarker e0 = true ->
    getRelativeCoords dom app cs (clientX e) (clientY e) = Some c ->
    fst (fst (run env dom (app, cs) (dragGesture id e0 (moves ++ [e]) eu)))
    = set_markers (movedTo id c (markers app)) app
    /\ existsb isAddMarker (snd (run env dom (app, cs) (dragGesture id e0 (moves ++ [e]) eu)))
       = false
    /\ draggedMarker (snd (fst (run env dom (app, cs) (dragGesture id e0 (moves ++ [e]) eu))))
       = None
    /\ isPanning (snd (fst (run env dom (app, cs) (dragGesture id e0 (moves ++ [e]) eu))))
       = false.
Proof.
  intros env dom container app cs id e0 moves e eu c Hc Hd Hs Hp H0 Hcoords.
  assert (exists cs' calls,
             run env dom (app, cs) (dragGesture id e0 (moves ++ [e]) eu)
             = (set_markers (movedTo id c (markers app)) app, cs', calls)
             /\ existsb isAddMarker calls = false
             /\ draggedMarker cs' = None /\ isPanning cs' = false) as (cs' & calls & -> & H).
  2: exact (conj eq_refl H).
  unfold dragGesture.
  rewrite run_cons, step_markerDragStart by exact Hd.
  rewrite run_cons, step_mouseDown_onMarker by exact H0.
  rewrite map_app, <- app_assoc, run_app.
  destruct (drag_moves env dom container app cs id moves Hc Hs (markers app)
              (set_draggedMarker (Some {| dm_id := id; dm_type := edit |}) cs))
    as (ms1 & cs1 & calls1 & Hrun & Hp1 & Hm1 & Hg1 & Hms1 & Hadd1);
    try reflexivity; try assumption.
  rewrite set_markers_same in Hrun. rewrite Hrun.
  cbn [map List.app]. rewrite run_cons.
  assert (Hcoords1 : getRelativeCoords dom (set_markers ms1 app) cs1 (clientX e) (clientY e)
                     = Some c).
  { rewrite <- Hcoords. now apply getRelativeCoords_ext. }
  destruct (step_dragMove env dom container (set_markers ms1 app) cs1 id e c
              Hc Hs Hp1 Hm1 Hcoords1) as (cs2 & -> & Hp2 & Hm2 & Hg2).
  rewrite handleUpdateMarker_xy, Hms1.
  rewrite run_cons, step_mouseUp_idle by assumption.
  cbn [run List.app]. eexists _, _. split; [reflexivity|].
  rewrite !existsb_app, Hadd1. now repeat split.
Qed.

Lemma marker_drag_moves_the_marker_witness :
  exists c,
    getRelativeCoords dom800x600 marked squareInWide (Fin 400) (Fin 300) = Some c
    /\ fst (fst (run answering dom800x600 (marked, squareInWide)
                     (dragGesture "a" (mouseOnMarkerAt 160 60)
                                  ([mouseAt 200 100] ++ [mouseAt 400 300])
                                  (mouseOnMarkerAt 400 300))))
       = set_markers (movedTo "a" c (markers marked)) marked.
Proof.
  eexists. split; [reflexivity|].
  apply (marker_drag_moves_the_marker answering dom800x600 container800x600 marked
           squareInWide "a" (mouseOnMarkerAt 160 60) [mouseAt 200 100] (mouseAt 400 300)
           (mouseOnMarkerAt 400 300));
    reflexivity.
Defined.

(** ** Uploads *)

(** X13.  What an upload leaves behind.  Whatever happens, the markers,
    the asset markers, the results, the masks and the loading flag are
    cleared, the assets are kept, and the picture shown is the base image.
    The base image is set, to the data URL read from the file, exactly when
    both the read and the description succeed, and the context is then the
    description; when either fails there is no base image and no context any
    more, and the error message is set. *)
Theorem handleBaseImageSet_outcome :
  forall (describe : string -> outcome string) (file : File) (s : AppState),
    (markers (handleBaseImageSet describe file s) = []
     /\ assetMarkers (handleBaseImageSet describe file s) = []
     /\ generatedResults (handleBaseImageSet describe file s) = []
     /\ segmentationData (handleBaseImageSet describe file s) = None
     /\ isLoading (handleBaseImageSet describe file s) = false
     /\ insertImages (handleBaseImageSet describe file s) = insertImages s
     /\ displayImage (handleBaseImageSet describe file s)
        = baseImage (handleBaseImageSet describe file s))
    /\ (forall dataUrl context,
           f_read file = Resolved dataUrl -> describe dataUrl = Resolved context ->
           baseImage (handleBaseImageSet describe file s)
           = Some {| if_id := "uuid-" ++ show_nat (uuidSeed s); if_dataUrl := dataUrl |}
           /\ imageContext (handleBaseImageSet describe file s) = Some context
           /\ error (handleBaseImageSet describe file s) = None)
    /\ ((exists m, f_read file = Rejected m)
        \/ (exists dataUrl m, f_read file = Resolved dataUrl /\ describe dataUrl = Rejected m) ->
        baseImage (handleBaseImageSet describe file s) = None
        /\ imageContext (handleBaseImageSet describe file s) = None
        /\ error (handleBaseImageSet describe file s) = Some loadFailedMessage).
Proof.
  intros describe file s. unfold handleBaseImageSet, displayImage.
  split; [|split].
  - destruct (baseImage s), (f_read file) as [dataUrl|m];
      try destruct (describe dataUrl); repeat split; reflexivity.
  - intros dataUrl context Hr Hd. rewrite Hr. cbn [randomUUID]. rewrite Hd.
    now destruct (baseImage s).
  - intros [[m Hr]|(dataUrl & m & Hr & Hd)]; rewrite Hr; cbn [randomUUID];
      try rewrite Hd; now destruct (baseImage s).
Qed.

Lemma handleBaseImageSet_outcome_witness :
  baseImage (handleBaseImageSet (fun _ => Resolved "a scene") pictureFile marked)
  = Some {| if_id := "uuid-" ++ show_nat (uuidSeed marked);
            if_dataUrl := "data:image/png;base64,BBBB" |}
  /\ imageContext (handleBaseImageSet (fun _ => Resolved "a scene") pictureFile marked)
     = Some "a scene"
  /\ error (handleBaseImageSet (fun _ => Resolved "a scene") pictureFile marked) = None.
Proof.
  apply (proj1 (proj2 (handleBaseImageSet_outcome (fun _ => Resolved "a scene")
                         pictureFile marked))
           "data:image/png;base64,BBBB" "a scene"); reflexivity.
Defined.

Lemma readAll_allRead files dataUrls : allRead files dataUrls -> readAll files = Some dataUrls.
Proof.
  unfold allRead. revert dataUrls.
  induction files as [|f files IH]; intros [|u us] H; try discriminate H; [reflexivity|].
  cbn [map] in H. injection H as Hf Hrest. cbn [readAll].
  now rewrite Hf, (IH us Hrest).
Qed.

Lemma readAll_someUnread files : someUnread files -> readAll files = None.
Proof.
  induction 1 as [f files [m Hm]|f files _ IH]; cbn [readAll].
  - now rewrite Hm.
  - rewrite IH. now destruct (f_read f).
Qed.

(** X14.  Adding assets is all or nothing.  When every file reads, the
    assets grow by one image per file, in the order of the files, each with
    the data URL read from its file, and no error is set.  When some file
    fails to read, no asset is added, not even for the files that did read,
    and the error is set.  In both cases the state before is recorded in the
    history, and the base image, the markers and the asset markers are
    kept. *)
Theorem handleInsertImageAdd_all_or_nothing :
  forall (files : list File) (s : AppState),
    (forall dataUrls,
        allRead files dataUrls ->
        insertImages (handleInsertImageAdd files s)
        = (insertImages s ++ imageFilesFrom dataUrls (uuidSeed s))%list
        /\ map if_dataUrl (imageFilesFrom dataUrls (uuidSeed s)) = dataUrls
        /\ error (handleInsertImageAdd files s) = error s)
    /\ (someUnread files ->
        insertImages (handleInsertImageAdd files s) = insertImages s
        /\ error (handleInsertImageAdd files s) = Some "Failed to load insert image(s).")
    /\ history (handleInsertImageAdd files s) = (history s ++ [editorOf s])%list
    /\ baseImage (handleInsertImageAdd files s) = baseImage s
    /\ markers (handleInsertImageAdd files s) = markers s
    /\ assetMarkers (handleInsertImageAdd files s) = assetMarkers s.
Proof.
  intros files s. unfold handleInsertImageAdd. split; [|split; [|repeat split]].
  - intros dataUrls H. rewrite (readAll_allRead _ _ H), toImageFiles_spec.
    repeat split.
    generalize (uuidSeed s). clear H.
    induction dataUrls as [|u us IH]; intros n; [reflexivity|].
    cbn [imageFilesFrom map if_dataUrl]. now rewrite IH.
  - intros H. now rewrite (readAll_someUnread _ H).
  - destruct (readAll files); [|reflexivity]. now rewrite toImageFiles_spec.
  - destruct (readAll files); [|reflexivity]. now rewrite toImageFiles_spec.
  - destruct (readAll files); [|reflexivity]. now rewrite toImageFiles_spec.
  - destruct (readAll files); [|reflexivity]. now rewrite toImageFiles_spec.
Qed.

Lemma handleInsertImageAdd_all_or_nothing_witness :
  insertImages (handleInsertImageAdd [assetFile; unreadable] loaded) = insertImages loaded
  /\ error (handleInsertImageAdd [assetFile; unreadable] loaded)
     = Some "Failed to load insert image(s).".
Proof.
  apply (proj1 (proj2 (handleInsertImageAdd_all_or_nothing [assetFile; unreadable] loaded))).
  apply Exists_cons_tl, Exists_cons_hd. now exists "Failed to read file.".
Defined.

(** ** Saving, generating and the picture shown *)

Lemma find_active_head id image text rs :
  find (is_active (Some id)) ({| gr_id := id; gr_image := image; gr_text := text |} :: rs)
  = Some {| gr_id := id; gr_image := image; gr_text := text |}.
Proof. cbn [find is_active gr_id]. now rewrite String.eqb_refl. Qed.

Lemma freshened_length rs n : List.length (freshened rs n) = List.length rs.
Proof.
  revert n. induction rs as [|r rs IH]; intros n; [reflexivity|].
  cbn [freshened List.length]. now rewrite IH.
Qed.

(** X15.  Saving keeps the picture on screen.  With a selected result, the
    save makes that result the base image, under a fresh identifier, so the
    picture shown after the save has the data URL of the picture shown
    before; the results, the markers and the asset markers are cleared and
    the assets are kept.  With no result selected nothing of the editor
    changes and the error is set; the history records the state before in
    both cases. *)
Theorem handleSaveChanges_keeps_the_picture :
  forall s : AppState,
    (forall r,
        find (is_active (activeResultId s)) (generatedResults s) = Some r ->
        baseImage (handleSaveChanges s)
        = Some {| if_id := "uuid-" ++ show_nat (uuidSeed s); if_dataUrl := gr_image r |}
        /\ option_map if_dataUrl (displayImage (handleSaveChanges s))
           = option_map if_dataUrl (displayImage s)
        /\ generatedResults (handleSaveChanges s) = []
        /\ markers (handleSaveChanges s) = []
        /\ assetMarkers (handleSaveChanges s) = []
        /\ insertImages (handleSaveChanges s) = insertImages s)
    /\ (find (is_active (activeResultId s)) (generatedResults s) = None ->
        editorOf (handleSaveChanges s) = editorOf s
        /\ displayImage (handleSaveChanges s) = displayImage s
        /\ error (handleSaveChanges s) = Some "No result selected to save.")
    /\ history (handleSaveChanges s) = (history s ++ [editorOf s])%list.
Proof.
  intros s. unfold handleSaveChanges, displayImage. split; [|split].
  - intros r Hr. rewrite Hr. now repeat split.
  - intros Hr. rewrite Hr. cbn [generatedResults activeResultId set_error
      saveStateToHistory set_history]. rewrite Hr. now repeat split.
  - now destruct (find _ (generatedResults s)).
Qed.

Lemma handleSaveChanges_keeps_the_picture_witness :
  baseImage (handleSaveChanges zoomedWithResult)
  = Some {| if_id := "uuid-" ++ show_nat (uuidSeed zoomedWithResult);
            if_dataUrl := gr_image (generated "data:image/png;base64,CCCC") |}
  /\ option_map if_dataUrl (displayImage (handleSaveChanges zoomedWithResult))
     = option_map if_dataUrl (displayImage zoomedWithResult).
Proof.
  destruct (proj1 (handleSaveChanges_keeps_the_picture zoomedWithResult)
              (generated "data:image/png;base64,CCCC") eq_refl) as (Hb & Hd & _).
  exact (conj Hb Hd).
Defined.

(** X16.  A generation from a marker shows its first variation.  With a base
    image, when every call succeeds and the calls return at least one image,
    the picture shown afterwards is the first image returned, under the first
    fresh identifier; when a call fails the results are emptied and the
    picture shown is the base image again.  The loading flag is down and the
    editor state and the history are untouched in both cases. *)
Theorem handleMarkerGeneration_shows_first_variation :
  forall (call : nat -> settled (list GeneratedResult)) (s : AppState),
    baseImage s <> None ->
    (forall results r rs,
        promise_all (variations call s) = Resolved results ->
        List.concat results = r :: rs ->
        displayImage (handleMarkerGeneration call s)
        = Some {| if_id := "uuid-" ++ show_nat (uuidSeed s); if_dataUrl := gr_image r |}
        /\ List.length (generatedResults (handleMarkerGeneration call s))
           = S (List.length rs))
    /\ (forall m,
           promise_all (variations call s) = Rejected m ->
           displayImage (handleMarkerGeneration call s) = baseImage s
           /\ error (handleMarkerGeneration call s)
              = Some (message_or m "An unexpected error occurred during image generation."))
    /\ isLoading (handleMarkerGeneration call s) = false
    /\ editorOf (handleMarkerGeneration call s) = editorOf s
    /\ history (handleMarkerGeneration call s) = history s.
Proof.
  intros call s Hb. unfold handleMarkerGeneration, displayImage.
  destruct (baseImage s) as [base|] eqn:Eb; [clear Hb|congruence].
  split; [|split; [|split; [|split]]].
  - intros results r rs Hp Hc. rewrite Hp, withFreshIds_spec, Hc.
    cbn [freshened startLoading uuidSeed set_generatedResults set_error set_isLoading
         generatedResults activeResultId set_activeResultId gr_id].
    rewrite find_active_head. split; [reflexivity|].
    cbn [List.length]. now rewrite freshened_length.
  - intros m Hp. rewrite Hp. now split.
  - destruct (promise_all (variations call s)); [|reflexivity].
    rewrite withFreshIds_spec. now destruct (freshened _ _).
  - destruct (promise_all (variations call s)); [|reflexivity].
    rewrite withFreshIds_spec. now destruct (freshened _ _).
  - destruct (promise_all (variations call s)); [|reflexivity].
    rewrite withFreshIds_spec. now destruct (freshened _ _).
Qed.

Lemma handleMarkerGeneration_shows_first_variation_witness :
  displayImage (handleMarkerGeneration everyCall twoVariations)
  = Some {| if_id := "uuid-" ++ show_nat (uuidSeed twoVariations);
            if_dataUrl := gr_image (generated "data:image/png;base64,AAAA") |}
  /\ List.length (generatedResults (handleMarkerGeneration everyCall twoVariations)) = 2%nat.
Proof.
  apply (proj1 (handleMarkerGeneration_shows_first_variation everyCall twoVariations
                  ltac:(discriminate))
           [[generated "data:image/png;base64,AAAA"]; [generated "data:image/png;base64,AAAA"]]
           (generated "data:image/png;base64,AAAA") [generated "data:image/png;base64,AAAA"]);
    reflexivity.
Defined.

(** ** Segmentation colours *)

Lemma coloredMasksFrom_length i masks :
  List.length (coloredMasksFrom i masks) = List.length masks.
Proof.
  revert i. induction masks as [|[label mask] masks IH]; intros i; [reflexivity|].
  cbn [coloredMasksFrom List.length]. now rewrite IH.
Qed.

Lemma coloredMasksFrom_nth masks :
  forall i k label mask,
    nth_error masks k = Some (label, mask) ->
    nth_error (coloredMasksFrom i masks) k
    = Some {| sm_label := label; sm_mask := mask;
              sm_color := nth ((i + k) mod 8) MASK_COLORS "" |}.
Proof.
  induction masks as [|[label0 mask0] masks IH]; intros i k label mask H.
  - now destruct k.
  - destruct k as [|k]; cbn [nth_error coloredMasksFrom] in *.
    + injection H as -> ->. now rewrite Nat.add_0_r.
    + rewrite (IH (S i) k label mask H). now rewrite Nat.add_succ_r.
Qed.

Lemma mask_color_defined n : nth_error MASK_COLORS (n mod 8) = Some (nth (n mod 8) MASK_COLORS "").
Proof.
  apply nth_error_nth'. change (List.length MASK_COLORS) with 8%nat.
  apply Nat.mod_upper_bound. discriminate.
Qed.

(** X17.  Segmentation colours cycle through the palette of eight.  With a
    base image, when the segmentation answers, the masks stored are the
    answered ones, in order, with label and mask kept, and the mask at
    position [k] gets the colour at index [k mod 8] of the palette, which is
    always defined; when it fails no masks are stored and the error is set.
    The segmenting flag is down afterwards and neither the editor state nor
    the history changes. *)
Theorem handleSegmentImage_colours :
  forall (segment : string -> outcome (list (string * string))) (s : AppState)
         (base : ImageFile),
    baseImage s = Some base ->
    (forall masks,
        segment (if_dataUrl base) = Resolved masks ->
        exists colored,
          segmentationData (handleSegmentImage segment s) = Some colored
          /\ List.length colored = List.length masks
          /\ (forall k label mask,
                 nth_error masks k = Some (label, mask) ->
                 exists color,
                   nth_error MASK_COLORS (k mod 8) = Some color
                   /\ nth_error colored k
                      = Some {| sm_label := label; sm_mask := mask; sm_color := color |})
          /\ error (handleSegmentImage segment s) = None)
    /\ (forall m,
           segment (if_dataUrl base) = Rejected m ->
           segmentationData (handleSegmentImage segment s) = None
           /\ error (handleSegmentImage segment s)
              = Some (message_or m "Failed to segment image."))
    /\ isSegmenting (handleSegmentImage segment s) = false
    /\ editorOf (handleSegmentImage segment s) = editorOf s
    /\ history (handleSegmentImage segment s) = history s.
Proof.
  intros segment s base Hb. unfold handleSegmentImage. rewrite Hb.
  split; [|split; [|split; [|split]]].
  - intros masks Hm. rewrite Hm. eexists. split; [reflexivity|].
    split; [apply coloredMasksFrom_length|]. split; [|reflexivity].
    intros k label mask Hk. eexists. split; [apply mask_color_defined|].
    now rewrite (coloredMasksFrom_nth masks 0 k label mask Hk).
  - intros m Hm. rewrite Hm. now split.
  - now destruct (segment (if_dataUrl base)).
  - unfold editorOf. destruct (segment (if_dataUrl base)); cbn; now rewrite Hb.
  - now destruct (segment (if_dataUrl base)).
Qed.

Lemma handleSegmentImage_colours_witness :
  exists colored,
    segmentationData (handleSegmentImage (fun _ => Resolved nineMasks) loaded) = Some colored
    /\ List.length colored = 9%nat
    /\ exists color,
         nth_error MASK_COLORS (8 mod 8) = Some color
         /\ nth_error colored 8 = Some {| sm_label := "i"; sm_mask := "I"; sm_color := color |}.
Proof.
  destruct (proj1 (handleSegmentImage_colours (fun _ => Resolved nineMasks) loaded
                     {| if_id := "uuid-0"; if_dataUrl := "data:image/png;base64,BBBB" |}
                     eq_refl) nineMasks eq_refl) as (colored & Hs & Hl & Hk & _).
  exists colored. split; [exact Hs|]. split; [exact Hl|].
  apply (Hk 8%nat "i" "I"). reflexivity.
Defined.

(** ** Regeneration *)

(** X18.  Regenerating an asset marker never edits the workspace: whatever
    the calls return, the base image, the assets, the markers and the asset
    markers are the same afterwards, no colour is drawn from the palette and
    the history gets no entry.  For a marker identifier that is not on the
    canvas nothing happens at all. *)
Theorem handleAssetRegeneration_frame :
  forall (call : nat -> settled (list GeneratedResult)) (markerId : string) (s : AppState),
    editorOf (handleAssetRegeneration call markerId s) = editorOf s
    /\ history (handleAssetRegeneration call markerId s) = history s
    /\ lastColorIndex (handleAssetRegeneration call markerId s) = lastColorIndex s
    /\ (find (fun m => String.eqb (am_id m) markerId) (assetMarkers s) = None ->
        handleAssetRegeneration call markerId s = s).
Proof.
  intros call markerId s. unfold handleAssetRegeneration.
  destruct (find _ (assetMarkers s)) as [marker|]; [|now repeat split].
  split; [|split; [|split; [|discriminate]]]; unfold handleAssetGeneration;
    (destruct (baseImage s) eqn:Eb; [|reflexivity]);
    (destruct (find _ (insertImages s)); [|reflexivity]);
    (destruct (promise_all (variations call s)) as [results|m];
     [rewrite withFreshIds_spec; destruct (freshened _ _)|]);
    unfold editorOf; cbn; now rewrite ?Eb.
Qed.

Lemma handleAssetRegeneration_frame_witness :
  handleAssetRegeneration everyCall "nowhere" marked = marked.
Proof.
  apply (proj2 (proj2 (proj2 (handleAssetRegeneration_frame everyCall "nowhere" marked)))).
  reflexivity.
Defined.

(** ** Adding and removing markers *)

Lemma filter_all {A} (f : A -> bool) (l : list A) :
  Forall (fun x => f x = true) l -> filter f l = l.
Proof.
  induction 1 as [|x l Hx _ IH]; [reflexivity|]. cbn [filter]. now rewrite Hx, IH.
Qed.

(** X19.  Removing the marker just added gives back the markers.  An added
    marker goes to the end of the list, at the coordinate and with the label
    given, with an empty prompt and a fresh identifier; provided no other
    marker carries that identifier, removing it leaves the list as it was
    before the addition. *)
Theorem add_then_remove_marker :
  forall (coords : DropCoordinates) (label : option string) (s : AppState),
    Forall (fun m => em_id m <> "uuid-" ++ show_nat (uuidSeed s)) (markers s) ->
    markers (handleAddMarker coords label s)
    = (markers s ++ [{| em_id := "uuid-" ++ show_nat (uuidSeed s); em_x := dc_x coords;
                        em_y := dc_y coords; em_prompt := "";
                        em_targetObjectLabel := label |}])%list
    /\ markers (handleRemoveMarker ("uuid-" ++ show_nat (uuidSeed s))
                                   (handleAddMarker coords label s))
       = markers s.
Proof.
  intros coords label s Hfresh. split; [reflexivity|].
  unfold handleRemoveMarker, handleAddMarker.
  cbn [randomUUID markers set_markers saveStateToHistory set_history set_uuidSeed uuidSeed].
  rewrite filter_app. cbn [filter em_id]. rewrite String.eqb_refl. cbn [negb].
  rewrite app_nil_r. apply filter_all.
  eapply Forall_impl; [|exact Hfresh]. intros m Hm. cbn beta.
  destruct (String.eqb_spec (em_id m) ("uuid-" ++ show_nat (uuidSeed s))); [contradiction|].
  reflexivity.
Qed.

Lemma add_then_remove_marker_witness :
  markers (handleRemoveMarker ("uuid-" ++ show_nat (uuidSeed marked))
                              (handleAddMarker (at_ (1 # 2) (1 # 2)) None marked))
  = markers marked.
Proof.
  apply (add_then_remove_marker (at_ (1 # 2) (1 # 2)) None marked).
  repeat constructor; discriminate.
Defined.

(** ** The colour of an asset in the panel *)

Lemma assetIdToColorMap_snoc markers m key :
  AssetColors.assetIdToColorMap (markers ++ [m]) key
  = if String.eqb key (am_assetId m) then Some (am_color m)
    else AssetColors.assetIdToColorMap markers key.
Proof. unfold AssetColors.assetIdToColorMap. now rewrite fold_left_app. Qed.

Lemma assetIdToColorMap_skip markers post key :
  (forall m, In m post -> am_assetId m <> key) ->
  AssetColors.assetIdToColorMap (markers ++ post) key
  = AssetColors.assetIdToColorMap markers key.
Proof.
  induction post as [|m post IH] using rev_ind; intros H.
  - now rewrite app_nil_r.
  - rewrite app_assoc, assetIdToColorMap_snoc.
    destruct (String.eqb_spec key (am_assetId m)) as [E|_].
    + exfalso. apply (H m); [apply in_or_app; right; now left|now symmetry].
    + apply IH. intros m' Hin. apply H. apply in_or_app. now left.
Qed.

(** X20.  The colour shown for an asset is that of its last marker.  The
    map gives an asset the colour of the marker that comes last among those
    placed for it, and has no entry for an asset without a marker. *)
Theorem assetIdToColorMap_last_marker_wins :
  forall (pre post : list AssetMarker) (m : AssetMarker),
    (forall m', In m' post -> am_assetId m' <> am_assetId m) ->
    AssetColors.assetIdToColorMap (pre ++ m :: post) (am_assetId m) = Some (am_color m)
    /\ (forall key,
           (forall m', In m' (pre ++ m :: post) -> am_assetId m' <> key) ->
           AssetColors.assetIdToColorMap (pre ++ m :: post) key = None).
Proof.
  intros pre post m Hpost. split.
  - change (pre ++ m :: post)%list with (pre ++ [m] ++ post)%list.
    rewrite app_assoc, (assetIdToColorMap_skip _ post _ Hpost), assetIdToColorMap_snoc.
    now rewrite String.eqb_refl.
  - intros key H.
    exact (assetIdToColorMap_skip [] (pre ++ m :: post) key H).
Qed.

Lemma assetIdToColorMap_last_marker_wins_witness :
  AssetColors.assetIdToColorMap ([assetMarker "c" (1 # 2) (1 # 2)]
                                 ++ recolored :: [otherAsset])
                                (am_assetId recolored)
  = Some (am_color recolored).
Proof.
  refine (proj1 (assetIdToColorMap_last_marker_wins [assetMarker "c" (1 # 2) (1 # 2)]
                   [otherAsset] recolored _)).
  intros m' [<-|[]]. discriminate.
Defined.

(** ** Stepping through the results *)

Lemma js_rem_small a b : (0 <= a < b)%Z -> ResultModal.js_rem a b = Some a.
Proof.
  intros H. unfold ResultModal.js_rem.
  destruct (Z.eqb_spec b 0); [lia|]. now rewrite Z.rem_small.
Qed.

Lemma js_rem_same b : (0 < b)%Z -> ResultModal.js_rem b b = Some 0%Z.
Proof.
  intros H. unfold ResultModal.js_rem.
  destruct (Z.eqb_spec b 0); [lia|]. rewrite Z.rem_same by lia. reflexivity.
Qed.

Lemma js_rem_wrap a b : (0 <= a < b)%Z -> ResultModal.js_rem (a + b) b = Some a.
Proof.
  intros H. unfold ResultModal.js_rem.
  destruct (Z.eqb_spec b 0); [lia|].
  rewrite Z.rem_mod_nonneg by lia.
  rewrite <- (Z.mul_1_l b) at 1. rewrite Z.mod_add by lia. now rewrite Z.mod_small.
Qed.

Lemma currentResult_in_range results i :
  (0 <= i < ResultModal.size results)%Z ->
  exists r, ResultModal.currentResult results (Some i) = Some r /\ In r results.
Proof.
  intros H. unfold ResultModal.currentResult, ResultModal.size in *.
  destruct (Z.leb_spec 0 i); [|lia].
  destruct (nth_error results (Z.to_nat i)) as [r|] eqn:E.
  - exists r. split; [reflexivity|]. eapply nth_error_In, E.
  - apply nth_error_None in E. lia.
Qed.

(** X21.  The arrows of the result viewer walk a cycle.  With the index on
    one of the results, next moves to the following result and from the last
    one to the first, previous moves to the preceding result and from the
    first one to the last; either way the index stays on a result, each arrow
    undoes the other, and the result reported to the application as active is
    the one now shown.  With no results at all the index becomes NaN and
    nothing is shown. *)
Theorem resultModal_arrows_cycle :
  forall (results : list GeneratedResult) (i : Z) (app : AppState),
    (0 <= i < ResultModal.size results)%Z ->
    (exists j r,
        ResultModal.handleNext results (Some i) = Some j
        /\ j = (if (i + 1 =? ResultModal.size results)%Z then 0 else i + 1)%Z
        /\ ResultModal.handlePrev results (Some j) = Some i
        /\ ResultModal.currentResult results (Some j) = Some r /\ In r results
        /\ activeResultId (ResultModal.navigate results (Some j) app) = Some (gr_id r))
    /\ (exists j r,
           ResultModal.handlePrev results (Some i) = Some j
           /\ j = (if (i =? 0)%Z then ResultModal.size results - 1 else i - 1)%Z
           /\ ResultModal.handleNext results (Some j) = Some i
           /\ ResultModal.currentResult results (Some j) = Some r /\ In r results
           /\ activeResultId (ResultModal.navigate results (Some j) app) = Some (gr_id r))
    /\ ResultModal.handleNext [] (Some i) = None
    /\ ResultModal.currentResult results (ResultModal.handleNext [] (Some i)) = None.
Proof.
  intros results i app H.
  set (n := ResultModal.size results) in *.
  assert (Hnav : forall j r, ResultModal.currentResult results (Some j) = Some r ->
                             activeResultId (ResultModal.navigate results (Some j) app)
                             = Some (gr_id r)).
  { intros j r E. unfold ResultModal.navigate. now rewrite E. }
  split; [|split; [|split; reflexivity]].
  - destruct (Z.eqb_spec (i + 1) n) as [E|E].
    + destruct (currentResult_in_range results 0) as (r & Hr & Hin); [fold n; lia|].
      exists 0%Z, r. cbn [ResultModal.handleNext ResultModal.handlePrev]. fold n.
      rewrite E, js_rem_same by lia.
      replace (0 - 1 + n)%Z with i by lia. rewrite js_rem_small by lia.
      repeat split; auto.
    + destruct (currentResult_in_range results (i + 1)) as (r & Hr & Hin); [fold n; lia|].
      exists (i + 1)%Z, r. cbn [ResultModal.handleNext ResultModal.handlePrev]. fold n.
      rewrite js_rem_small by lia.
      replace (i + 1 - 1 + n)%Z with (i + n)%Z by lia. rewrite js_rem_wrap by lia.
      repeat split; auto.
  - destruct (Z.eqb_spec i 0) as [E|E].
    + destruct (currentResult_in_range results (n - 1)) as (r & Hr & Hin); [fold n; lia|].
      exists (n - 1)%Z, r. cbn [ResultModal.handleNext ResultModal.handlePrev]. fold n.
      replace (i - 1 + n)%Z with (n - 1)%Z by lia. rewrite js_rem_small by lia.
      replace (n - 1 + 1)%Z with n by lia. rewrite js_rem_same by lia.
      repeat split; auto. now rewrite E.
    + destruct (currentResult_in_range results (i - 1)) as (r & Hr & Hin); [fold n; lia|].
      exists (i - 1)%Z, r. cbn [ResultModal.handleNext ResultModal.handlePrev]. fold n.
      replace (i - 1 + n)%Z with (i - 1 + n)%Z by lia. rewrite js_rem_wrap by lia.
      replace (i - 1 + 1)%Z with i by lia. rewrite js_rem_small by lia.
      repeat split; auto.
Qed.

Lemma resultModal_arrows_cycle_witness :
  exists j r,
    ResultModal.handleNext threeResults (Some 2%Z) = Some j
    /\ j = 0%Z
    /\ ResultModal.handlePrev threeResults (Some j) = Some 2%Z
    /\ ResultModal.currentResult threeResults (Some j) = Some r /\ In r threeResults
    /\ activeResultId (ResultModal.navigate threeResults (Some j) loaded) = Some (gr_id r).
Proof.
  apply (proj1 (resultModal_arrows_cycle threeResults 2 loaded
                  ltac:(vm_compute; split; [discriminate|reflexivity]))).
Defined.

Lemma findIndexFrom_spec id results :
  forall i,
    (i <= ResultModal.findIndexFrom i id results < i + ResultModal.size results
     /\ exists r,
          nth_error results (Z.to_nat (ResultModal.findIndexFrom i id results - i)) = Some r
          /\ gr_id r = id)%Z
    \/ (ResultModal.findIndexFrom i id results = -1
        /\ forall r, In r results -> gr_id r <> id)%Z.
Proof.
  unfold ResultModal.size.
  induction results as [|r results IH]; intros i; [right; now split|].
  cbn [ResultModal.findIndexFrom List.length].
  destruct (String.eqb_spec (gr_id r) id) as [E|E].
  - left. split; [lia|]. exists r. rewrite Z.sub_diag. now split.
  - destruct (IH (i + 1)%Z) as [(Hr & x & Hx & Hid)|(Hneg & Hall)].
    + left. split; [lia|]. exists x. split; [|exact Hid].
      replace (Z.to_nat (ResultModal.findIndexFrom (i + 1) id results - i))
        with (S (Z.to_nat (ResultModal.findIndexFrom (i + 1) id results - (i + 1)))) by lia.
      exact Hx.
    + right. split; [exact Hneg|]. intros x [<-|Hin]; [exact E|now apply Hall].
Qed.

(** X22.  The viewer opens on the result that was clicked.  For a non-empty
    list of results the initial index is on a result; when the clicked result
    is in the list, the result shown first carries its identifier; when it is
    not, the viewer opens on the first result. *)
Theorem resultModal_opens_on_clicked_result :
  forall (results : list GeneratedResult) (initialResult : GeneratedResult),
    results <> [] ->
    exists i r,
      ResultModal.initialIndex results initialResult = Some i
      /\ (0 <= i < ResultModal.size results)%Z
      /\ ResultModal.currentResult results (Some i) = Some r
      /\ ((exists x, In x results /\ gr_id x = gr_id initialResult) ->
          gr_id r = gr_id initialResult)
      /\ ((forall x, In x results -> gr_id x <> gr_id initialResult) -> i = 0%Z).
Proof.
  intros results initialResult Hne.
  assert (Hsize : (0 < ResultModal.size results)%Z).
  { unfold ResultModal.size. destruct results; [congruence|cbn [List.length]; lia]. }
  unfold ResultModal.initialIndex, ResultModal.findIndex.
  destruct (findIndexFrom_spec (gr_id initialResult) results 0)
    as [(Hr & x & Hx & Hid)|(Hneg & Hall)].
  - destruct (Z.leb_spec 0 (ResultModal.findIndexFrom 0 (gr_id initialResult) results));
      [|lia].
    rewrite Z.sub_0_r in Hx.
    exists (ResultModal.findIndexFrom 0 (gr_id initialResult) results), x.
    split; [reflexivity|]. split; [lia|].
    split.
    { unfold ResultModal.currentResult.
      destruct (Z.leb_spec 0 (ResultModal.findIndexFrom 0 (gr_id initialResult) results));
        [exact Hx|lia]. }
    split; [auto|].
    intros Hnone. exfalso. apply (Hnone x); [eapply nth_error_In, Hx|exact Hid].
  - rewrite Hneg. cbn [Z.leb Z.compare].
    destruct results as [|r results]; [congruence|].
    exists 0%Z, r. split; [reflexivity|]. split; [lia|]. split; [reflexivity|].
    split; [|reflexivity].
    intros (x & Hin & Hid). exfalso. exact (Hall x Hin Hid).
Qed.

Lemma resultModal_opens_on_clicked_result_witness :
  exists i r,
    ResultModal.initialIndex threeResults (numbered "r2") = Some i
    /\ (0 <= i < ResultModal.size threeResults)%Z
    /\ ResultModal.currentResult threeResults (Some i) = Some r
    /\ gr_id r = gr_id (numbered "r2").
Proof.
  destruct (resultModal_opens_on_clicked_result threeResults (numbered "r2")
              ltac:(discriminate)) as (i & r & Hi & Hr & Hc & Hid & _).
  exists i, r. repeat split; try assumption; try apply Hr.
  apply Hid. exists (numbered "r2"). split; [|reflexivity]. right. now left.
Defined.

(** ** Looking a label up in the hit map *)



Lemma enforce_long_Some_of_Z z sx : enforce_long (Fin (inject_Z z)) = Some sx -> sx = z.
Proof.
  unfold enforce_long. cbv zeta. rewrite to_long_of_Z.
  destruct (_ || _)%bool; congruence.
Qed.

(** A lookup that reads a transparent pixel finds no label. *)
Lemma getLabelFromHitMap_transparent hc seg coords :
  (forall sx sy,
      enforce_long (floor (dc_x coords * of_Z (hc_width hc))%num) = Some sx ->
      enforce_long (floor (dc_y coords * of_Z (hc_height hc))%num) = Some sy ->
      getImageData hc sx sy = transparent) ->
  getLabelFromHitMap (Some hc) (Some seg) coords <> Thrown ->
  getLabelFromHitMap (Some hc) (Some seg) coords = Found None.
Proof.
  intros Hpix. unfold getLabelFromHitMap. cbv zeta.
  destruct (enforce_long (floor (dc_x coords * of_Z (hc_width hc))%num)) as [sx|];
    [|intros H; now contradiction H].
  destruct (enforce_long (floor (dc_y coords * of_Z (hc_height hc))%num)) as [sy|];
    [|intros H; now contradiction H].
  intros _. now rewrite (Hpix sx sy eq_refl eq_refl).
Qed.

Lemma getImageData_outside_right hc y : getImageData hc (hc_width hc) y = transparent.
Proof. unfold getImageData. now rewrite Z.ltb_irrefl, andb_false_r. Qed.

Lemma getImageData_outside_bottom hc x : getImageData hc x (hc_height hc) = transparent.
Proof. unfold getImageData. now rewrite Z.ltb_irrefl, andb_false_r. Qed.

Lemma Qfloor_one_scaled q z : q == 1 -> Qfloor (q * inject_Z z) = z.
Proof.
  intros H. rewrite (Qfloor_comp (q * inject_Z z) (inject_Z z)) by (rewrite H; ring).
  apply Qfloor_Z.
Qed.

(** A coordinate on the right or bottom edge finds no label. *)
Lemma getLabelFromHitMap_edge hc seg coords :
  eqv (dc_x coords) (Fin 1) \/ eqv (dc_y coords) (Fin 1) ->
  getLabelFromHitMap (Some hc) (Some seg) coords <> Thrown ->
  getLabelFromHitMap (Some hc) (Some seg) coords = Found None.
Proof.
  intros Hedge. apply getLabelFromHitMap_transparent. intros sx sy Ex Ey.
  destruct Hedge as [H|H].
  - destruct (dc_x coords) as [u| | |]; cbn [eqv] in H; try contradiction.
    unfold of_Z in Ex. cbn [mul floor] in Ex.
    rewrite (Qfloor_one_scaled u _ H) in Ex.
    rewrite (enforce_long_Some_of_Z _ _ Ex). apply getImageData_outside_right.
  - destruct (dc_y coords) as [v| | |]; cbn [eqv] in H; try contradiction.
    unfold of_Z in Ey. cbn [mul floor] in Ey.
    rewrite (Qfloor_one_scaled v _ H) in Ey.
    rewrite (enforce_long_Some_of_Z _ _ Ey). apply getImageData_outside_bottom.
Qed.

Lemma getLabelFromHitMap_cleared seg coords c :
  getLabelFromHitMap (Some (clearRect c)) (Some seg) coords <> Thrown ->
  getLabelFromHitMap (Some (clearRect c)) (Some seg) coords = Found None.
Proof.
  apply getLabelFromHitMap_transparent. intros sx sy _ _.
  unfold getImageData, clearRect. cbn [hc_data]. now destruct (_ && _)%bool.
Qed.

Lemma clamp01_above u : 1 < u -> clamp01 u = 1.
Proof.
  intros H. unfold clamp01.
  destruct (Qltb_spec u 0); [lra|]. destruct (Qltb_spec 1 u); [reflexivity|lra].
Qed.

(** X23.  What a lookup can return.  A label returned by the hit map is the
    label of one of the masks, and without masks nothing is returned.  The
    lookup throws exactly when [floor (x * width)] or [floor (y * height)] is
    not a finite number in the range of a [long].  When it does not throw,
    nothing is returned right after the effect has cleared the canvas and
    before a mask image has loaded, nor on the right or bottom edge (x = 1 or
    y = 1), whose pixel lies outside the canvas.  So, with a finite geometry
    of positive size and a hit canvas whose dimensions are between 0 and
    2^31 - 1, a pointer beyond the right or the bottom edge of the picture,
    which the transform clamps to that edge, finds no label whatever the
    masks cover. *)
Theorem getLabelFromHitMap_range :
  forall (hc : HitCanvas) (seg : list SegmentationMask) (coords : DropCoordinates),
    (forall label,
        getLabelFromHitMap (Some hc) (Some seg) coords = Found (Some label) ->
        In label (map sm_label seg))
    /\ getLabelFromHitMap (Some hc) None coords = Found None
    /\ (getLabelFromHitMap (Some hc) (Some seg) coords = Thrown
        <-> ~ (isLong (floor (dc_x coords * of_Z (hc_width hc))%num)
               /\ isLong (floor (dc_y coords * of_Z (hc_height hc))%num)))
    /\ (forall hc0 img segmentationData,
           getLabelFromHitMap (hitMapEffect (Some hc0) img segmentationData) (Some seg) coords
           <> Thrown ->
           getLabelFromHitMap (hitMapEffect (Some hc0) img segmentationData) (Some seg) coords
           = Found None)
    /\ (eqv (dc_x coords) (Fin 1) \/ eqv (dc_y coords) (Fin 1) ->
        getLabelFromHitMap (Some hc) (Some seg) coords <> Thrown ->
        getLabelFromHitMap (Some hc) (Some seg) coords = Found None)
    /\ (forall (dom : Dom) (container : Container) (app : AppState) (cs : CanvasState)
               (eX eY l t ox oy z gx gy gw gh : Q),
           canvasRef dom = Some container ->
           left (rect container) = Fin l -> top (rect container) = Fin t ->
           canvasOffset app = {| px := Fin ox; py := Fin oy |} ->
           zoom app = Fin z -> ~ z == 0 ->
           renderedImageGeom cs
           = {| g_x := Fin gx; g_y := Fin gy; g_width := Fin gw; g_height := Fin gh |} ->
           0 < gw -> 0 < gh ->
           hitCanvas cs = Some hc -> canvasSized (Some hc) ->
           segmentationData app = Some seg ->
           gw < ((eX - l) - ox) / z - gx \/ gh < ((eY - t) - oy) / z - gy ->
           exists c,
             getRelativeCoords dom app cs (Fin eX) (Fin eY) = Some c
             /\ labelAt app cs c = Found None).
Proof.
  intros hc seg coords.
  split; [|split; [reflexivity|split; [apply getLabelFromHitMap_thrown|split; [|split]]]].
  - intros label. unfold getLabelFromHitMap.
    destruct (enforce_long _) as [sx|]; [|discriminate].
    destruct (enforce_long _) as [sy|]; [|discriminate].
    destruct (_ && _)%bool; [|discriminate].
    destruct (nth_error seg _) as [m|] eqn:E; [|discriminate].
    intros H. injection H as <-. apply in_map. eapply nth_error_In, E.
  - intros hc0 img segmentationData. unfold hitMapEffect.
    destruct img as [i|], segmentationData as [sd|];
      try (now apply getLabelFromHitMap_cleared).
    destruct (_ || _)%bool; now apply getLabelFromHitMap_cleared.
  - apply getLabelFromHitMap_edge.
  - intros dom container app cs eX eY l t ox oy z gx gy gw gh
           Hc Hl Ht Ho Hz Hz0 Hg Hgw Hgh Hhc Hsized Hseg Hout.
    destruct (getRelativeCoords_finite dom container app cs eX eY l t ox oy z gx gy gw gh
                Hc Hl Ht Ho Hz Hz0 Hg Hgw Hgh) as (c & E & Hx & Hy).
    exists c. split; [exact E|].
    assert (Hon : onPicture c).
    { split; (eapply within_eqv; [eassumption|apply clamp01_within]). }
    pose proof (labelAt_on_picture app cs c) as Hnot.
    rewrite Hhc in Hnot. specialize (Hnot Hsized Hon).
    unfold labelAt in *. rewrite Hhc, Hseg in *.
    apply getLabelFromHitMap_edge; [|exact Hnot].
    destruct Hout as [Hr|Hb].
    + left. rewrite clamp01_above in Hx; [exact Hx|].
      apply Qlt_shift_div_l; [exact Hgw|]. lra.
    + right. rewrite clamp01_above in Hy; [exact Hy|].
      apply Qlt_shift_div_l; [exact Hgh|]. lra.
Qed.

(** A pointer right of the picture, with masks loaded: the transform gives
    x = 600/600 and the lookup finds no label. *)
Lemma getLabelFromHitMap_range_witness :
  exists c,
    getRelativeCoords dom800x600 segmented hitSquare (Fin 750) (Fin 300) = Some c
    /\ labelAt segmented hitSquare c = Found None.
Proof.
  destruct (buildHitMap bitmapMask img2x1 leftAndRight [0; 1]%nat) as [hc|] eqn:E;
    [|discriminate E].
  refine (proj2 (proj2 (proj2 (proj2 (proj2
            (getLabelFromHitMap_range hc leftAndRight (at_ 1 (1 # 2)))))))
            dom800x600 container800x600 segmented hitSquare
            750 300 0 0 0 0 1 100 0 600 600
            eq_refl eq_refl eq_refl eq_refl eq_refl _ eq_refl eq_refl eq_refl _ _ eq_refl _).
  - discriminate.
  - unfold hitSquare. cbn [hitCanvas set_hitCanvas]. exact E.
  - unfold buildHitMap, hitMapEffect in E. cbn [orb option_map naturalWidth naturalHeight
      img2x1 Z.eqb] in E.
    pose proof (f_equal (option_map hc_width) E) as Ew.
    pose proof (f_equal (option_map hc_height) E) as Eh.
    cbn in Ew, Eh. injection Ew as Ew. injection Eh as Eh.
    unfold canvasSized, LONG_MAX. lia.
  - left. reflexivity.
Defined.



(** ** Dragging the compare slider *)






(** ** The coordinate grid *)

(** X26.  The density of the grid.  At every zoom the grid has 18 major
    lines, nine in each direction, on the indices 10, 20, ..., 90.  The 180
    minor lines, on the other indices from 1 to 99, are drawn when the zoom is
    above 0.8 and only then; for a zoom that is NaN there are none.  No line
    is drawn on the border of the picture (index 0 or 100). *)
Theorem coordinate_grid_density :
  forall zoom : num,
    List.length (filter CoordinateGrid.ln_major (CoordinateGrid.lines zoom)) = 18%nat
    /\ List.length (filter isMinor (CoordinateGrid.lines zoom))
       = (if (zoom >? CoordinateGrid.zoomThreshold)%num then 180 else 0)%nat
    /\ forallb gridLineOk (CoordinateGrid.lines zoom) = true
    /\ List.length (filter isMinor (CoordinateGrid.lines NaN)) = 0%nat.
Proof.
  intros zoom. unfold CoordinateGrid.lines, CoordinateGrid.linesAt.
  destruct (zoom >? CoordinateGrid.zoomThreshold)%num; vm_compute; repeat split.
Qed.

(** ** Dropping an asset on the canvas *)

Lemma displayImage_of_base app base : baseImage app = Some base -> displayImage app <> None.
Proof.
  intros H. unfold displayImage. destruct (find _ _); [discriminate|]. now rewrite H.
Qed.

(** X27.  Dropping an asset on the picture places its marker at the drop
    point.  On a canvas that is not busy, with a base image, for a known
    asset and a drop that resolves to the coordinate [c], the handler first
    looks up the label under [c].  When the lookup returns: if the generation
    succeeds with at least one image, exactly one asset marker is appended,
    for that asset, at [c], with that label, an empty prompt and the palette
    colour at the current index; if the generation fails the asset markers
    are unchanged and the error is set; the drag feedback is cleared and the
    edit markers are kept either way.  When the lookup throws, the drop does
    nothing at all: no callback, and the drag feedback stays.  The lookup
    does not throw for a coordinate on the picture (both axes within 0 and 1)
    read from a hit canvas whose dimensions are between 0 and 2^31 - 1, nor
    when there are no masks. *)
Theorem asset_drop_places_marker :
  forall (env : Collaborators) (dom : Dom) (app : AppState) (cs : CanvasState)
         (e : DragEvent) (c : DropCoordinates) (base asset : ImageFile),
    isDisabled app = false -> d_assetId e <> "" ->
    baseImage app = Some base ->
    find (fun img => String.eqb (if_id img) (d_assetId e)) (insertImages app) = Some asset ->
    getRelativeCoords dom app cs (d_clientX e) (d_clientY e) = Some c ->
    (forall label,
        labelAt app cs c = Found label ->
        (forall results r rs,
            promise_all (variations (generate env) app) = Resolved results ->
            List.concat results = r :: rs ->
            exists id,
              assetMarkers (fst (fst (step env dom (app, cs) (Drop e))))
              = (assetMarkers app
                 ++ [{| am_id := id; am_assetId := d_assetId e; am_x := dc_x c;
                        am_y := dc_y c;
                        am_color := nth_error MARKER_COLORS (lastColorIndex app);
                        am_prompt := Some ""; am_targetObjectLabel := label |}])%list)
        /\ (forall m,
               promise_all (variations (generate env) app) = Rejected m ->
               assetMarkers (fst (fst (step env dom (app, cs) (Drop e)))) = assetMarkers app
               /\ error (fst (fst (step env dom (app, cs) (Drop e)))) <> None)
        /\ snd (fst (step env dom (app, cs) (Drop e))) = endDrag cs
        /\ markers (fst (fst (step env dom (app, cs) (Drop e)))) = markers app)
    /\ (labelAt app cs c = Thrown -> step env dom (app, cs) (Drop e) = (app, cs, []))
    /\ (canvasSized (hitCanvas cs) -> onPicture c -> labelAt app cs c <> Thrown)
    /\ (segmentationData app = None -> labelAt app cs c = Found None).
Proof.
  intros env dom app cs e c base asset Hd Hid Hb Hf Hcoords.
  split; [|split; [|split; [apply labelAt_on_picture|apply labelAt_no_masks]]].
  - intros label Hl.
    assert (Hstep : step env dom (app, cs) (Drop e)
                    = (handleAssetGeneration (generate env) (d_assetId e) c label
                         false (set_hoveredMaskLabel None app),
                       endDrag cs,
                       [onHoverMask None; onAssetDrop (d_assetId e) c label])).
    { unfold step. cbn [handle fst snd]. unfold handleDrop. rewrite Hcoords, Hl, Hd.
      destruct (String.eqb_spec (d_assetId e) ""); [contradiction|]. cbn [negb].
      pose proof (displayImage_of_base app base Hb) as Hdisp.
      destruct (displayImage app); [|congruence]. reflexivity. }
    rewrite Hstep. cbn [fst snd]. clear Hstep.
    unfold handleAssetGeneration.
    cbn [baseImage insertImages set_hoveredMaskLabel]. rewrite Hb, Hf.
    change (variations (generate env) (set_hoveredMaskLabel None app))
      with (variations (generate env) app).
    split; [|split; [|split]].
    + intros results r rs Hp Hc. rewrite Hp, withFreshIds_spec, Hc.
      cbn [freshened]. eexists. reflexivity.
    + intros m Hp. rewrite Hp. split; [reflexivity|discriminate].
    + reflexivity.
    + destruct (promise_all (variations (generate env) app)); [|reflexivity].
      rewrite withFreshIds_spec. now destruct (freshened _ _).
  - intros Hl. unfold step. cbn [handle fst snd]. unfold handleDrop.
    now rewrite Hcoords, Hl.
Qed.

Lemma asset_drop_places_marker_witness :
  exists c id,
    getRelativeCoords dom800x600 withAsset squareInWide (Fin 400) (Fin 300) = Some c
    /\ assetMarkers (fst (fst (step answering dom800x600 (withAsset, squareInWide)
                                    (Drop (assetDragAt 400 300)))))
       = (assetMarkers withAsset
          ++ [{| am_id := id; am_assetId := "uuid-1"; am_x := dc_x c; am_y := dc_y c;
                 am_color := nth_error MARKER_COLORS (lastColorIndex withAsset);
                 am_prompt := Some ""; am_targetObjectLabel := None |}])%list.
Proof.
  eexists.
  destruct (proj1 (proj1 (asset_drop_places_marker answering dom800x600 withAsset
                            squareInWide (assetDragAt 400 300) _
                            {| if_id := "uuid-0"; if_dataUrl := "data:image/png;base64,BBBB" |}
                            {| if_id := "uuid-1"; if_dataUrl := "data:image/png;base64,DDDD" |}
                            eq_refl ltac:(discriminate) eq_refl eq_refl eq_refl)
                     None eq_refl)
              [[generated "data:image/png;base64,AAAA"]]
              (generated "data:image/png;base64,AAAA") [] eq_refl eq_refl) as [id Hid].
  exists id. split; [reflexivity|exact Hid].
Defined.

(** ** Scene generation *)

(** X28.  What a scene generation does to the markers.  With neither a base
    image nor an asset it only sets the error: nothing is recorded and nothing
    is requested.  Otherwise the state before is recorded in the history and
    the loading flag is down at the end; when every call succeeds with at
    least one image, the edit markers and the asset markers are all cleared
    and the picture shown is the first image returned, while the base image
    and the assets are kept; when a call fails, or no image comes back, the
    markers and the asset markers stay as they were and the error is set. *)
Theorem handleSceneGeneration_outcome :
  forall (call : nat -> settled (list GeneratedResult)) (s : AppState),
    (baseImage s = None -> insertImages s = [] ->
     handleSceneGeneration call s
     = set_error (Some "A base image or at least one asset is required for Generation Mode.")
                 s)
    /\ (baseImage s <> None \/ insertImages s <> [] ->
        (forall results r rs,
            promise_all (variations call s) = Resolved results ->
            List.concat results = r :: rs ->
            markers (handleSceneGeneration call s) = []
            /\ assetMarkers (handleSceneGeneration call s) = []
            /\ displayImage (handleSceneGeneration call s)
               = Some {| if_id := "uuid-" ++ show_nat (uuidSeed s);
                         if_dataUrl := gr_image r |}
            /\ baseImage (handleSceneGeneration call s) = baseImage s
            /\ insertImages (handleSceneGeneration call s) = insertImages s)
        /\ ((exists m, promise_all (variations call s) = Rejected m)
            \/ (exists results, promise_all (variations call s) = Resolved results
                                /\ List.concat results = []) ->
            editorOf (handleSceneGeneration call s) = editorOf s
            /\ generatedResults (handleSceneGeneration call s) = []
            /\ error (handleSceneGeneration call s) <> None)
        /\ isLoading (handleSceneGeneration call s) = false
        /\ history (handleSceneGeneration call s) = (history s ++ [editorOf s])%list).
Proof.
  intros call s. split.
  - intros Hb Hi. unfold handleSceneGeneration. now rewrite Hb, Hi.
  - intros Hsome.
    assert (E : handleSceneGeneration call s
                = set_isLoading false
                    (match promise_all (variations call s) with
                     | Resolved results =>
                         let (successfulResults, s1) :=
                           withFreshIds (List.concat results)
                             (set_generatedResults [] (startLoading (saveStateToHistory s s))) in
                         match successfulResults with
                         | [] => set_error (Some sceneFailed) s1
                         | firstResult :: _ =>
                             set_assetMarkers []
                               (set_markers []
                                  (set_activeResultId (Some (gr_id firstResult))
                                     (set_generatedResults successfulResults s1)))
                         end
                     | Rejected m =>
                         set_error
                           (Some (message_or m
                                    "An unexpected error occurred during scene generation."))
                           (set_generatedResults [] (startLoading (saveStateToHistory s s)))
                     end)).
    { unfold handleSceneGeneration.
      destruct (baseImage s) eqn:Eb, (insertImages s) eqn:Ei;
        [reflexivity|reflexivity|destruct Hsome; congruence|reflexivity]. }
    rewrite E. clear E. unfold displayImage. split; [|split; [|split]].
    + intros results r rs Hp Hc. rewrite Hp, withFreshIds_spec, Hc.
      cbn [freshened generatedResults activeResultId set_isLoading set_assetMarkers
           set_markers set_activeResultId set_generatedResults gr_id].
      rewrite find_active_head. now repeat split.
    + intros [[m Hp]|(results & Hp & Hc)]; rewrite Hp.
      * repeat split. discriminate.
      * rewrite withFreshIds_spec, Hc. cbn [freshened]. repeat split. discriminate.
    + destruct (promise_all (variations call s)); [|reflexivity].
      rewrite withFreshIds_spec. now destruct (freshened _ _).
    + destruct (promise_all (variations call s)); [|reflexivity].
      rewrite withFreshIds_spec. now destruct (freshened _ _).
Qed.

Lemma handleSceneGeneration_outcome_witness :
  markers (handleSceneGeneration everyCall marked) = []
  /\ assetMarkers (handleSceneGeneration everyCall marked) = []
  /\ displayImage (handleSceneGeneration everyCall marked)
     = Some {| if_id := "uuid-" ++ show_nat (uuidSeed marked);
               if_dataUrl := gr_image (generated "data:image/png;base64,AAAA") |}.
Proof.
  assert (Hsome : baseImage marked <> None \/ insertImages marked <> [])
    by (left; discriminate).
  pose proof (proj1 (proj2 (handleSceneGeneration_outcome everyCall marked) Hsome)) as H.
  specialize (H [[generated "data:image/png;base64,AAAA"]]
                (generated "data:image/png;base64,AAAA") []).
  assert (Hp : promise_all (variations everyCall marked)
               = Resolved [[generated "data:image/png;base64,AAAA"]]) by reflexivity.
  specialize (H Hp eq_refl).
  destruct H as (Hm & Ha & Hd & _).
  exact (conj Hm (conj Ha Hd)).
Defined.
